(** * Twitter backend: visibility, pagination, follow graph and realtime relay

    A shallow embedding of the service and repository layer of the backend
    (TypeScript, Express + Prisma + socket.io) and the properties of its
    visibility resolver, cursor pagination, follow state machine, typed
    failures and realtime message relay.

    Layout: the Prisma schema as records, the exception classes, the
    class-validator checks, an error-and-state monad over the database and
    an event trace, the Prisma [findMany] query, the repositories, the
    services, the socket handler, and then the theorems. *)

From Stdlib Require Import ZArith Ascii String List Lia Bool Sorted Permutation.
From stdpp Require Import base option list gmap strings.

Local Open Scope string_scope.
Local Open Scope Z_scope.

(** ** Data model (Prisma schema) *)

Inductive Visibility := PUBLIC | PRIVATE | HIDDEN.

Inductive ReactionAction := LIKE | RETWEET.

#[global] Instance Visibility_eq_dec : EqDecision Visibility.
Proof. solve_decision. Defined.

#[global] Instance ReactionAction_eq_dec : EqDecision ReactionAction.
Proof. solve_decision. Defined.

(** A row of the [User] table; the primary key [id] is the key of the map
    the rows are stored in. *)
Record User := {
  username : string;
  name : option string;
  profilePicture : option string;
  visibility : Visibility;
}.

Record Follow := {
  follow_id : string;
  followerId : string;
  followedId : string;
  follow_createdAt : Z;
}.

(** A row of the [Post] table. Dates are milliseconds since the epoch. *)
Record Post := {
  post_id : string;
  authorId : string;
  content : string;
  images : list string;
  createdAt : Z;
  parentPostId : option string;
}.

Record Reaction := {
  reaction_id : string;
  reaction_authorId : string;
  reaction_postId : string;
  action : ReactionAction;
}.

(** [MessageDTO]: the three fields its constructor copies. *)
Record MessageDTO := {
  senderId : string;
  receiverId : string;
  msg_content : string;
}.

Record Message := {
  message_id : string;
  message_data : MessageDTO;
  message_createdAt : Z;
}.

(** The database: users by primary key, the other tables as row lists in the
    order the store returns them when a query has no [orderBy]. *)
Record Db := {
  users : gmap string User;
  follows : list Follow;
  posts : list Post;
  reactions : list Reaction;
  messages : list Message;
}.

(** ** Exceptions ([utils/errors]) *)

Record ValidationError := {
  property : string;
  constraints : list string;
}.

Inductive Exception :=
| UnauthorizedException (errorCode : option string)
| ValidationException (errors : list ValidationError)
| ForbiddenException
| InvalidUserException
| NotFoundException (model : option string)
| ConflictException (errorCode : option string)
| JsError (msg : string).

(** [HttpStatus] codes passed to [super] by each class. *)
Definition code (e : Exception) : option Z :=
  match e with
  | UnauthorizedException _ => Some 401
  | ValidationException _ => Some 400
  | ForbiddenException => Some 403
  | InvalidUserException => Some 404
  | NotFoundException _ => Some 404
  | ConflictException _ => Some 409
  | JsError _ => None
  end.

Definition message (e : Exception) : string :=
  match e with
  | UnauthorizedException _ => "Unauthorized. You must login to access this content."
  | ValidationException _ => "Validation Error"
  | ForbiddenException => "Forbidden. You are not allowed to perform this action"
  | InvalidUserException => "You don't have permission to perform this action on user"
  | NotFoundException m =>
      "Not found." +:+ match m with
                       | Some m => if decide (m = "") then "" else " Couldn't find " +:+ m
                       | None => ""
                       end
  | ConflictException _ => "Conflict"
  | JsError m => m
  end.

(** ** class-validator *)

Definition is_hex (c : ascii) : bool :=
  let n := nat_of_ascii c in
  ((48 <=? n) && (n <=? 57) || (65 <=? n) && (n <=? 70) || (97 <=? n) && (n <=? 102))%nat.

(** [isUUID(str)] with no version: validator.js pattern
    [/^[0-9A-F]{8}-[0-9A-F]{4}-[0-9A-F]{4}-[0-9A-F]{4}-[0-9A-F]{12}$/i]. *)
Fixpoint isUUID_from (i : nat) (s : string) : bool :=
  match s with
  | EmptyString => (i =? 36)%nat
  | String c s' =>
      (if ((i =? 8) || (i =? 13) || (i =? 18) || (i =? 23))%nat
       then Ascii.eqb c "-" else is_hex c)
      && isUUID_from (S i) s'
  end.

Definition isUUID (s : string) : bool := isUUID_from 0 s.

Arguments isUUID : simpl never.

(** ** Ids: spelling and value

    Every id is a UUID column of the store. The store holds and returns an
    id in lower case with hyphens and compares ids as values, so a text with
    upper-case digits names the row whose id is its lower-case spelling. The
    model compares ids as they are spelled; the two agree on well-formed ids
    ([isUUID]) in canonical spelling ([canonical_same_value]), and a
    statement that depends on a row being absent says of which texts it
    assumes that. A text the store cannot read as a UUID makes it reject the
    query ([by_ids] below). *)
Definition lower_hex (c : ascii) : ascii :=
  let n := nat_of_ascii c in
  if ((65 <=? n) && (n <=? 70))%nat then ascii_of_nat (n + 32) else c.

(** The canonical spelling of an id: its hexadecimal digits in lower case. *)
Fixpoint canon (s : string) : string :=
  match s with
  | EmptyString => EmptyString
  | String c s' => String (lower_hex c) (canon s')
  end.

Definition canonical (s : string) : Prop := canon s = s.

(** Two texts spell the same UUID value. *)
Definition same_value (x y : string) : Prop := canon x = canon y.

(** The texts the store reads as a UUID value (the parser of its query
    engine): the hyphenated form of [isUUID], the same 32 digits without
    hyphens, the hyphenated form in braces, or after [urn:uuid:]. *)
Definition reads_as_uuid (s : string) : bool :=
  isUUID s
  || ((String.length s =? 32)%nat && forallb is_hex (list_ascii_of_string s))
  || ((String.length s =? 38)%nat && String.eqb (substring 0 1 s) "{"
      && isUUID (substring 1 36 s) && String.eqb (substring 37 1 s) "}")
  || ((String.length s =? 45)%nat && String.eqb (substring 0 9 s) "urn:uuid:"
      && isUUID (substring 9 36 s)).

Arguments reads_as_uuid : simpl never.

(** Constraints violated by a [string] property decorated with
    [@IsNotEmpty() @IsString() @IsUUID()]. *)
Definition uuid_constraints (value : string) : list string :=
  (if decide (value = "") then ["isNotEmpty"] else []) ++
  (if isUUID value then [] else ["isUuid"]).

Definition check (prop : string) (violated : list string) : list ValidationError :=
  match violated with
  | [] => []
  | _ => [ {| property := prop; constraints := violated |} ]
  end.

(** [validate] on a DTO with two UUID properties (CreateFollowDTO,
    DeleteFollowDTO, GetPostDTO, PostsByAuthorDTO, GetCommentDTO, ...). *)
Definition validate_uuid_pair (p1 v1 p2 v2 : string) : list ValidationError :=
  check p1 (uuid_constraints v1) ++ check p2 (uuid_constraints v2).

(** [validate] on a [MessageDTO]. *)
Definition validate_message (m : MessageDTO) : list ValidationError :=
  check "senderId" (uuid_constraints (senderId m)) ++
  check "receiverId" (uuid_constraints (receiverId m)) ++
  check "content" (if decide (msg_content m = "") then ["isNotEmpty"] else []).

(** [@MaxLength] counts characters as validator.js's [isLength] does: the
    UTF-16 length less one per surrogate pair and per presentation selector
    (U+FE0E, U+FE0F), that is, the code points that are not such a selector.
    A string here is the UTF-8 text: a code point starts at each byte that is
    not a continuation byte (10xxxxxx), and the two selectors are the byte
    sequences EF B8 8E and EF B8 8F. *)
Definition is_continuation (c : ascii) : bool :=
  let n := nat_of_ascii c in ((128 <=? n) && (n <? 192))%nat.

Definition starts_presentation_selector (s : string) : bool :=
  match s with
  | String c0 (String c1 (String c2 _)) =>
      ((nat_of_ascii c0 =? 239) && (nat_of_ascii c1 =? 184)
       && ((nat_of_ascii c2 =? 142) || (nat_of_ascii c2 =? 143)))%nat
  | _ => false
  end.

Fixpoint char_length (s : string) : nat :=
  match s with
  | EmptyString => 0%nat
  | String c s' =>
      if is_continuation c || starts_presentation_selector s
      then char_length s'
      else S (char_length s')
  end.

(** [PostContentDTO]: a content and optional image names. *)
Record PostContentDTO := {
  pc_content : string;
  pc_images : option (list string);
}.

(** [validate] on a [PostContentDTO]: [content] is [@IsNotEmpty()
    @MaxLength(240)]; [images] is [@IsOptional() @ArrayMaxSize(4)
    @MaxLength(100, { each: true })]. *)
Definition validate_post_content (data : PostContentDTO) : list ValidationError :=
  check "content"
    ((if decide (pc_content data = "") then ["isNotEmpty"] else []) ++
     (if (240 <? char_length (pc_content data))%nat then ["maxLength"] else [])) ++
  match pc_images data with
  | None => []
  | Some images =>
      check "images"
        ((if (4 <? length images)%nat then ["arrayMaxSize"] else []) ++
         (if forallb (fun image => (char_length image <=? 100)%nat) images
          then [] else ["maxLength"]))
  end.

(** [validate] on a DTO with one UUID property (GetMessageById, ...). *)
Definition validate_uuid (p v : string) : list ValidationError :=
  check p (uuid_constraints v).

(** [validate] on a [CreateReactionDTO]: the typed [action] always passes
    [@IsEnum]; [postId] and [userId] are UUID properties. *)
Definition validate_create_reaction (userId postId : string) : list ValidationError :=
  validate_uuid_pair "postId" postId "userId" userId.

(** [validate] on a [DeleteReactionDTO]: [postId] is only [@IsString()
    @IsNotEmpty()], [userId] is a UUID property. *)
Definition validate_delete_reaction (userId postId : string) : list ValidationError :=
  check "postId" (if decide (postId = "") then ["isNotEmpty"] else []) ++
  check "userId" (uuid_constraints userId).

(** ** The world: storage, emitted events and external collaborators *)

Inductive Event :=
| RepositoryCall (method : string) (args : list string)
| RoomEmit (rooms : list string) (event : string) (payload : MessageDTO)
| SocketEmit (socketId : string) (event : string) (errorMessage : string)
| HttpServerClose.

(** Collaborators outside the process: the UUID generator (the database
    default and [crypto.randomUUID], indexed by the number of draws so far)
    and the S3 request presigner (object key and content type to URL). *)
Record External := {
  randomUUID : nat -> string;
  getSignedUrl : string -> string -> string;
}.

Record World := {
  db : Db;
  trace : list Event;
  draws : nat;
  clock : Z;
  external : External;
}.

(** A computation may read and change the world and either throws or
    returns; what was done before a throw stays done. *)
Definition M (A : Type) : Type := World -> (Exception + A) * World.

#[global] Instance M_ret : MRet M := fun A a w => (inr a, w).

#[global] Instance M_bind : MBind M := fun A B f m w =>
  match m w with
  | (inl e, w') => (inl e, w')
  | (inr a, w') => f a w'
  end.

Definition throw {A : Type} (e : Exception) : M A := fun w => (inl e, w).

Definition try_catch {A : Type} (body : M A) (handler : Exception -> M A) : M A :=
  fun w =>
    match body w with
    | (inl e, w') => handler e w'
    | (inr a, w') => (inr a, w')
    end.

Definition gets {A : Type} (f : World -> A) : M A := fun w => (inr (f w), w).

Definition set_db (d : Db) (w : World) : World :=
  {| db := d; trace := trace w; draws := draws w; clock := clock w; external := external w |}.

Definition record (e : Event) (w : World) : World :=
  {| db := db w; trace := trace w ++ [e]; draws := draws w; clock := clock w; external := external w |}.

Definition emit (e : Event) : M unit := fun w => (inr tt, record e w).

Definition call (method : string) (args : list string) : M unit :=
  emit (RepositoryCall method args).

Definition modify_db (f : Db -> Db) : M unit := fun w => (inr tt, set_db (f (db w)) w).

Definition fresh_uuid : M string := fun w =>
  (inr (randomUUID (external w) (draws w)),
   {| db := db w; trace := trace w; draws := S (draws w); clock := clock w; external := external w |}).

(** The store reads each id text of a [where] clause as a UUID and rejects
    the query (a [PrismaClientKnownRequestError]) when a text does not read
    as one. The model puts no constraint on the ids a database holds, so a
    query that finds a row has read its texts; one that finds nothing is
    rejected when one of its texts does not read as a UUID. *)
Definition invalid_uuid : Exception :=
  JsError "PrismaClientKnownRequestError: Inconsistent column data: Error creating UUID".

Definition by_ids {A : Type} (ids : list string) (found : option A) : M (option A) :=
  match found with
  | Some row => mret (Some row)
  | None => if forallb reads_as_uuid ids then mret None else throw invalid_uuid
  end.

(** A row that points at a row that is not stored is refused by the store
    (a foreign key of the schema). *)
Definition foreign_key_failed (constraint : string) : Exception :=
  JsError ("PrismaClientKnownRequestError: Foreign key constraint failed on the field: "
           +:+ constraint).

(** JavaScript truthiness of an optional string and of an optional number. *)
Definition truthy (s : option string) : bool :=
  match s with
  | Some s => negb (String.eqb s "")
  | None => false
  end.

Definition truthy_num (n : option Z) : bool :=
  match n with
  | Some n => negb (n =? 0)
  | None => false
  end.

(** [a ?? b] *)
Definition nullish {A : Type} (a b : option A) : option A :=
  match a with
  | Some _ => a
  | None => b
  end.

(** ** Prisma [findMany]

    The query is run over a table held as a list of rows: the [where] filter,
    the [orderBy] array (a stable sort, so rows that compare equal keep the
    table's order), then [cursor], [skip] and [take]. A cursor names a row by
    primary key and keeps the rows not before it in the ordering; a negative
    [take] scans backwards from the cursor and returns the page in the
    ordering's direction. When [cursor], [take] or a positive [skip] is given
    and the query has no [orderBy], the query engine orders by the primary
    key. *)

Inductive SortOrder := asc | desc.

Section FindMany.
Context {A F : Type}.
Variable rid : A -> string.
Variable compare_on : F -> A -> A -> comparison.
Variable pk : F.

Definition key_compare (k : F * SortOrder) (a b : A) : comparison :=
  match k.2 with
  | asc => compare_on k.1 a b
  | desc => CompOpp (compare_on k.1 a b)
  end.

Fixpoint order_compare (o : list (F * SortOrder)) (a b : A) : comparison :=
  match o with
  | [] => Eq
  | k :: o' =>
      match key_compare k a b with
      | Eq => order_compare o' a b
      | c => c
      end
  end.

(** [a] is not after [b]. *)
Definition precedes (o : list (F * SortOrder)) (a b : A) : bool :=
  match order_compare o a b with
  | Gt => false
  | _ => true
  end.

Fixpoint insert_row (o : list (F * SortOrder)) (x : A) (l : list A) : list A :=
  match l with
  | [] => [x]
  | y :: l' => if precedes o x y then x :: y :: l' else y :: insert_row o x l'
  end.

Definition sort_rows (o : list (F * SortOrder)) (l : list A) : list A :=
  foldr (insert_row o) [] l.

Record FindManyArgs := {
  q_where : A -> bool;
  q_orderBy : list (F * SortOrder);
  q_cursor : option string;
  q_skip : option nat;
  q_take : option Z;
}.

Definition finalize_order (q : FindManyArgs) : list (F * SortOrder) :=
  match q_orderBy q with
  | [] =>
      if bool_decide (is_Some (q_cursor q)) || bool_decide (is_Some (q_take q))
         || bool_decide (0 < default 0 (q_skip q))%nat
      then [(pk, asc)]
      else []
  | o => o
  end.

Definition backwards (q : FindManyArgs) : bool :=
  match q_take q with
  | Some n => n <? 0
  | None => false
  end.

Definition from_cursor (q : FindManyArgs) (table scan : list A) : list A :=
  match q_cursor q with
  | None => scan
  | Some c =>
      match List.find (fun r => String.eqb (rid r) c) table with
      | None => []
      | Some cr =>
          List.filter
            (fun r => if backwards q then precedes (finalize_order q) r cr
                      else precedes (finalize_order q) cr r)
            scan
      end
  end.

Definition findMany (table : list A) (q : FindManyArgs) : list A :=
  let ordered := sort_rows (finalize_order q) (List.filter (q_where q) table) in
  let scan := if backwards q then rev ordered else ordered in
  let rest := drop (default 0%nat (q_skip q)) (from_cursor q table scan) in
  let page := match q_take q with
              | Some n => firstn (Z.abs_nat n) rest
              | None => rest
              end in
  if backwards q then rev page else page.

Definition findFirst (table : list A) (p : A -> bool) : option A := List.find p table.

Definition findUnique (table : list A) (id : string) : option A :=
  List.find (fun r => String.eqb (rid r) id) table.
End FindMany.

Arguments FindManyArgs : clear implicits.
Arguments findMany : simpl never.
Arguments findFirst : simpl never.
Arguments findUnique : simpl never.

(** Sortable fields of the [Post] model. *)
Inductive PostField := Post_id | Post_createdAt.

Definition post_compare_on (f : PostField) (a b : Post) : comparison :=
  match f with
  | Post_id => String.compare (post_id a) (post_id b)
  | Post_createdAt => Z.compare (createdAt a) (createdAt b)
  end.

Definition post_findMany : list Post -> FindManyArgs Post PostField -> list Post :=
  findMany post_id post_compare_on Post_id.

(** Sortable fields of the [Message] model. *)
Inductive MessageField := Message_id | Message_createdAt.

Definition message_compare_on (f : MessageField) (a b : Message) : comparison :=
  match f with
  | Message_id => String.compare (message_id a) (message_id b)
  | Message_createdAt => Z.compare (message_createdAt a) (message_createdAt b)
  end.

Definition message_findMany : list Message -> FindManyArgs Message MessageField -> list Message :=
  findMany message_id message_compare_on Message_id.

(** [CursorPagination] ([@types]). A [limit] is an integer; the [NaN] the
    controller passes when the query has no limit is falsy like a missing one
    and is [None] here. *)
Record CursorPagination := {
  limit : option Z;
  before : option string;
  after : option string;
}.

(** [cursor: options.after ? { id: options.after } : options.before ? { id: options.before } : undefined] *)
Definition cursor_of (options : CursorPagination) : option string :=
  if truthy (after options) then after options
  else if truthy (before options) then before options
  else None.

(** [skip: options.after ?? options.before ? 1 : undefined] *)
Definition skip_of (options : CursorPagination) : option nat :=
  if truthy (nullish (after options) (before options)) then Some 1%nat else None.

(** [take: options.limit ? (options.before ? -options.limit : options.limit) : undefined] *)
Definition take_of (options : CursorPagination) : option Z :=
  if truthy_num (limit options)
  then (if truthy (before options) then Z.opp <$> limit options else limit options)
  else None.

(** ** DTOs *)

Module PostDTO.
Record t := {
  id : string;
  authorId : string;
  content : string;
  images : list string;
  createdAt : Z;
}.

Definition set_images (post : t) (imgs : list string) : t :=
  {| id := id post; authorId := authorId post; content := content post;
     images := imgs; createdAt := createdAt post |}.
End PostDTO.

(** [new PostDTO(post)] on a row of the table. *)
Definition PostDTO_new (post : Post) : PostDTO.t :=
  {| PostDTO.id := post_id post; PostDTO.authorId := authorId post;
     PostDTO.content := content post; PostDTO.images := images post;
     PostDTO.createdAt := createdAt post |}.

(** [CommentDTO extends PostDTO] with [parentPostId]: every column of the row. *)
Module CommentDTO.
Definition t := Post.
Definition new (comment : Post) : t := comment.
End CommentDTO.

(** [ExtendedPostDTO extends PostDTO]: the base record, the joined author (whose
    id is the post's [authorId]) and the aggregate counts. *)
Module ExtendedPostDTO.
Record t := {
  base : PostDTO.t;
  author : option User;
  qtyComments : nat;
  qtyLikes : nat;
  qtyRetweets : nat;
  reactions : list Reaction;
}.

Definition set_images (post : t) (imgs : list string) : t :=
  {| base := PostDTO.set_images (base post) imgs; author := author post;
     qtyComments := qtyComments post; qtyLikes := qtyLikes post;
     qtyRetweets := qtyRetweets post; reactions := reactions post |}.

Definition set_author (post : t) (a : option User) : t :=
  {| base := base post; author := a;
     qtyComments := qtyComments post; qtyLikes := qtyLikes post;
     qtyRetweets := qtyRetweets post; reactions := reactions post |}.
End ExtendedPostDTO.

Record CreatePostDTO := {
  cp_userId : string;
  cp_content : string;
  cp_images : option (list string);
}.

Record PreSignedUrl := {
  signedUrl : string;
  key : string;
}.

(** The joins of [include: { author: true, reactions: true, comments: true }]
    and the counts computed from them. *)
Definition post_reactions (d : Db) (post : Post) : list Reaction :=
  List.filter (fun r => String.eqb (reaction_postId r) (post_id post)) (reactions d).

Definition post_comments (d : Db) (post : Post) : list Post :=
  List.filter (fun c => bool_decide (parentPostId c = Some (post_id post))) (posts d).

Definition extend_post (d : Db) (post : Post) : ExtendedPostDTO.t :=
  let rs := post_reactions d post in
  {| ExtendedPostDTO.base := PostDTO_new post;
     ExtendedPostDTO.author := users d !! authorId post;
     ExtendedPostDTO.qtyComments := length (post_comments d post);
     ExtendedPostDTO.qtyLikes := length (List.filter (fun r => bool_decide (action r = LIKE)) rs);
     ExtendedPostDTO.qtyRetweets := length (List.filter (fun r => bool_decide (action r = RETWEET)) rs);
     ExtendedPostDTO.reactions := rs |}.

(** ** Repositories *)

Definition same_follow (followerID followedID : string) (f : Follow) : bool :=
  String.eqb (followerId f) followerID && String.eqb (followedId f) followedID.

Module UserRepositoryImpl.
Definition isUserPublicOrFollowed (followerID followedID : string) : M bool :=
  call "UserRepository.isUserPublicOrFollowed" [followerID; followedID];;
  author ← gets (fun w => users (db w) !! followedID);
  author ← by_ids [followedID] author;
  match author with
  | None => mret false
  | Some author =>
      if decide (visibility author = PUBLIC) then mret true
      else if decide (visibility author = HIDDEN) then mret false
      else
        follow ← gets (fun w => findFirst (follows (db w)) (same_follow followerID followedID));
        follow ← by_ids [followerID; followedID] follow;
        mret (bool_decide (is_Some follow))
  end.

Definition isUserFollowed (followerId followedId : string) : M bool :=
  call "UserRepository.isUserFollowed" [followerId; followedId];;
  otherUser ← gets (fun w => users (db w) !! followedId);
  otherUser ← by_ids [followedId] otherUser;
  match otherUser with
  | None => mret false
  | Some _ =>
      follow ← gets (fun w => findFirst (follows (db w)) (same_follow followerId followedId));
      follow ← by_ids [followerId; followedId] follow;
      mret (bool_decide (is_Some follow))
  end.

Definition checkIfUserExists (userId : string) : M bool :=
  call "UserRepository.checkIfUserExists" [userId];;
  user ← gets (fun w => users (db w) !! userId);
  user ← by_ids [userId] user;
  mret (bool_decide (is_Some user)).
End UserRepositoryImpl.

Module FollowerRepositoryImpl.
Definition create (followerId followedId : string) : M Follow :=
  call "FollowerRepository.create" [followerId; followedId];;
  id ← fresh_uuid;
  now ← gets clock;
  let follow := {| follow_id := id; followerId := followerId; followedId := followedId;
                   follow_createdAt := now |} in
  modify_db (fun d => {| users := users d; follows := follows d ++ [follow]; posts := posts d;
                         reactions := reactions d; messages := messages d |});;
  mret follow.

(** [db.follow.delete] rejects when no row has the id. *)
Definition delete (followId : string) : M unit :=
  call "FollowerRepository.delete" [followId];;
  row ← gets (fun w => findUnique follow_id (follows (db w)) followId);
  match row with
  | None => throw (JsError "Record to delete does not exist.")
  | Some _ =>
      modify_db (fun d =>
        {| users := users d;
           follows := List.filter (fun f => negb (String.eqb (follow_id f) followId)) (follows d);
           posts := posts d; reactions := reactions d; messages := messages d |})
  end.

Definition getById (followerId followedId : string) : M (option Follow) :=
  call "FollowerRepository.getById" [followerId; followedId];;
  follow ← gets (fun w => findFirst (follows (db w)) (same_follow followerId followedId));
  by_ids [followerId; followedId] follow.

Definition getAllFollows : M (list Follow) :=
  call "FollowerRepository.getAllFollows" [];;
  gets (fun w => follows (db w)).

Definition userExists (userId : string) : M bool :=
  call "FollowerRepository.userExists" [userId];;
  result ← gets (fun w => users (db w) !! userId);
  result ← by_ids [userId] result;
  mret (bool_decide (is_Some result)).
End FollowerRepositoryImpl.

(** The feed's [where]: posts of PUBLIC authors, or of PRIVATE authors whose
    id is among [followedIds]. *)
Definition feed_where (d : Db) (followedIds : list string) (post : Post) : bool :=
  match users d !! authorId post with
  | Some author =>
      bool_decide (visibility author = PUBLIC)
      || bool_decide (visibility author = PRIVATE)
         && existsb (String.eqb (authorId post)) followedIds
  | None => false
  end.

Definition feed_orderBy : list (PostField * SortOrder) :=
  [(Post_createdAt, desc); (Post_id, asc)].

Module PostRepositoryImpl.
(** [db.post.create]: [authorId] refers to a [User] row (the relation the
    queries below include as [author]), so the store refuses a post whose
    author is not stored. *)
Definition create (postData : CreatePostDTO) : M PostDTO.t :=
  call "PostRepository.create" [cp_userId postData];;
  author ← gets (fun w => users (db w) !! cp_userId postData);
  author ← by_ids [cp_userId postData] author;
  match author with
  | None => throw (foreign_key_failed "Post_authorId_fkey (index)")
  | Some _ =>
      id ← fresh_uuid;
      now ← gets clock;
      let post := {| post_id := id; authorId := cp_userId postData;
                     content := cp_content postData;
                     images := default [] (cp_images postData); createdAt := now;
                     parentPostId := None |} in
      modify_db (fun d => {| users := users d; follows := follows d; posts := posts d ++ [post];
                             reactions := reactions d; messages := messages d |});;
      mret (PostDTO_new post)
  end.

Definition getAllByDatePaginated (userId : string) (options : CursorPagination)
  : M (list ExtendedPostDTO.t) :=
  call "PostRepository.getAllByDatePaginated" [userId];;
  userFollows ← gets (fun w => List.filter (fun f => String.eqb (followerId f) userId) (follows (db w)));
  let followedIds := followedId <$> userFollows in
  posts ← gets (fun w =>
    post_findMany (posts (db w))
      {| q_where := feed_where (db w) followedIds;
         q_orderBy := feed_orderBy;
         q_cursor := cursor_of options;
         q_skip := skip_of options;
         q_take := take_of options |});
  d ← gets db;
  mret (extend_post d <$> posts).

Definition getById (postId : string) : M (option PostDTO.t) :=
  call "PostRepository.getById" [postId];;
  post ← gets (fun w => findUnique post_id (posts (db w)) postId);
  post ← by_ids [postId] post;
  mret (PostDTO_new <$> post).

Definition getByAuthorId (authorId' : string) : M (list ExtendedPostDTO.t) :=
  call "PostRepository.getByAuthorId" [authorId'];;
  posts ← gets (fun w => List.filter (fun p => String.eqb (authorId p) authorId') (posts (db w)));
  d ← gets db;
  mret (extend_post d <$> posts).

(** [db.post.delete] rejects when no row has the id; otherwise the row goes
    and the store applies the schema's referential actions to the rows that
    point at it. The schema is not part of the sources, so what the store
    does to the rest of the database is the parameter [referential]. *)
Section Delete.
Variable referential : string -> Db -> Db.

Definition delete (postId : string) : M unit :=
  call "PostRepository.delete" [postId];;
  row ← gets (fun w => findUnique post_id (posts (db w)) postId);
  match row with
  | None => throw (JsError "Record to delete does not exist.")
  | Some _ =>
      modify_db (fun d =>
        referential postId
          {| users := users d; follows := follows d;
             posts := List.filter (fun p => negb (String.eqb (post_id p) postId)) (posts d);
             reactions := reactions d; messages := messages d |})
  end.
End Delete.
End PostRepositoryImpl.

Module CommentRepositoryImpl.
Definition getAllCommentsFromPost (postId : string) (options : CursorPagination)
  : M (list CommentDTO.t) :=
  call "CommentRepository.getAllCommentsFromPost" [postId];;
  comments ← gets (fun w =>
    post_findMany (posts (db w))
      {| q_where := fun p => bool_decide (parentPostId p = Some postId);
         q_orderBy := [];
         q_cursor := cursor_of options;
         q_skip := skip_of options;
         q_take := take_of options |});
  mret (CommentDTO.new <$> comments).

Definition getAllCommentsFromUser (authorId' : string) : M (list CommentDTO.t) :=
  call "CommentRepository.getAllCommentsFromUser" [authorId'];;
  comments ← gets (fun w =>
    List.filter (fun p => String.eqb (authorId p) authorId'
                          && negb (bool_decide (parentPostId p = None)))
                (posts (db w)));
  mret (CommentDTO.new <$> comments).

Definition getById (postId : string) : M (option CommentDTO.t) :=
  call "CommentRepository.getById" [postId];;
  commentPost ← gets (fun w => findUnique post_id (posts (db w)) postId);
  commentPost ← by_ids [postId] commentPost;
  mret (CommentDTO.new <$> commentPost).

(** The same [db.post.create], with a parent: [authorId] refers to a [User]
    row and [parentPostId] to a [Post] row (the relations the queries include
    as [author] and [comments]). *)
Definition create (authorId' parentPostId' : string) (data : PostContentDTO) : M CommentDTO.t :=
  call "CommentRepository.create" [authorId'; parentPostId'];;
  author ← gets (fun w => users (db w) !! authorId');
  author ← by_ids [authorId'] author;
  parent ← gets (fun w => findUnique post_id (posts (db w)) parentPostId');
  parent ← by_ids [parentPostId'] parent;
  match author, parent with
  | Some _, Some _ =>
      id ← fresh_uuid;
      now ← gets clock;
      let commentPost := {| post_id := id; authorId := authorId'; content := pc_content data;
                            images := default [] (pc_images data); createdAt := now;
                            parentPostId := Some parentPostId' |} in
      modify_db (fun d => {| users := users d; follows := follows d;
                             posts := posts d ++ [commentPost];
                             reactions := reactions d; messages := messages d |});;
      mret (CommentDTO.new commentPost)
  | None, _ => throw (foreign_key_failed "Post_authorId_fkey (index)")
  | _, None => throw (foreign_key_failed "Post_parentPostId_fkey (index)")
  end.

Definition checkIfAuthorExists (authorId' : string) : M bool :=
  call "CommentRepository.checkIfAuthorExists" [authorId'];;
  author ← gets (fun w => users (db w) !! authorId');
  author ← by_ids [authorId'] author;
  mret (bool_decide (is_Some author)).

Definition checkIfParentPostExists (postId : string) : M bool :=
  call "CommentRepository.checkIfParentPostExists" [postId];;
  post ← gets (fun w => findUnique post_id (posts (db w)) postId);
  post ← by_ids [postId] post;
  mret (bool_decide (is_Some post)).

(** The same [db.post.delete] as the post repository's. *)
Definition delete (referential : string -> Db -> Db) (postId : string) : M unit :=
  call "CommentRepository.delete" [postId];;
  row ← gets (fun w => findUnique post_id (posts (db w)) postId);
  match row with
  | None => throw (JsError "Record to delete does not exist.")
  | Some _ =>
      modify_db (fun d =>
        referential postId
          {| users := users d; follows := follows d;
             posts := List.filter (fun p => negb (String.eqb (post_id p) postId)) (posts d);
             reactions := reactions d; messages := messages d |})
  end.
End CommentRepositoryImpl.

Module ReactionRepositoryImpl.
Definition getAllReactionsFromUser (authorId : string) : M (list Reaction) :=
  call "ReactionRepository.getAllReactionsFromUser" [authorId];;
  gets (fun w => List.filter (fun r => String.eqb (reaction_authorId r) authorId) (reactions (db w))).

Definition same_reaction (authorId' postId : string) (reactionAction : ReactionAction)
    (r : Reaction) : bool :=
  String.eqb (reaction_authorId r) authorId' && String.eqb (reaction_postId r) postId
  && bool_decide (action r = reactionAction).

(** [db.reaction.create]: the migration gives [Reaction] the foreign keys
    [Reaction_authorId_fkey] and [Reaction_postId_fkey]. *)
Definition create (userId postId : string) (action' : ReactionAction) : M Reaction :=
  call "ReactionRepository.create" [userId; postId];;
  author ← gets (fun w => users (db w) !! userId);
  author ← by_ids [userId] author;
  post ← gets (fun w => findUnique post_id (posts (db w)) postId);
  post ← by_ids [postId] post;
  match author, post with
  | Some _, Some _ =>
      id ← fresh_uuid;
      let reaction := {| reaction_id := id; reaction_authorId := userId;
                         reaction_postId := postId; action := action' |} in
      modify_db (fun d => {| users := users d; follows := follows d; posts := posts d;
                             reactions := reactions d ++ [reaction]; messages := messages d |});;
      mret reaction
  | None, _ => throw (foreign_key_failed "Reaction_authorId_fkey (index)")
  | _, None => throw (foreign_key_failed "Reaction_postId_fkey (index)")
  end.

Definition delete (authorId' postId : string) (reactionAction : ReactionAction) : M bool :=
  call "ReactionRepository.delete" [authorId'; postId];;
  reactionToDelete ← gets (fun w =>
    findFirst (reactions (db w)) (same_reaction authorId' postId reactionAction));
  reactionToDelete ← by_ids [authorId'; postId] reactionToDelete;
  match reactionToDelete with
  | None => mret false
  | Some reactionToDelete =>
      modify_db (fun d =>
        {| users := users d; follows := follows d; posts := posts d;
           reactions := List.filter
                          (fun r => negb (String.eqb (reaction_id r) (reaction_id reactionToDelete)))
                          (reactions d);
           messages := messages d |});;
      mret true
  end.

Definition checkReactionExists (authorId' postId : string) (reactionAction : ReactionAction)
  : M bool :=
  call "ReactionRepository.checkReactionExists" [authorId'; postId];;
  oldReaction ← gets (fun w =>
    findFirst (reactions (db w)) (same_reaction authorId' postId reactionAction));
  oldReaction ← by_ids [authorId'; postId] oldReaction;
  mret (bool_decide (is_Some oldReaction)).

Definition userExists (userId : string) : M bool :=
  call "ReactionRepository.userExists" [userId];;
  user ← gets (fun w => users (db w) !! userId);
  user ← by_ids [userId] user;
  mret (bool_decide (is_Some user)).

Definition postExists (postId : string) : M bool :=
  call "ReactionRepository.postExists" [postId];;
  post ← gets (fun w => findUnique post_id (posts (db w)) postId);
  post ← by_ids [postId] post;
  mret (bool_decide (is_Some post)).
End ReactionRepositoryImpl.

Module MessageRepositoryImpl.
Definition create (data : MessageDTO) : M MessageDTO :=
  call "MessageRepository.create" [senderId data; receiverId data];;
  id ← fresh_uuid;
  now ← gets clock;
  let row := {| message_id := id; message_data := data; message_createdAt := now |} in
  modify_db (fun d => {| users := users d; follows := follows d; posts := posts d;
                         reactions := reactions d; messages := messages d ++ [row] |});;
  mret data.

(** [db.message.delete] rejects when no row has the id. *)
Definition delete (messageId : string) : M unit :=
  call "MessageRepository.delete" [messageId];;
  row ← gets (fun w => findUnique message_id (messages (db w)) messageId);
  match row with
  | None => throw (JsError "Record to delete does not exist.")
  | Some _ =>
      modify_db (fun d =>
        {| users := users d; follows := follows d; posts := posts d; reactions := reactions d;
           messages := List.filter (fun m => negb (String.eqb (message_id m) messageId))
                                   (messages d) |})
  end.

Definition getAllMessagesFromChatPaginated (sender receiver : string) (options : CursorPagination)
  : M (list MessageDTO) :=
  call "MessageRepository.getAllMessagesFromChatPaginated" [sender; receiver];;
  messages ← gets (fun w =>
    message_findMany (messages (db w))
      {| q_where := fun m => String.eqb (senderId (message_data m)) sender
                             && String.eqb (receiverId (message_data m)) receiver;
         q_orderBy := [(Message_createdAt, asc)];
         q_cursor := cursor_of options;
         q_skip := skip_of options;
         q_take := take_of options |});
  mret (message_data <$> messages).

Definition getMessageById (messageId : string) : M (option MessageDTO) :=
  call "MessageRepository.getMessageById" [messageId];;
  message ← gets (fun w => findUnique message_id (messages (db w)) messageId);
  message ← by_ids [messageId] message;
  mret (message_data <$> message).
End MessageRepositoryImpl.

(** ** S3 helper ([utils/s3Bucket]) *)

(** [image.split('.').pop()]: the text after the last dot, the whole string
    when there is none. *)
Fixpoint last_segment (s acc : string) : string :=
  match s with
  | EmptyString => acc
  | String c s' =>
      if Ascii.eqb c "." then last_segment s' EmptyString
      else last_segment s' (acc +:+ String c EmptyString)
  end.

Definition generatePreSignedUrl (image : string) : M PreSignedUrl :=
  let ext := last_segment image EmptyString in
  if decide (ext = "") then throw (JsError ("Invalid file name: " +:+ image))
  else
    let mimeType := "image/" +:+ ext in
    uuid ← fresh_uuid;
    let key := uuid +:+ "_" +:+ image in
    signedUrl ← gets (fun w => getSignedUrl (external w) image mimeType);
    mret {| signedUrl := signedUrl; key := key |}.

Fixpoint generatePreSignedUrls (images : list string) : M (list PreSignedUrl) :=
  match images with
  | [] => mret []
  | image :: rest =>
      preSignedUrl ← generatePreSignedUrl image;
      preSignedUrls ← generatePreSignedUrls rest;
      mret (preSignedUrl :: preSignedUrls)
  end.

(** ** Services *)

(** [if (errors.length > 0) throw new ValidationException(...)] *)
Definition reject_invalid (errors : list ValidationError) : M unit :=
  match errors with
  | [] => mret tt
  | _ => throw (ValidationException errors)
  end.

(** [for (const x of xs) { ... }] with a body that may replace [x]. *)
Fixpoint for_each {A : Type} (body : A -> M A) (xs : list A) : M (list A) :=
  match xs with
  | [] => mret []
  | x :: rest =>
      x' ← body x;
      rest' ← for_each body rest;
      mret (x' :: rest')
  end.

Module FollowerServiceImpl.
Definition createFollower (followerId followedId : string) : M Follow :=
  reject_invalid (validate_uuid_pair "followedId" followedId "followerId" followerId);;
  if decide (followerId = followedId) then throw (ConflictException (Some "cannot follow itself"))
  else
    followedExist ← FollowerRepositoryImpl.userExists followedId;
    if negb followedExist then throw (NotFoundException (Some "followed does not exists"))
    else
      oldFollow ← FollowerRepositoryImpl.getById followerId followedId;
      match oldFollow with
      | Some _ => throw (ConflictException (Some "follow already exist"))
      | None => FollowerRepositoryImpl.create followerId followedId
      end.

Definition deleteFollower (followerId followedId : string) : M unit :=
  reject_invalid (validate_uuid_pair "follower" followerId "follow" followedId);;
  follow ← FollowerRepositoryImpl.getById followerId followedId;
  match follow with
  | None => throw (NotFoundException (Some "follow"))
  | Some follow => FollowerRepositoryImpl.delete (follow_id follow)
  end.

Definition getFollow (followerId followId : string) : M Follow :=
  reject_invalid (validate_uuid_pair "follower" followerId "follow" followId);;
  follow ← FollowerRepositoryImpl.getById followerId followId;
  match follow with
  | None => throw (NotFoundException (Some "follow"))
  | Some follow => mret follow
  end.

Definition getAllFollows : M (list Follow) :=
  follows ← FollowerRepositoryImpl.getAllFollows;
  match follows with
  | [] => throw (NotFoundException (Some "follows"))
  | _ => mret follows
  end.
End FollowerServiceImpl.

Module PostServiceImpl.
Definition createPost (userId content : string) (images : option (list string)) : M PostDTO.t :=
  let data := {| cp_userId := userId; cp_content := content; cp_images := images |} in
  data ←
    match cp_images data with
    | Some (image :: rest) =>
        urls ← generatePreSignedUrls (image :: rest);
        mret {| cp_userId := userId; cp_content := content;
                cp_images := Some (signedUrl <$> urls) |}
    | _ => mret data
    end;
  PostRepositoryImpl.create data.

(** The body of the loops over fetched posts: sign the images, then the
    author's profile picture. [strict] is [post.author.profilePicture]
    (a missing author is a TypeError), otherwise
    [post?.author?.profilePicture]. *)
Definition sign_post (strict : bool) (post : ExtendedPostDTO.t) : M ExtendedPostDTO.t :=
  post ←
    match PostDTO.images (ExtendedPostDTO.base post) with
    | [] => mret post
    | imgs =>
        preSignedUrls ← generatePreSignedUrls imgs;
        mret (ExtendedPostDTO.set_images post (signedUrl <$> preSignedUrls))
    end;
  match ExtendedPostDTO.author post with
  | None =>
      if strict then throw (JsError "Cannot read properties of undefined (reading 'profilePicture')")
      else mret post
  | Some a =>
      if truthy (profilePicture a) then
        preSignedUrl ← generatePreSignedUrl (default "" (profilePicture a));
        mret (ExtendedPostDTO.set_author post
                (Some {| username := username a; name := name a;
                         profilePicture := Some (signedUrl preSignedUrl);
                         visibility := visibility a |}))
      else mret post
  end.

Definition getLatestPosts (userId : string) (options : CursorPagination)
  : M (list ExtendedPostDTO.t) :=
  posts ← PostRepositoryImpl.getAllByDatePaginated userId options;
  match posts with
  | [] => throw (NotFoundException (Some "posts"))
  | _ => for_each (sign_post true) posts
  end.

Definition getPostsByAuthor (userId authorId : string) : M (list ExtendedPostDTO.t) :=
  reject_invalid (validate_uuid_pair "userId" userId "authorId" authorId);;
  result ← UserRepositoryImpl.isUserPublicOrFollowed userId authorId;
  if negb result then throw InvalidUserException
  else
    posts ← PostRepositoryImpl.getByAuthorId authorId;
    match posts with
    | [] => throw (NotFoundException (Some "authors"))
    | _ => for_each (sign_post false) posts
    end.

Definition deletePost (referential : string -> Db -> Db) (userId postId : string) : M unit :=
  reject_invalid (validate_uuid_pair "userId" userId "postId" postId);;
  post ← PostRepositoryImpl.getById postId;
  match post with
  | None => throw (NotFoundException (Some "post"))
  | Some post =>
      if decide (PostDTO.authorId post = userId)
      then PostRepositoryImpl.delete referential postId
      else throw ForbiddenException
  end.

Definition getPost (userId postId : string) : M PostDTO.t :=
  reject_invalid (validate_uuid_pair "userId" userId "postId" postId);;
  post ← PostRepositoryImpl.getById postId;
  match post with
  | None => throw (NotFoundException (Some "post"))
  | Some post =>
      result ← UserRepositoryImpl.isUserPublicOrFollowed userId (PostDTO.authorId post);
      if negb result then throw InvalidUserException
      else
        match PostDTO.images post with
        | [] => mret post
        | imgs =>
            preSignedUrls ← generatePreSignedUrls imgs;
            mret (PostDTO.set_images post (signedUrl <$> preSignedUrls))
        end
  end.
End PostServiceImpl.

(** The route [POST /post] ([post.controller]). *)
Module PostController.
(** Modelled from the spec: the [BodyValidation] middleware of [@utils],
    whose code is not among the sources; only its uses on the routes are. It
    checks the request body against the DTO's field constraints and, when
    any is violated, fails with a validation error listing the violations
    (the route documents the 400 response); otherwise the handler runs. *)
Definition BodyValidation {A : Type} (validate : A -> list ValidationError) (body : A) : M unit :=
  reject_invalid (validate body).

(** [postRouter.post('/', BodyValidation(PostContentDTO), handler)]: [userId]
    is the authenticated user of [res.locals.context]; what the handler
    catches it hands to the error middleware. *)
Definition post (userId : string) (body : PostContentDTO) : M PostDTO.t :=
  BodyValidation validate_post_content body;;
  PostServiceImpl.createPost userId (pc_content body) (pc_images body).
End PostController.

(** [OffsetPagination] (type); the comment service hands it to a repository
    that reads [limit], [before] and [after]. *)
Record OffsetPagination := {
  o_limit : option Z;
  o_skip : option Z;
}.

Definition as_cursor_pagination (options : OffsetPagination) : CursorPagination :=
  {| limit := o_limit options; before := None; after := None |}.

Module CommentServiceImpl.
Definition getComment (userId postId : string) : M CommentDTO.t :=
  reject_invalid (validate_uuid_pair "userId" userId "postId" postId);;
  comment ← CommentRepositoryImpl.getById postId;
  match comment with
  | None => throw (NotFoundException (Some "comment"))
  | Some comment =>
      match parentPostId comment with
      | None => throw (NotFoundException (Some "this is not a comment"))
      | Some _ =>
          result ← UserRepositoryImpl.isUserPublicOrFollowed userId (authorId comment);
          if negb result then throw InvalidUserException
          else mret comment
      end
  end.

Definition getAllCommentsFromUser (userId authorId : string) : M (list CommentDTO.t) :=
  reject_invalid (validate_uuid_pair "userId" userId "authorId" authorId);;
  result ← UserRepositoryImpl.isUserPublicOrFollowed userId authorId;
  if negb result then throw InvalidUserException
  else
    comments ← CommentRepositoryImpl.getAllCommentsFromUser authorId;
    match comments with
    | [] => throw (NotFoundException (Some "comments"))
    | _ => mret comments
    end.

Definition getAllCommentsFromPostPaginated (userId postId : string) (options : OffsetPagination)
  : M (list CommentDTO.t) :=
  reject_invalid (validate_uuid_pair "userId" userId "postId" postId);;
  post ← CommentRepositoryImpl.getById postId;
  match post with
  | None => throw (NotFoundException (Some "post"))
  | Some post =>
      result ← UserRepositoryImpl.isUserPublicOrFollowed userId (authorId post);
      if negb result then throw InvalidUserException
      else
        comments ← CommentRepositoryImpl.getAllCommentsFromPost postId (as_cursor_pagination options);
        match comments with
        | [] => throw (NotFoundException (Some "no comments found"))
        | _ => mret comments
        end
  end.

Definition createComment (userId parentPostId' : string) (data : PostContentDTO)
  : M CommentDTO.t :=
  reject_invalid (validate_post_content data);;
  authorExists ← CommentRepositoryImpl.checkIfAuthorExists userId;
  if negb authorExists then throw (NotFoundException (Some "user does not exists"))
  else
    parentExists ← CommentRepositoryImpl.checkIfParentPostExists parentPostId';
    if negb parentExists then throw (NotFoundException (Some "post does not exists"))
    else CommentRepositoryImpl.create userId parentPostId' data.

Definition deleteComment (referential : string -> Db -> Db) (userId postId : string) : M unit :=
  reject_invalid (validate_uuid_pair "userId" userId "postId" postId);;
  comment ← CommentRepositoryImpl.getById postId;
  match comment with
  | None => throw (NotFoundException (Some "comment"))
  | Some comment =>
      if decide (authorId comment = userId)
      then CommentRepositoryImpl.delete referential postId
      else throw ForbiddenException
  end.
End CommentServiceImpl.

Module ReactionServiceImpl.
Definition getReactionsFromUser (userId authorId : string) : M (list Reaction) :=
  reject_invalid (validate_uuid_pair "userId" userId "authorId" authorId);;
  result ← UserRepositoryImpl.isUserPublicOrFollowed userId authorId;
  if negb result then throw ForbiddenException
  else
    reactions ← ReactionRepositoryImpl.getAllReactionsFromUser authorId;
    match reactions with
    | [] => throw (NotFoundException (Some "reactions"))
    | _ => mret reactions
    end.

Definition createReaction (userId postId : string) (action' : ReactionAction) : M Reaction :=
  reject_invalid (validate_create_reaction userId postId);;
  postExists ← ReactionRepositoryImpl.postExists postId;
  if negb postExists then throw (NotFoundException (Some "post not found"))
  else
    userExists ← ReactionRepositoryImpl.userExists userId;
    if negb userExists then throw (NotFoundException (Some "user not found"))
    else
      exists_ ← ReactionRepositoryImpl.checkReactionExists userId postId action';
      if (exists_ : bool) then throw (ConflictException (Some "reaction already Exists"))
      else ReactionRepositoryImpl.create userId postId action'.

Definition deleteReaction (userId postId : string) (action' : ReactionAction) : M unit :=
  reject_invalid (validate_delete_reaction userId postId);;
  postExists ← ReactionRepositoryImpl.postExists postId;
  if negb postExists then throw (NotFoundException (Some "post not found"))
  else
    userExists ← ReactionRepositoryImpl.userExists userId;
    if negb userExists then throw (NotFoundException (Some "user not found"))
    else
      exists_ ← ReactionRepositoryImpl.checkReactionExists userId postId action';
      if negb exists_ then throw (ConflictException (Some "reaction does not Exists"))
      else ReactionRepositoryImpl.delete userId postId action';; mret tt.
End ReactionServiceImpl.

Module UserServiceImpl.
Definition isUserFollowed (followerID followedID : string) : M bool :=
  if negb (isUUID followerID) || negb (isUUID followedID) then mret false
  else if decide (followerID = followedID) then mret true
  else
    follow ← UserRepositoryImpl.isUserFollowed followerID followedID;
    if negb follow then mret false else mret true.

Definition checkIfUserExists (userId : string) : M bool :=
  if negb (isUUID userId) then mret false
  else UserRepositoryImpl.checkIfUserExists userId.
End UserServiceImpl.

Module MessageServiceImpl.
Definition create (message : MessageDTO) : M MessageDTO :=
  reject_invalid (validate_message message);;
  MessageRepositoryImpl.create message.

Definition delete (sender messageId : string) : M unit :=
  reject_invalid (validate_uuid_pair "senderId" sender "messageId" messageId);;
  message ← MessageRepositoryImpl.getMessageById messageId;
  match message with
  | None => throw (NotFoundException (Some "message"))
  | Some message =>
      if decide (senderId message = sender)
      then MessageRepositoryImpl.delete messageId
      else throw ForbiddenException
  end.

Definition getAllMessagesFromChatPaginated (sender receiver : string) (options : CursorPagination)
  : M (list MessageDTO) :=
  reject_invalid (validate_uuid_pair "senderId" sender "receiverId" receiver);;
  result ← UserRepositoryImpl.isUserFollowed sender receiver;
  if negb result then throw InvalidUserException
  else
    messages ← MessageRepositoryImpl.getAllMessagesFromChatPaginated sender receiver options;
    match messages with
    | [] => throw (NotFoundException (Some "messages"))
    | _ => mret messages
    end.

Definition getMessageById (messageId : string) : M MessageDTO :=
  reject_invalid (validate_uuid "messageId" messageId);;
  message ← MessageRepositoryImpl.getMessageById messageId;
  match message with
  | None => throw (NotFoundException (Some "message"))
  | Some message => mret message
  end.
End MessageServiceImpl.

(** ** Realtime relay ([utils/socketIoServer]) *)

Module SocketIoServer.
(** The body of the ['message'] handler of a connected socket, once the
    payload is taken apart: [socketId] is the socket, [senderId] its
    [socket.data.userId]. *)
Definition onMessage (socketId senderId : string) (receiverId content : string) : M unit :=
  try_catch
    (exists_ ← UserServiceImpl.checkIfUserExists receiverId;
     if (exists_ : bool) then
       followed ← UserServiceImpl.isUserFollowed senderId receiverId;
       if (followed : bool) then
         let payload := {| senderId := senderId; receiverId := receiverId;
                           msg_content := content |} in
         emit (RoomEmit [receiverId; senderId] "message" payload);;
         MessageServiceImpl.create payload;;
         mret tt
       else throw ForbiddenException
     else throw (NotFoundException (Some "user not found")))
    (fun error =>
       match error with
       | ForbiddenException | NotFoundException _ =>
           emit (SocketEmit socketId "error" (message error))
       | _ => emit (SocketEmit socketId "error" "Internal server error")
       end).

(** [socket.on('message', async ({ receiverId, content }) => { try ... })]:
    the parameter is taken apart before the [try], so a payload that is
    missing ([undefined] or [null]) makes the handler throw a TypeError
    (its promise is rejected) instead of emitting an ['error']. A payload is
    given here by its two fields when they are strings. *)
Definition message_handler (socketId senderId : string) (payload : option (string * string))
  : M unit :=
  match payload with
  | None => throw (JsError "TypeError: Cannot destructure property 'receiverId'")
  | Some (receiverId, content) => onMessage socketId senderId receiverId content
  end.

Definition closeServerConnection : M unit := emit HttpServerClose.
End SocketIoServer.

(** ** Sample data *)

Module Sample.
Definition alice := "00000000-0000-4000-8000-00000000000a".
Definition bob := "00000000-0000-4000-8000-00000000000b".
Definition carol := "00000000-0000-4000-8000-00000000000c".
Definition dave := "00000000-0000-4000-8000-00000000000d".

Definition p1 := "10000000-0000-4000-8000-000000000001".
Definition p2 := "10000000-0000-4000-8000-000000000002".
Definition p3 := "10000000-0000-4000-8000-000000000003".
Definition p4 := "10000000-0000-4000-8000-000000000004".

Definition mkUser (n : string) (v : Visibility) : User :=
  {| username := n; name := None; profilePicture := None; visibility := v |}.

Definition mkPost (i a : string) (t : Z) (parent : option string) : Post :=
  {| post_id := i; authorId := a; content := "hola"; images := [];
     createdAt := t; parentPostId := parent |}.

(** alice is PUBLIC, bob PRIVATE, carol HIDDEN; only dave follows bob. *)
Definition people : gmap string User :=
  <[alice := mkUser "alice" PUBLIC]>
    (<[bob := mkUser "bob" PRIVATE]>
       (<[carol := mkUser "carol" HIDDEN]>
          (<[dave := mkUser "dave" PUBLIC]> ∅))).

Definition dave_follows_bob : Follow :=
  {| follow_id := "30000000-0000-4000-8000-000000000001"; followerId := dave;
     followedId := bob; follow_createdAt := 5 |}.

(** Two top-level posts of alice and two comments on the first, stored in
    the order they were written. *)
Definition timeline : list Post :=
  [mkPost p1 alice 10 None; mkPost p2 alice 20 None;
   mkPost p3 alice 20 (Some p1); mkPost p4 alice 30 (Some p1)].

Definition db0 : Db :=
  {| users := people; follows := [dave_follows_bob]; posts := timeline;
     reactions := []; messages := [] |}.

Definition ext0 : External :=
  {| randomUUID := fun n =>
       "20000000-0000-4000-8000-0000000000" +:+
       String (ascii_of_nat (48 + n / 10)) (String (ascii_of_nat (48 + n mod 10)) EmptyString);
     getSignedUrl := fun k _ => "https://bucket.s3/" +:+ k |}.

Definition w0 : World :=
  {| db := db0; trace := []; draws := 0; clock := 100; external := ext0 |}.


End Sample.

(** ** Vocabulary of the properties *)

(** An edge (follower -> followed) is stored. *)
Definition follows_edge (d : Db) (follower followed : string) : Prop :=
  exists f, f ∈ follows d /\ followerId f = follower /\ followedId f = followed.

(** The posts a viewer's feed draws from: posts of PUBLIC authors and of
    PRIVATE authors the viewer follows. *)
Definition qualifying_posts (d : Db) (viewer : string) : list Post :=
  List.filter
    (feed_where d (followedId <$> List.filter (fun f => String.eqb (followerId f) viewer) (follows d)))
    (posts d).

(** [r] comes strictly after the row [x] in the order (createdAt descending,
    id ascending): it is older, or as old with a greater id. *)
Definition strictly_after (x : Post) (r : PostDTO.t) : Prop :=
  PostDTO.createdAt r < createdAt x \/
  (PostDTO.createdAt r = createdAt x /\ String.ltb (post_id x) (PostDTO.id r) = true).


(** The ids of a page of posts, or the exception. *)
Definition page_ids (r : Exception + list ExtendedPostDTO.t) : Exception + list string :=
  match r with
  | inl e => inl e
  | inr page => inr (map (fun post => PostDTO.id (ExtendedPostDTO.base post)) page)
  end.

(** Run a computation as far as the known values allow. *)
Ltac run :=
  repeat (progress (unfold mbind, M_bind, mret, M_ret, throw, gets, call, emit, modify_db, by_ids;
                    cbn)).

(** The pairs (follower, followed) of the stored edges. *)
Definition follow_pairs (d : Db) : list (string * string) :=
  (fun f => (followerId f, followedId f)) <$> follows d.

(** The data model's invariant of the follow table: no self-loop, and at
    most one edge per ordered pair. *)
Definition follow_graph_ok (d : Db) : Prop :=
  (forall f, f ∈ follows d -> followerId f <> followedId f) /\ NoDup (follow_pairs d).

(** The edge [createFollower] stores. *)
Definition new_follow (a b : string) (w : World) : Follow :=
  {| follow_id := randomUUID (external w) (draws w); followerId := a; followedId := b;
     follow_createdAt := clock w |}.

(** The value the visibility resolver computes from the database. *)
Definition can_view (d : Db) (viewer author : string) : bool :=
  match users d !! author with
  | Some u =>
      match visibility u with
      | PUBLIC => true
      | PRIVATE => bool_decide (is_Some (findFirst (follows d) (same_follow viewer author)))
      | HIDDEN => false
      end
  | None => false
  end.

(** [r1] is not after [r2] in the order (createdAt descending, id
    ascending). *)
Definition not_after (r1 r2 : PostDTO.t) : Prop :=
  PostDTO.createdAt r2 < PostDTO.createdAt r1 \/
  (PostDTO.createdAt r1 = PostDTO.createdAt r2
   /\ String.leb (PostDTO.id r1) (PostDTO.id r2) = true).

(** [r] comes strictly before the row [x] in that order: it is newer, or as
    old with a smaller id. *)
Definition strictly_before (x : Post) (r : PostDTO.t) : Prop :=
  createdAt x < PostDTO.createdAt r \/
  (PostDTO.createdAt r = createdAt x /\ String.ltb (PostDTO.id r) (post_id x) = true).

(** The last character of a string. *)
Fixpoint last_char (s : string) : option ascii :=
  match s with
  | EmptyString => None
  | String c s' =>
      match last_char s' with
      | None => Some c
      | Some c' => Some c'
      end
  end.

(** An image name the S3 helper accepts: not empty and not ending in a dot. *)
Definition has_extension (image : string) : bool :=
  negb (String.eqb (last_segment image EmptyString) "").

(** The URL the presigner gives for an image name. *)
Definition signed_url (e : External) (image : string) : string :=
  getSignedUrl e image ("image/" +:+ last_segment image EmptyString).

(** A world that differs from [w] only in the number of UUIDs drawn. *)
Definition after_draws (k : nat) (w : World) : World :=
  {| db := db w; trace := trace w; draws := (k + draws w)%nat; clock := clock w;
     external := external w |}.

(** The author of a record with the profile picture, when there is one,
    replaced by its presigned URL. *)
Definition signed_author (e : External) (a : User) : User :=
  if truthy (profilePicture a)
  then {| username := username a; name := name a;
          profilePicture := Some (signed_url e (default "" (profilePicture a)));
          visibility := visibility a |}
  else a.

(** The record [r] as the services return it: each image name replaced by
    its presigned URL, in place, the author's profile picture likewise, and
    every other field (ids, content, date, counts, reactions) as fetched. *)
Definition signed_record (e : External) (r : ExtendedPostDTO.t) : ExtendedPostDTO.t :=
  {| ExtendedPostDTO.base :=
       PostDTO.set_images (ExtendedPostDTO.base r)
         (signed_url e <$> PostDTO.images (ExtendedPostDTO.base r));
     ExtendedPostDTO.author := signed_author e <$> ExtendedPostDTO.author r;
     ExtendedPostDTO.qtyComments := ExtendedPostDTO.qtyComments r;
     ExtendedPostDTO.qtyLikes := ExtendedPostDTO.qtyLikes r;
     ExtendedPostDTO.qtyRetweets := ExtendedPostDTO.qtyRetweets r;
     ExtendedPostDTO.reactions := ExtendedPostDTO.reactions r |}.

(** The database once the row of post [postId] is gone, before the store's
    referential actions. *)
Definition without_post (postId : string) (d : Db) : Db :=
  {| users := users d; follows := follows d;
     posts := List.filter (fun p => negb (String.eqb (post_id p) postId)) (posts d);
     reactions := reactions d; messages := messages d |}.


(** A [PostContentDTO] that breaks none of its constraints: a content of 1 to
    240 characters and, when images are given, at most four names of at most
    100 characters. *)
Definition content_ok (data : PostContentDTO) : Prop :=
  pc_content data <> ""
  /\ (char_length (pc_content data) <= 240)%nat
  /\ forall images, pc_images data = Some images ->
       (length images <= 4)%nat
       /\ forall image, image ∈ images -> (char_length image <= 100)%nat.

(** The row [createComment] stores. *)
Definition new_comment (userId parent : string) (data : PostContentDTO) (w : World) : Post :=
  {| post_id := randomUUID (external w) (draws w); authorId := userId;
     content := pc_content data; images := default [] (pc_images data);
     createdAt := clock w; parentPostId := Some parent |}.

(** A stored reaction of [userId] to [postId] with the given action. *)
Definition reacted (d : Db) (userId postId : string) (a : ReactionAction) : Prop :=
  exists r, r ∈ reactions d /\ reaction_authorId r = userId /\ reaction_postId r = postId
            /\ action r = a.

(** The row [createReaction] stores. *)
Definition new_reaction (userId postId : string) (a : ReactionAction) (w : World) : Reaction :=
  {| reaction_id := randomUUID (external w) (draws w); reaction_authorId := userId;
     reaction_postId := postId; action := a |}.

(** The order of a chat query: by sending time. *)
Definition chat_orderBy : list (MessageField * SortOrder) := [(Message_createdAt, asc)].

(** * Properties *)

(** ** Reading the monad *)

Lemma bind_unfold {A B : Type} (m : M A) (f : A -> M B) (w : World) :
  (m ≫= f) w = match m w with
                | (inl e, w') => (inl e, w')
                | (inr a, w') => f a w'
                end.
Proof. reflexivity. Qed.

Lemma same_follow_true (a b : string) (f : Follow) :
  same_follow a b f = true <-> followerId f = a /\ followedId f = b.
Proof.
  unfold same_follow. rewrite andb_true_iff, !String.eqb_eq. tauto.
Qed.

Lemma findFirst_is_Some {A : Type} (l : list A) (p : A -> bool) :
  is_Some (findFirst l p) <-> exists x, x ∈ l /\ p x = true.
Proof.
  unfold findFirst. split.
  - intros [x Hx]. apply find_some in Hx as [Hin Hp].
    exists x. split; [by apply list_elem_of_In | done].
  - intros (x & Hin & Hp). destruct (List.find p l) eqn:E; [by eexists |].
    apply list_elem_of_In in Hin. by rewrite (find_none _ _ E x Hin) in Hp.
Qed.

Lemma findFirst_follow_edge (d : Db) (a b : string) :
  is_Some (findFirst (follows d) (same_follow a b)) <-> follows_edge d a b.
Proof.
  rewrite findFirst_is_Some. unfold follows_edge.
  split; intros (f & Hin & H); exists f; split; try done; by apply same_follow_true.
Qed.

Lemma is_Some_bool_decide {A : Type} (o : option A) :
  bool_decide (is_Some o) = match o with Some _ => true | None => false end.
Proof.
  destruct o; [apply bool_decide_eq_true; by eexists|].
  apply bool_decide_eq_false. by intros [? ?].
Qed.

(** ** Ids *)

Lemma lower_hex_idem (c : ascii) : lower_hex (lower_hex c) = lower_hex c.
Proof.
  unfold lower_hex.
  destruct ((65 <=? nat_of_ascii c) && (nat_of_ascii c <=? 70))%nat eqn:Hc; [|by rewrite Hc].
  apply andb_true_iff in Hc as [H1 H2]. apply Nat.leb_le in H1, H2.
  rewrite nat_ascii_embedding by lia.
  destruct (65 <=? nat_of_ascii c + 32)%nat eqn:H3; [|done]. cbn.
  destruct (nat_of_ascii c + 32 <=? 70)%nat eqn:H4; [|done].
  apply Nat.leb_le in H4. lia.
Qed.

(** The canonical spelling is canonical. *)
Lemma canon_canonical (s : string) : canonical (canon s).
Proof.
  unfold canonical. induction s as [|c s IH]; cbn; [done|].
  by rewrite lower_hex_idem, IH.
Qed.

(** On canonical spellings, comparing ids as spelled is comparing their
    values. *)
Lemma canonical_same_value (x y : string) :
  canonical x -> canonical y -> (same_value x y <-> x = y).
Proof. unfold canonical, same_value. intros Hx Hy. rewrite Hx, Hy. done. Qed.

(** ** The store's reading of id texts *)

Lemma isUUID_reads (s : string) : isUUID s = true -> reads_as_uuid s = true.
Proof. intros H. unfold reads_as_uuid. by rewrite H. Qed.

(** Rewrite the store's reading of the ids known to be well formed. *)
Ltac read_ids :=
  repeat match goal with
         | H : isUUID ?x = true |- context [reads_as_uuid ?x] =>
             rewrite (isUUID_reads x H)
         end.

Lemma by_ids_uuid {A : Type} (ids : list string) (found : option A) (w : World) :
  forallb isUUID ids = true -> by_ids ids found w = (inr found, w).
Proof.
  intros H. unfold by_ids. destruct found; [done|].
  assert (forallb reads_as_uuid ids = true) as ->; [|done].
  rewrite forallb_forall in *. intros x Hx. by apply isUUID_reads, H.
Qed.

(** The resolver with well-formed ids only reads: it returns what the
    database says and records its call. *)
Lemma isUserPublicOrFollowed_run (viewer author : string) (w : World) :
  isUUID viewer = true -> isUUID author = true ->
  UserRepositoryImpl.isUserPublicOrFollowed viewer author w
  = (inr (can_view (db w) viewer author),
     record (RepositoryCall "UserRepository.isUserPublicOrFollowed" [viewer; author]) w).
Proof.
  intros Hv Ha. unfold UserRepositoryImpl.isUserPublicOrFollowed, can_view. run.
  read_ids. cbn.
  destruct (users (db w) !! author) as [u|]; cbn; [|done].
  destruct (visibility u); [done| |done].
  rewrite !decide_False by done. cbn.
  by destruct (findFirst (follows (db w)) (same_follow viewer author)).
Qed.

(** With any texts, the resolver answers [true] exactly when the database
    says so: a rejected query is not an answer. *)
Lemma isUserPublicOrFollowed_true (viewer author : string) (w : World) :
  (UserRepositoryImpl.isUserPublicOrFollowed viewer author w).1 = inr true
  <-> can_view (db w) viewer author = true.
Proof.
  unfold UserRepositoryImpl.isUserPublicOrFollowed, can_view. run.
  destruct (users (db w) !! author) as [u|]; cbn.
  - destruct (visibility u); [done| |by split].
    rewrite !decide_False by done. cbn.
    destruct (findFirst (follows (db w)) (same_follow viewer author)); cbn.
    + done.
    + destruct (reads_as_uuid viewer && (reads_as_uuid author && true)); cbn; by split.
  - destruct (reads_as_uuid author && true); cbn; by split.
Qed.

(** Whatever its outcome, the resolver only records its call. *)
Lemma isUserPublicOrFollowed_world (viewer author : string) (w : World) :
  (UserRepositoryImpl.isUserPublicOrFollowed viewer author w).2
  = record (RepositoryCall "UserRepository.isUserPublicOrFollowed" [viewer; author]) w.
Proof.
  unfold UserRepositoryImpl.isUserPublicOrFollowed. run.
  destruct (users (db w) !! author) as [u|]; run.
  - destruct (visibility u); [done| |done]. rewrite !decide_False by done. run.
    destruct (findFirst _ _); run; [done|].
    by destruct (reads_as_uuid viewer && _).
  - by destruct (reads_as_uuid author && true).
Qed.

Lemma isUserPublicOrFollowed_returns (viewer author : string) (w : World) :
  isUUID viewer = true -> isUUID author = true ->
  exists b : bool,
    UserRepositoryImpl.isUserPublicOrFollowed viewer author w
    = (inr b, record (RepositoryCall "UserRepository.isUserPublicOrFollowed" [viewer; author]) w).
Proof. intros Hv Ha. eexists. by apply isUserPublicOrFollowed_run. Qed.

(** ** C1: the visibility resolver *)



(** On the sample data: the PRIVATE bob is visible to his follower dave and
    not to alice; the HIDDEN carol is not visible even to herself. *)
Example resolver_on_sample_users :
  (UserRepositoryImpl.isUserPublicOrFollowed Sample.dave Sample.bob Sample.w0).1 = inr true
  /\ (UserRepositoryImpl.isUserPublicOrFollowed Sample.alice Sample.bob Sample.w0).1 = inr false
  /\ (UserRepositoryImpl.isUserPublicOrFollowed Sample.carol Sample.carol Sample.w0).1 = inr false.
Proof. repeat split. Qed.


(** ** Validation gate *)

Lemma isUUID_nonempty (s : string) : isUUID s = true -> s <> "".
Proof. intros H ->. discriminate H. Qed.

Lemma uuid_constraints_valid (s : string) : isUUID s = true -> uuid_constraints s = [].
Proof.
  intros H. unfold uuid_constraints. rewrite H.
  destruct (decide (s = "")) as [E|_]; [|done].
  by apply isUUID_nonempty in H.
Qed.

Lemma validate_uuid_pair_valid (p1 v1 p2 v2 : string) :
  isUUID v1 = true -> isUUID v2 = true -> validate_uuid_pair p1 v1 p2 v2 = [].
Proof.
  intros H1 H2. unfold validate_uuid_pair.
  by rewrite (uuid_constraints_valid _ H1), (uuid_constraints_valid _ H2).
Qed.

(** ** C4: the follow state machine's failures *)

Lemma validate_uuid_pair_nil (p1 v1 p2 v2 : string) :
  validate_uuid_pair p1 v1 p2 v2 = [] -> isUUID v1 = true /\ isUUID v2 = true.
Proof.
  unfold validate_uuid_pair, uuid_constraints, check.
  destruct (isUUID v1), (isUUID v2), (decide (v1 = "")), (decide (v2 = "")); cbn; by intros.
Qed.





(** ** C5: empty lists are NotFound *)





(** ** C6: by-author retrievals check permission first *)

(** C6, as the code has it. For well-formed ids, when the resolver denies the
    viewer, each by-author retrieval fails after the permission check alone
    (the only repository call recorded, so no fetch was attempted):
    posts-by-author and comments-by-author with the "invalid user" error,
    reactions-by-author with the generic Forbidden error. *)
Theorem by_author_denied_before_fetch (viewer author : string) (w : World) :
  isUUID viewer = true -> isUUID author = true ->
  (UserRepositoryImpl.isUserPublicOrFollowed viewer author w).1 = inr false ->
  PostServiceImpl.getPostsByAuthor viewer author w
  = (inl InvalidUserException,
     record (RepositoryCall "UserRepository.isUserPublicOrFollowed" [viewer; author]) w)
  /\ CommentServiceImpl.getAllCommentsFromUser viewer author w
     = (inl InvalidUserException,
        record (RepositoryCall "UserRepository.isUserPublicOrFollowed" [viewer; author]) w)
  /\ ReactionServiceImpl.getReactionsFromUser viewer author w
     = (inl ForbiddenException,
        record (RepositoryCall "UserRepository.isUserPublicOrFollowed" [viewer; author]) w).
Proof.
  intros Hv Ha Hdenied.
  destruct (isUserPublicOrFollowed_returns viewer author w Hv Ha) as (b & Hrun).
  rewrite Hrun in Hdenied. cbn in Hdenied. injection Hdenied as ->.
  unfold PostServiceImpl.getPostsByAuthor, CommentServiceImpl.getAllCommentsFromUser,
    ReactionServiceImpl.getReactionsFromUser.
  rewrite (validate_uuid_pair_valid _ _ _ _ Hv Ha).
  unfold reject_invalid. rewrite !bind_unfold. cbn. rewrite !bind_unfold, Hrun. done.
Qed.

Lemma by_author_denied_before_fetch_witness :
  PostServiceImpl.getPostsByAuthor Sample.alice Sample.bob Sample.w0
  = (inl InvalidUserException,
     record (RepositoryCall "UserRepository.isUserPublicOrFollowed" [Sample.alice; Sample.bob])
            Sample.w0)
  /\ CommentServiceImpl.getAllCommentsFromUser Sample.alice Sample.bob Sample.w0
     = (inl InvalidUserException,
        record (RepositoryCall "UserRepository.isUserPublicOrFollowed" [Sample.alice; Sample.bob])
               Sample.w0)
  /\ ReactionServiceImpl.getReactionsFromUser Sample.alice Sample.bob Sample.w0
     = (inl ForbiddenException,
        record (RepositoryCall "UserRepository.isUserPublicOrFollowed" [Sample.alice; Sample.bob])
               Sample.w0).
Proof.
  apply (by_author_denied_before_fetch Sample.alice Sample.bob Sample.w0); reflexivity.
Defined.

(** C6 as stated fails for reactions-by-author: alice does not follow the
    PRIVATE bob, and asking for bob's reactions raises [ForbiddenException],
    not [InvalidUserException]. *)
Lemma reactions_by_author_denied_is_forbidden :
  (UserRepositoryImpl.isUserPublicOrFollowed Sample.alice Sample.bob Sample.w0).1 = inr false
  /\ (ReactionServiceImpl.getReactionsFromUser Sample.alice Sample.bob Sample.w0).1
     = inl ForbiddenException
  /\ (ReactionServiceImpl.getReactionsFromUser Sample.alice Sample.bob Sample.w0).1
     <> inl InvalidUserException.
Proof. split; [reflexivity | split; [reflexivity | discriminate]]. Qed.

(** ** C10: [getComment] only returns comments *)

(** C10. For well-formed ids, [getComment] on a stored post whose
    [parentPostId] is null fails with NotFound ("this is not a comment")
    right after fetching the post: the fetch is the only repository call
    recorded, so no visibility check was made. And whatever [getComment]
    returns has a parent post, i.e. is a comment. *)
Theorem getComment_rejects_top_level_posts (userId postId : string) (w : World) :
  isUUID userId = true -> isUUID postId = true ->
  (forall post,
     findUnique post_id (posts (db w)) postId = Some post -> parentPostId post = None ->
     CommentServiceImpl.getComment userId postId w
     = (inl (NotFoundException (Some "this is not a comment")),
        record (RepositoryCall "CommentRepository.getById" [postId]) w))
  /\ (forall comment w',
        CommentServiceImpl.getComment userId postId w = (inr comment, w') ->
        is_Some (parentPostId comment)).
Proof.
  intros Hu Hp. unfold CommentServiceImpl.getComment.
  rewrite (validate_uuid_pair_valid _ _ _ _ Hu Hp).
  unfold CommentRepositoryImpl.getById, CommentDTO.new. run.
  split.
  - intros post Hfind Hparent. rewrite Hfind. run. by rewrite Hparent.
  - intros comment w'.
    destruct (findUnique post_id (posts (db w)) postId) as [post|]; run;
      [|read_ids; discriminate].
    destruct (parentPostId post) as [parent|] eqn:Hparent; [|discriminate].
    set (r := UserRepositoryImpl.isUserPublicOrFollowed userId (authorId post) _).
    destruct r as [[e|[|]] w'']; run; try discriminate.
    intros [= <- _]. rewrite Hparent. by eexists.
Qed.

Lemma getComment_rejects_top_level_posts_witness :
  CommentServiceImpl.getComment Sample.bob Sample.p1 Sample.w0
  = (inl (NotFoundException (Some "this is not a comment")),
     record (RepositoryCall "CommentRepository.getById" [Sample.p1]) Sample.w0).
Proof.
  apply (getComment_rejects_top_level_posts Sample.bob Sample.p1 Sample.w0)
    with (post := Sample.mkPost Sample.p1 Sample.alice 10 None); reflexivity.
Defined.

(** ** Ordering of query results *)

Section SortRows.
Context {A F : Type}.
Variable compare_on : F -> A -> A -> comparison.
Variable o : list (F * SortOrder).

Let le (a b : A) : Prop := precedes compare_on o a b = true.

Hypothesis le_total : forall a b, le a b \/ le b a.
Hypothesis le_trans : forall a b c, le a b -> le b c -> le a c.

Lemma insert_row_perm (x : A) (l : list A) :
  Permutation (insert_row compare_on o x l) (x :: l).
Proof.
  induction l as [|y l IH]; cbn; [done|].
  destruct (precedes compare_on o x y); [done|].
  rewrite IH. apply perm_swap.
Qed.

Lemma sort_rows_perm (l : list A) : Permutation (sort_rows compare_on o l) l.
Proof.
  induction l as [|x l IH]; cbn; [done|].
  rewrite insert_row_perm. by constructor.
Qed.

Lemma insert_row_sorted (x : A) (l : list A) :
  StronglySorted le l -> StronglySorted le (insert_row compare_on o x l).
Proof.
  induction 1 as [|y l Hl IH Hy]; cbn.
  - constructor; constructor.
  - destruct (precedes compare_on o x y) eqn:Hxy.
    + constructor; [by constructor|].
      constructor; [exact Hxy|].
      eapply Forall_impl; [exact Hy|]. intros z Hz. by apply (le_trans x y z).
    + constructor; [exact IH|].
      assert (Hyx : le y x).
      { destruct (le_total x y) as [H|H]; [|exact H]. unfold le in H. congruence. }
      rewrite (insert_row_perm x l). by constructor.
Qed.

Lemma sort_rows_sorted (l : list A) : StronglySorted le (sort_rows compare_on o l).
Proof.
  induction l as [|x l IH]; cbn; [constructor|].
  by apply insert_row_sorted.
Qed.
End SortRows.

Lemma elem_of_list_filter_bool {A : Type} (p : A -> bool) (l : list A) (x : A) :
  x ∈ List.filter p l <-> x ∈ l /\ p x = true.
Proof. rewrite !list_elem_of_In. apply filter_In. Qed.

Lemma StronglySorted_list_filter {A : Type} (R : A -> A -> Prop) (p : A -> bool) (l : list A) :
  StronglySorted R l -> StronglySorted R (List.filter p l).
Proof.
  induction 1 as [|x l Hl IH Hx]; cbn; [constructor|].
  destruct (p x); [|exact IH].
  constructor; [exact IH|].
  apply Forall_forall. intros y Hy. apply elem_of_list_filter_bool in Hy as [Hy _].
  by eapply Forall_forall in Hx.
Qed.

(** Rows with distinct primary keys are told apart by the key. *)
Lemma unique_key {A : Type} (key : A -> string) (l : list A) (a b : A) :
  NoDup (key <$> l) -> a ∈ l -> b ∈ l -> key a = key b -> a = b.
Proof.
  induction l as [|x l IH]; cbn; intros Hnd Ha Hb Hk.
  - by apply elem_of_nil in Ha.
  - apply NoDup_cons in Hnd as [Hx Hnd].
    apply elem_of_cons in Ha as [->|Ha]; apply elem_of_cons in Hb as [->|Hb]; try done.
    + exfalso. apply Hx. rewrite Hk. apply list_elem_of_fmap. by exists b.
    + exfalso. apply Hx. rewrite <- Hk. apply list_elem_of_fmap. by exists a.
    + by apply IH.
Qed.

(** The feed's order: newer first, ties by ascending id. *)
Lemma feed_precedes_iff (a b : Post) :
  precedes post_compare_on feed_orderBy a b = true <->
  createdAt b < createdAt a \/
  (createdAt a = createdAt b /\ String.leb (post_id a) (post_id b) = true).
Proof.
  unfold precedes, feed_orderBy, String.leb. cbn.
  destruct (Z.compare_spec (createdAt a) (createdAt b)) as [E|L|G]; cbn;
    [destruct (String.compare (post_id a) (post_id b))| |];
    intuition (try lia; try discriminate).
Qed.

Lemma feed_precedes_total (a b : Post) :
  precedes post_compare_on feed_orderBy a b = true \/
  precedes post_compare_on feed_orderBy b a = true.
Proof.
  rewrite !feed_precedes_iff.
  destruct (Z.lt_total (createdAt a) (createdAt b)) as [H|[H|H]]; [right; left; lia | | left; left; lia].
  destruct (String.leb_total (post_id a) (post_id b)) as [L|L]; [left|right]; right; split; done.
Qed.

Lemma feed_precedes_trans (a b c : Post) :
  precedes post_compare_on feed_orderBy a b = true ->
  precedes post_compare_on feed_orderBy b c = true ->
  precedes post_compare_on feed_orderBy a c = true.
Proof.
  rewrite !feed_precedes_iff. intros [H1|[H1 L1]] [H2|[H2 L2]]; try (left; lia).
  right. split; [lia|].
  apply Is_true_true. apply Is_true_true in L1, L2.
  exact (transitivity (R := String.le) L1 L2).
Qed.

Lemma feed_precedes_antisym (a b : Post) :
  precedes post_compare_on feed_orderBy a b = true ->
  precedes post_compare_on feed_orderBy b a = true ->
  post_id a = post_id b.
Proof.
  rewrite !feed_precedes_iff. intros [H1|[H1 L1]] [H2|[H2 L2]]; try lia.
  by apply String.leb_antisym.
Qed.

Lemma findUnique_stored {A : Type} (key : A -> string) (l : list A) (x : A) :
  NoDup (key <$> l) -> x ∈ l ->
  List.find (fun r => String.eqb (key r) (key x)) l = Some x.
Proof.
  intros Hnd Hx.
  destruct (List.find (fun r => String.eqb (key r) (key x)) l) as [y|] eqn:Hfind.
  - apply find_some in Hfind as [Hy Hk]. apply String.eqb_eq in Hk.
    apply list_elem_of_In in Hy. f_equal. by apply (unique_key key l).
  - apply list_elem_of_In in Hx. pose proof (find_none _ _ Hfind x Hx) as Hk.
    cbn in Hk. by rewrite String.eqb_refl in Hk.
Qed.

(** ** C2: paging after a cursor *)


(** The rows the query keeps after the cursor row [x] and a [skip] of one. *)
Lemma rows_after_cursor (wh : Post -> bool) (table : list Post) (x p : Post) :
  NoDup (post_id <$> table) -> x ∈ table ->
  p ∈ drop 1 (List.filter (precedes post_compare_on feed_orderBy x)
                (sort_rows post_compare_on feed_orderBy (List.filter wh table))) ->
  p ∈ table /\ post_id p <> post_id x /\ precedes post_compare_on feed_orderBy x p = true.
Proof.
  intros Hnd Hx Hp.
  set (sorted := sort_rows post_compare_on feed_orderBy (List.filter wh table)) in *.
  set (kept := List.filter (precedes post_compare_on feed_orderBy x) sorted) in *.
  assert (Hsub : forall y, y ∈ kept ->
            y ∈ table /\ precedes post_compare_on feed_orderBy x y = true).
  { intros y Hy. apply elem_of_list_filter_bool in Hy as [Hy Hle]. split; [|exact Hle].
    unfold sorted in Hy. rewrite sort_rows_perm in Hy.
    by apply elem_of_list_filter_bool in Hy as [Hy _]. }
  assert (Hkept_sorted : StronglySorted
            (fun a b => precedes post_compare_on feed_orderBy a b = true) kept).
  { apply StronglySorted_list_filter, sort_rows_sorted.
    - apply feed_precedes_total.
    - apply feed_precedes_trans. }
  assert (Hkept_nodup : NoDup kept).
  { apply NoDup_ListNoDup, List.NoDup_filter. apply NoDup_ListNoDup.
    unfold sorted. rewrite sort_rows_perm.
    apply NoDup_ListNoDup, List.NoDup_filter. apply NoDup_ListNoDup.
    by apply NoDup_fmap_1 in Hnd. }
  destruct (Hsub p) as [Hpt Hle]; [by eapply subseteq_drop|].
  split; [exact Hpt|]. split; [|exact Hle].
  intros Hid. assert (p = x) as -> by by apply (unique_key post_id table).
  destruct kept as [|h t]; [by apply elem_of_nil in Hp|]. cbn in Hp.
  apply StronglySorted_inv in Hkept_sorted as [_ Hh].
  apply NoDup_cons in Hkept_nodup as [Hht _].
  destruct (Hsub h) as [Hh_table Hxh]; [apply list_elem_of_here|].
  assert (Hhx : precedes post_compare_on feed_orderBy h x = true)
    by by eapply Forall_forall in Hh.
  assert (h = x) as -> by (apply (unique_key post_id table); try done;
                           by apply feed_precedes_antisym).
  done.
Qed.

Lemma precedes_strictly_after (x p : Post) :
  precedes post_compare_on feed_orderBy x p = true ->
  post_id p <> post_id x ->
  strictly_after x (PostDTO_new p).
Proof.
  intros Hle Hne. apply feed_precedes_iff in Hle as [Hlt|[Heq Hleb]]; [by left|].
  right. split; [done|]. cbn. unfold String.leb in Hleb. unfold String.ltb.
  destruct (String.compare (post_id x) (post_id p)) eqn:Hc; try done.
  apply String.compare_eq_iff in Hc. congruence.
Qed.

(** C2. For every stored set of posts (distinct ids) and every stored post
    [x] used as cursor, [getAllByDatePaginated] called with [after] set to
    [x]'s id and no [before] returns, for a positive [limit], at most [limit]
    records; and (for any limit that is absent or not negative) no returned
    record has [x]'s id and each is strictly after [x] in the order
    (createdAt descending, id ascending). *)
Theorem getAllByDatePaginated_after
    (userId : string) (lim : option Z) (x : Post) (w : World) :
  NoDup (post_id <$> posts (db w)) ->
  x ∈ posts (db w) ->
  post_id x <> "" ->
  (forall n, lim = Some n -> 0 <= n) ->
  exists page w',
    PostRepositoryImpl.getAllByDatePaginated userId
      {| limit := lim; before := None; after := Some (post_id x) |} w = (inr page, w')
    /\ (forall n, lim = Some n -> 0 < n -> Z.of_nat (length page) <= n)
    /\ forall r, r ∈ page ->
         PostDTO.id (ExtendedPostDTO.base r) <> post_id x
         /\ strictly_after x (ExtendedPostDTO.base r).
Proof.
  intros Hnd Hx Hcursor Hlim.
  unfold PostRepositoryImpl.getAllByDatePaginated. run.
  eexists _, _. split; [reflexivity|].
  unfold post_findMany, findMany, from_cursor, cursor_of, skip_of, take_of, backwards,
    finalize_order, truthy, truthy_num, nullish. cbn.
  assert (Hne : String.eqb (post_id x) "" = false) by by apply String.eqb_neq.
  rewrite Hne. cbn.
  assert (Hrows : forall p,
            p ∈ drop 1 (List.filter (precedes post_compare_on feed_orderBy x)
                          (sort_rows post_compare_on feed_orderBy
                             (List.filter
                                (feed_where (db w)
                                   (followedId <$>
                                    List.filter (fun f => String.eqb (followerId f) userId)
                                      (follows (db w))))
                                (posts (db w))))) ->
            PostDTO.id (ExtendedPostDTO.base (extend_post (db w) p)) <> post_id x
            /\ strictly_after x (ExtendedPostDTO.base (extend_post (db w) p))).
  { intros p Hp. apply rows_after_cursor in Hp as (Hpt & Hid & Hle); [|done..].
    split; [exact Hid|]. cbn. by apply precedes_strictly_after. }
  destruct lim as [n|]; cbn.
  - specialize (Hlim n eq_refl).
    assert (Hneg : (n <? 0) = false) by lia.
    destruct (n =? 0) eqn:Hn0; cbn; rewrite ?Hneg;
      rewrite (findUnique_stored post_id _ x Hnd Hx).
    + split; [intros ? [= <-]; lia|].
      intros r Hr. apply list_elem_of_fmap in Hr as (p & -> & Hp). by apply Hrows.
    + split.
      * intros ? [= <-] _. rewrite length_fmap, length_take. lia.
      * intros r Hr. apply list_elem_of_fmap in Hr as (p & -> & Hp).
        apply subseteq_take in Hp. by apply Hrows.
  - rewrite (findUnique_stored post_id _ x Hnd Hx).
    split; [done|].
    intros r Hr. apply list_elem_of_fmap in Hr as (p & -> & Hp). by apply Hrows.
Qed.

Lemma getAllByDatePaginated_after_witness :
  exists page w',
    PostRepositoryImpl.getAllByDatePaginated Sample.bob
      {| limit := Some 2; before := None; after := Some Sample.p2 |} Sample.w0 = (inr page, w')
    /\ (forall n, Some 2 = Some n -> 0 < n -> Z.of_nat (length page) <= n)
    /\ forall r, r ∈ page ->
         PostDTO.id (ExtendedPostDTO.base r) <> Sample.p2
         /\ strictly_after (Sample.mkPost Sample.p2 Sample.alice 20 None) (ExtendedPostDTO.base r).
Proof.
  apply (getAllByDatePaginated_after Sample.bob (Some 2)
           (Sample.mkPost Sample.p2 Sample.alice 20 None) Sample.w0).
  - apply (bool_decide_unpack _). vm_compute. exact I.
  - apply list_elem_of_further, list_elem_of_here.
  - discriminate.
  - intros n [= <-]. lia.
Defined.

(** C2 as stated fails for the options the theorem leaves out. The feed of
    bob is p4, p2, p3, p1. With [after] p3 and also [before] p1, or with
    [after] p3 and a limit of -1, [take] is negative and the page is p2,
    which comes before p3 in the order; with [after] p4 and a limit of 0 no
    [take] is given and three records come back. *)
Lemma after_cursor_returns_earlier_records :
  Sample.mkPost Sample.p3 Sample.alice 20 (Some Sample.p1) ∈ posts (db Sample.w0)
  /\ (exists r,
        (PostRepositoryImpl.getAllByDatePaginated Sample.bob
           {| limit := Some 1; before := Some Sample.p1; after := Some Sample.p3 |}
           Sample.w0).1 = inr [r]
        /\ PostDTO.id (ExtendedPostDTO.base r) = Sample.p2
        /\ ~ strictly_after (Sample.mkPost Sample.p3 Sample.alice 20 (Some Sample.p1))
               (ExtendedPostDTO.base r))
  /\ (exists r,
        (PostRepositoryImpl.getAllByDatePaginated Sample.bob
           {| limit := Some (-1); before := None; after := Some Sample.p3 |}
           Sample.w0).1 = inr [r]
        /\ PostDTO.id (ExtendedPostDTO.base r) = Sample.p2
        /\ ~ strictly_after (Sample.mkPost Sample.p3 Sample.alice 20 (Some Sample.p1))
               (ExtendedPostDTO.base r))
  /\ page_ids (PostRepositoryImpl.getAllByDatePaginated Sample.bob
                 {| limit := Some 0; before := None; after := Some Sample.p4 |} Sample.w0).1
     = inr [Sample.p2; Sample.p3; Sample.p1].
Proof.
  split; [do 2 apply list_elem_of_further; apply list_elem_of_here|].
  split; [|split; [|vm_compute; reflexivity]].
  - eexists. split; [vm_compute; reflexivity|]. split; [reflexivity|].
    intros [Hlt|[_ Hid]]; [cbn in Hlt; lia | vm_compute in Hid; discriminate].
  - eexists. split; [vm_compute; reflexivity|]. split; [reflexivity|].
    intros [Hlt|[_ Hid]]; [cbn in Hlt; lia | vm_compute in Hid; discriminate].
Qed.

(** ** C3 and C7: the realtime relay *)


(** What the user service's two checks return and record. *)
Lemma checkIfUserExists_run (userId : string) (w : World) :
  UserServiceImpl.checkIfUserExists userId w
  = if isUUID userId
    then (inr (bool_decide (is_Some (users (db w) !! userId))),
          record (RepositoryCall "UserRepository.checkIfUserExists" [userId]) w)
    else (inr false, w).
Proof.
  unfold UserServiceImpl.checkIfUserExists, UserRepositoryImpl.checkIfUserExists.
  destruct (isUUID userId) eqn:Hid; [|done]. run. read_ids. cbn.
  by destruct (users (db w) !! userId).
Qed.

Lemma isUserFollowed_run (followerID followedID : string) (w : World) :
  UserServiceImpl.isUserFollowed followerID followedID w
  = if negb (isUUID followerID) || negb (isUUID followedID) then (inr false, w)
    else if decide (followerID = followedID) then (inr true, w)
    else (inr (match users (db w) !! followedID with
               | Some _ => bool_decide (is_Some (findFirst (follows (db w))
                                                   (same_follow followerID followedID)))
               | None => false
               end),
          record (RepositoryCall "UserRepository.isUserFollowed" [followerID; followedID]) w).
Proof.
  unfold UserServiceImpl.isUserFollowed, UserRepositoryImpl.isUserFollowed.
  destruct (isUUID followerID) eqn:Hfollower; [|done].
  destruct (isUUID followedID) eqn:Hfollowed; [|done]. cbn [negb orb].
  destruct (decide (followerID = followedID)); [done|]. run.
  read_ids. cbn.
  destruct (users (db w) !! followedID); run; [|done].
  by destruct (findFirst (follows (db w)) (same_follow followerID followedID)); run.
Qed.

Lemma message_create_run (m : MessageDTO) (w : World) :
  MessageServiceImpl.create m w
  = match validate_message m with
    | [] =>
        (inr m,
         {| db := {| users := users (db w); follows := follows (db w); posts := posts (db w);
                     reactions := reactions (db w);
                     messages := messages (db w) ++
                       [{| message_id := randomUUID (external w) (draws w); message_data := m;
                           message_createdAt := clock w |}] |};
            trace := trace w ++ [RepositoryCall "MessageRepository.create"
                                   [senderId m; receiverId m]];
            draws := S (draws w); clock := clock w; external := external w |})
    | errors => (inl (ValidationException errors), w)
    end.
Proof.
  unfold MessageServiceImpl.create, MessageRepositoryImpl.create, reject_invalid.
  by destruct (validate_message m).
Qed.

Lemma validate_message_valid (m : MessageDTO) :
  isUUID (senderId m) = true -> isUUID (receiverId m) = true ->
  validate_message m
  = if decide (msg_content m = "") then [ {| property := "content"; constraints := ["isNotEmpty"] |} ]
    else [].
Proof.
  intros Hs Hr. unfold validate_message.
  rewrite (uuid_constraints_valid _ Hs), (uuid_constraints_valid _ Hr). cbn.
  by destruct (decide (msg_content m = "")).
Qed.




(** C7. A relay that passes the gate (well-formed ids, the receiver is a
    stored user, and the sender is the receiver or follows them) first emits
    the message to the receiver's and the sender's rooms, having made only
    user-repository reads before, and only then persists: with a non-empty
    content the message row is appended after the emit; with an empty content
    persistence fails validation, the sender's socket gets an ['error'], the
    database is unchanged, and the emit stays in the trace (it is not rolled
    back). The handler returns normally either way. *)
Theorem relay_emits_then_persists (socketId senderId receiverId content : string) (w : World) :
  isUUID senderId = true -> isUUID receiverId = true ->
  is_Some (users (db w) !! receiverId) ->
  senderId = receiverId \/ follows_edge (db w) senderId receiverId ->
  let payload := {| senderId := senderId; receiverId := receiverId; msg_content := content |} in
  let reads :=
    RepositoryCall "UserRepository.checkIfUserExists" [receiverId] ::
    (if decide (senderId = receiverId) then []
     else [RepositoryCall "UserRepository.isUserFollowed" [senderId; receiverId]]) in
  let after_run := (SocketIoServer.onMessage socketId senderId receiverId content w).2 in
  (SocketIoServer.onMessage socketId senderId receiverId content w).1 = inr tt
  /\ (content <> "" ->
      trace after_run
      = (trace w ++ reads ++ [RoomEmit [receiverId; senderId] "message" payload;
                              RepositoryCall "MessageRepository.create" [senderId; receiverId]])%list
      /\ messages (db after_run)
         = (messages (db w) ++ [{| message_id := randomUUID (external w) (draws w);
                                   message_data := payload;
                                   message_createdAt := clock w |}])%list)
  /\ (content = "" ->
      trace after_run
      = (trace w ++ reads ++ [RoomEmit [receiverId; senderId] "message" payload;
                              SocketEmit socketId "error" "Internal server error"])%list
      /\ db after_run = db w).
Proof.
  intros Hs Hr [u Hu] Hgate. cbn zeta.
  unfold SocketIoServer.onMessage, try_catch. rewrite bind_unfold, checkIfUserExists_run.
  rewrite Hr, Hu, is_Some_bool_decide.
  rewrite bind_unfold, isUserFollowed_run. cbn [db record]. rewrite Hs, Hr, Hu. cbn [negb orb].
  assert (Hfollowed :
    (if decide (senderId = receiverId) then true
     else bool_decide (is_Some (findFirst (follows (db w)) (same_follow senderId receiverId))))
    = true).
  { destruct (decide (senderId = receiverId)) as [|Hne]; [done|].
    destruct Hgate as [|Hedge]; [done|].
    apply bool_decide_eq_true. by apply findFirst_follow_edge. }
  destruct (decide (senderId = receiverId)) as [Heq|Hne].
  - rewrite !bind_unfold. unfold emit. rewrite bind_unfold, message_create_run.
    rewrite validate_message_valid by done. cbn [msg_content].
    destruct (decide (content = "")) as [Hc|Hc]; cbn;
      (split; [done|]); split; intros Hc'; try done; by rewrite <- !app_assoc.
  - rewrite Hfollowed.
    rewrite !bind_unfold. unfold emit. rewrite bind_unfold, message_create_run.
    rewrite validate_message_valid by done. cbn [msg_content].
    destruct (decide (content = "")) as [Hc|Hc]; cbn;
      (split; [done|]); split; intros Hc'; try done; by rewrite <- !app_assoc.
Qed.

Lemma relay_emits_then_persists_witness :
  (SocketIoServer.onMessage "socket-1" Sample.dave Sample.bob "hi" Sample.w0).1 = inr tt
  /\ trace (SocketIoServer.onMessage "socket-1" Sample.dave Sample.bob "" Sample.w0).2
     = [RepositoryCall "UserRepository.checkIfUserExists" [Sample.bob];
        RepositoryCall "UserRepository.isUserFollowed" [Sample.dave; Sample.bob];
        RoomEmit [Sample.bob; Sample.dave] "message"
          {| senderId := Sample.dave; receiverId := Sample.bob; msg_content := "" |};
        SocketEmit "socket-1" "error" "Internal server error"].
Proof.
  assert (Hedge : follows_edge (db Sample.w0) Sample.dave Sample.bob).
  { exists Sample.dave_follows_bob. split; [apply list_elem_of_here | split; reflexivity]. }
  split.
  - apply (relay_emits_then_persists "socket-1" Sample.dave Sample.bob "hi" Sample.w0);
      try reflexivity; [by eexists | by right].
  - apply (relay_emits_then_persists "socket-1" Sample.dave Sample.bob "" Sample.w0);
      try reflexivity; [by eexists | by right].
Defined.

(** ** C8: the order of a comment page *)

(** C8 does not hold of the code: [getAllCommentsFromPost] passes no
    [orderBy]. On the sample timeline the comments of the first post come
    back as stored, the older one first, although in the order (createdAt
    descending, id ascending) the newer one precedes it; a page of one
    comment holds the oldest, not the newest; and the service returns the
    same list. *)
Theorem comments_page_is_not_newest_first :
  (CommentRepositoryImpl.getAllCommentsFromPost Sample.p1
     {| limit := None; before := None; after := None |} Sample.w0).1
  = inr [Sample.mkPost Sample.p3 Sample.alice 20 (Some Sample.p1);
         Sample.mkPost Sample.p4 Sample.alice 30 (Some Sample.p1)]
  /\ precedes post_compare_on feed_orderBy
       (Sample.mkPost Sample.p3 Sample.alice 20 (Some Sample.p1))
       (Sample.mkPost Sample.p4 Sample.alice 30 (Some Sample.p1)) = false
  /\ (CommentRepositoryImpl.getAllCommentsFromPost Sample.p1
        {| limit := Some 1; before := None; after := None |} Sample.w0).1
     = inr [Sample.mkPost Sample.p3 Sample.alice 20 (Some Sample.p1)]
  /\ (CommentServiceImpl.getAllCommentsFromPostPaginated Sample.bob Sample.p1
        {| o_limit := None; o_skip := None |} Sample.w0).1
     = inr [Sample.mkPost Sample.p3 Sample.alice 20 (Some Sample.p1);
            Sample.mkPost Sample.p4 Sample.alice 30 (Some Sample.p1)].
Proof. repeat split; vm_compute; reflexivity. Qed.

(** * Further properties of the services *)

(** ** The follow graph *)

Lemma follower_userExists_run (userId : string) (w : World) :
  isUUID userId = true ->
  FollowerRepositoryImpl.userExists userId w
  = (inr (bool_decide (is_Some (users (db w) !! userId))),
     record (RepositoryCall "FollowerRepository.userExists" [userId]) w).
Proof.
  intros Hid. unfold FollowerRepositoryImpl.userExists. run. read_ids. cbn.
  by destruct (users (db w) !! userId).
Qed.

Lemma follower_getById_run (a b : string) (w : World) :
  isUUID a = true -> isUUID b = true ->
  FollowerRepositoryImpl.getById a b w
  = (inr (findFirst (follows (db w)) (same_follow a b)),
     record (RepositoryCall "FollowerRepository.getById" [a; b]) w).
Proof.
  intros Ha Hb. unfold FollowerRepositoryImpl.getById. run. read_ids. cbn.
  by destruct (findFirst (follows (db w)) (same_follow a b)).
Qed.

Lemma findFirst_None {A : Type} (l : list A) (p : A -> bool) :
  findFirst l p = None <-> forall x, x ∈ l -> p x = false.
Proof.
  unfold findFirst. split.
  - intros H x Hx. apply list_elem_of_In in Hx. by apply (find_none _ _ H).
  - intros H. destruct (List.find p l) as [x|] eqn:E; [|done].
    apply find_some in E as [Hx Hp]. apply list_elem_of_In in Hx.
    rewrite (H x Hx) in Hp. discriminate.
Qed.

Lemma findFirst_app_new {A : Type} (l : list A) (p : A -> bool) (x : A) :
  findFirst l p = None -> p x = true -> findFirst (l ++ [x]) p = Some x.
Proof.
  unfold findFirst. intros Hnone Hx. induction l as [|y l IH]; cbn in *.
  - by rewrite Hx.
  - destruct (p y); [discriminate|]. by apply IH.
Qed.

Lemma findFirst_no_edge (d : Db) (a b : string) :
  findFirst (follows d) (same_follow a b) = None <-> ~ follows_edge d a b.
Proof.
  rewrite <- findFirst_follow_edge. split.
  - intros -> [? ?]. discriminate.
  - intros H. destruct (findFirst _ _) eqn:E; [|done]. exfalso. apply H. by eexists.
Qed.


Lemma follower_create_run (a b : string) (w : World) :
  FollowerRepositoryImpl.create a b w
  = (inr (new_follow a b w),
     {| db := {| users := users (db w); follows := follows (db w) ++ [new_follow a b w];
                 posts := posts (db w); reactions := reactions (db w);
                 messages := messages (db w) |};
        trace := trace w ++ [RepositoryCall "FollowerRepository.create" [a; b]];
        draws := S (draws w); clock := clock w; external := external w |}).
Proof. reflexivity. Qed.

Lemma createFollower_success_run (a b : string) (w : World) :
  isUUID a = true -> isUUID b = true -> a <> b ->
  is_Some (users (db w) !! b) -> ~ follows_edge (db w) a b ->
  exists w',
    FollowerServiceImpl.createFollower a b w = (inr (new_follow a b w), w')
    /\ users (db w') = users (db w)
    /\ follows (db w') = (follows (db w) ++ [new_follow a b w])%list
    /\ posts (db w') = posts (db w)
    /\ reactions (db w') = reactions (db w)
    /\ messages (db w') = messages (db w)
    /\ external w' = external w /\ clock w' = clock w /\ draws w' = S (draws w).
Proof.
  intros Ha Hb Hne [u Hu] Hno.
  unfold FollowerServiceImpl.createFollower.
  rewrite (validate_uuid_pair_valid _ _ _ _ Hb Ha). unfold reject_invalid.
  rewrite bind_unfold. cbn [mret M_ret]. rewrite decide_False by done.
  rewrite bind_unfold, (follower_userExists_run _ _ Hb), Hu, is_Some_bool_decide. cbn [negb].
  rewrite bind_unfold, (follower_getById_run _ _ _ Ha Hb). cbn [db record].
  apply findFirst_no_edge in Hno. rewrite Hno, follower_create_run.
  eexists. split; [reflexivity|]. cbn. done.
Qed.

Lemma createFollower_existing_run (a b : string) (w : World) :
  isUUID a = true -> isUUID b = true -> a <> b ->
  is_Some (users (db w) !! b) -> follows_edge (db w) a b ->
  exists w',
    FollowerServiceImpl.createFollower a b w
    = (inl (ConflictException (Some "follow already exist")), w')
    /\ db w' = db w.
Proof.
  intros Ha Hb Hne [u Hu] Hedge.
  unfold FollowerServiceImpl.createFollower.
  rewrite (validate_uuid_pair_valid _ _ _ _ Hb Ha). unfold reject_invalid.
  rewrite bind_unfold. cbn [mret M_ret]. rewrite decide_False by done.
  rewrite bind_unfold, (follower_userExists_run _ _ Hb), Hu, is_Some_bool_decide. cbn [negb].
  rewrite bind_unfold, (follower_getById_run _ _ _ Ha Hb). cbn [db record].
  apply findFirst_follow_edge in Hedge as [f Hf]. rewrite Hf.
  by eexists.
Qed.

(** X1. Following a stored user one does not follow yet stores the edge and
    returns it; following the same user again right after fails with a
    Conflict and changes nothing. *)
Theorem follow_twice_conflicts (a b : string) (w : World) :
  isUUID a = true -> isUUID b = true -> a <> b ->
  is_Some (users (db w) !! b) -> ~ follows_edge (db w) a b ->
  exists f w1 w2,
    FollowerServiceImpl.createFollower a b w = (inr f, w1)
    /\ followerId f = a /\ followedId f = b
    /\ follows (db w1) = (follows (db w) ++ [f])%list
    /\ FollowerServiceImpl.createFollower a b w1
       = (inl (ConflictException (Some "follow already exist")), w2)
    /\ db w2 = db w1.
Proof.
  intros Ha Hb Hne Hu Hno.
  destruct (createFollower_success_run a b w Ha Hb Hne Hu Hno)
    as (w1 & Hrun & Husers & Hfollows & _).
  exists (new_follow a b w), w1.
  assert (Hedge : follows_edge (db w1) a b).
  { exists (new_follow a b w). rewrite Hfollows. split; [|done].
    apply elem_of_app. right. apply list_elem_of_here. }
  assert (Hu1 : is_Some (users (db w1) !! b)) by by rewrite Husers.
  destruct (createFollower_existing_run a b w1 Ha Hb Hne Hu1 Hedge) as (w2 & Hagain & Hdb).
  exists w2. repeat split; try done.
Qed.

Lemma follow_twice_conflicts_witness :
  exists f w1 w2,
    FollowerServiceImpl.createFollower Sample.alice Sample.bob Sample.w0 = (inr f, w1)
    /\ followerId f = Sample.alice /\ followedId f = Sample.bob
    /\ follows (db w1) = (follows (db Sample.w0) ++ [f])%list
    /\ FollowerServiceImpl.createFollower Sample.alice Sample.bob w1
       = (inl (ConflictException (Some "follow already exist")), w2)
    /\ db w2 = db w1.
Proof.
  apply (follow_twice_conflicts Sample.alice Sample.bob Sample.w0); try reflexivity.
  - discriminate.
  - by eexists.
  - intros (f & Hin & Hf & _). apply list_elem_of_singleton in Hin. subst f. discriminate Hf.
Defined.

Lemma list_filter_sublist {A : Type} (p : A -> bool) (l : list A) :
  List.filter p l `sublist_of` l.
Proof.
  induction l as [|x l IH]; cbn; [constructor|].
  destruct (p x); by constructor.
Qed.

Lemma findUnique_is_Some {A : Type} (key : A -> string) (l : list A) (x : A) :
  x ∈ l -> is_Some (findUnique key l (key x)).
Proof.
  intros Hx. unfold findUnique.
  destruct (List.find _ l) eqn:E; [by eexists|].
  apply list_elem_of_In in Hx. pose proof (find_none _ _ E x Hx) as Hk.
  cbn in Hk. by rewrite String.eqb_refl in Hk.
Qed.

Lemma follower_delete_run (followId : string) (w : World) :
  is_Some (findUnique follow_id (follows (db w)) followId) ->
  FollowerRepositoryImpl.delete followId w
  = (inr tt,
     {| db := {| users := users (db w);
                 follows := List.filter (fun f => negb (String.eqb (follow_id f) followId))
                                        (follows (db w));
                 posts := posts (db w); reactions := reactions (db w);
                 messages := messages (db w) |};
        trace := trace w ++ [RepositoryCall "FollowerRepository.delete" [followId]];
        draws := draws w; clock := clock w; external := external w |}).
Proof.
  intros [row Hrow]. unfold FollowerRepositoryImpl.delete. run. by rewrite Hrow.
Qed.

(** What a successful [deleteFollower] leaves in the follow table. *)
Lemma deleteFollower_success_run (a b : string) (f : Follow) (w : World) :
  isUUID a = true -> isUUID b = true ->
  findFirst (follows (db w)) (same_follow a b) = Some f ->
  exists w',
    FollowerServiceImpl.deleteFollower a b w = (inr tt, w')
    /\ follows (db w')
       = List.filter (fun g => negb (String.eqb (follow_id g) (follow_id f))) (follows (db w))
    /\ users (db w') = users (db w) /\ posts (db w') = posts (db w)
    /\ reactions (db w') = reactions (db w) /\ messages (db w') = messages (db w).
Proof.
  intros Ha Hb Hf.
  unfold FollowerServiceImpl.deleteFollower.
  rewrite (validate_uuid_pair_valid _ _ _ _ Ha Hb). unfold reject_invalid.
  rewrite bind_unfold. cbn [mret M_ret].
  rewrite bind_unfold, (follower_getById_run _ _ _ Ha Hb), Hf.
  rewrite follower_delete_run.
  - eexists. split; [reflexivity|]. cbn. done.
  - cbn [db record]. apply findUnique_is_Some.
    apply find_some in Hf as [Hin _]. by apply list_elem_of_In.
Qed.

(** X2. Follow then unfollow: both succeed, no edge (a -> b) is left, every
    other stored edge (one with another id) is still there, and when the new
    edge's id is fresh the follow table is back to what it was. *)
Theorem follow_then_unfollow (a b : string) (w : World) :
  isUUID a = true -> isUUID b = true -> a <> b ->
  is_Some (users (db w) !! b) -> ~ follows_edge (db w) a b ->
  exists f w1 w2,
    FollowerServiceImpl.createFollower a b w = (inr f, w1)
    /\ FollowerServiceImpl.deleteFollower a b w1 = (inr tt, w2)
    /\ ~ follows_edge (db w2) a b
    /\ (forall g, g ∈ follows (db w) -> follow_id g <> follow_id f -> g ∈ follows (db w2))
    /\ ((forall g, g ∈ follows (db w) -> follow_id g <> follow_id f) ->
        follows (db w2) = follows (db w)).
Proof.
  intros Ha Hb Hne Hu Hno.
  destruct (createFollower_success_run a b w Ha Hb Hne Hu Hno)
    as (w1 & Hrun & _ & Hfollows & _).
  set (f := new_follow a b w) in *.
  assert (Hfind : findFirst (follows (db w1)) (same_follow a b) = Some f).
  { rewrite Hfollows. apply findFirst_app_new; [by apply findFirst_no_edge|].
    by apply same_follow_true. }
  destruct (deleteFollower_success_run a b f w1 Ha Hb Hfind) as (w2 & Hdel & Hleft & _).
  exists f, w1, w2. split; [done|]. split; [done|].
  assert (Hleft' : follows (db w2)
            = List.filter (fun g => negb (String.eqb (follow_id g) (follow_id f))) (follows (db w))).
  { rewrite Hleft, Hfollows, List.filter_app. cbn. rewrite String.eqb_refl. cbn.
    by rewrite app_nil_r. }
  split; [|split].
  - intros (g & Hg & Hga & Hgb). apply Hno. exists g. split; [|done].
    rewrite Hleft' in Hg. by apply elem_of_list_filter_bool in Hg as [Hg _].
  - intros g Hg Hid. rewrite Hleft'. apply elem_of_list_filter_bool. split; [done|].
    apply negb_true_iff. by apply String.eqb_neq.
  - intros Hfresh. rewrite Hleft'. apply forallb_filter_id.
    apply forallb_forall. intros g Hg. apply list_elem_of_In in Hg.
    apply negb_true_iff. apply String.eqb_neq. by apply Hfresh.
Qed.

Lemma follow_then_unfollow_witness :
  exists f w1 w2,
    FollowerServiceImpl.createFollower Sample.alice Sample.bob Sample.w0 = (inr f, w1)
    /\ FollowerServiceImpl.deleteFollower Sample.alice Sample.bob w1 = (inr tt, w2)
    /\ ~ follows_edge (db w2) Sample.alice Sample.bob
    /\ (forall g, g ∈ follows (db Sample.w0) -> follow_id g <> follow_id f ->
                  g ∈ follows (db w2))
    /\ ((forall g, g ∈ follows (db Sample.w0) -> follow_id g <> follow_id f) ->
        follows (db w2) = follows (db Sample.w0)).
Proof.
  apply (follow_then_unfollow Sample.alice Sample.bob Sample.w0); try reflexivity.
  - discriminate.
  - by eexists.
  - intros (f & Hin & Hf & _). apply list_elem_of_singleton in Hin. subst f. discriminate Hf.
Defined.

Lemma follow_pairs_filter (p : Follow -> bool) (l : list Follow) :
  ((fun f => (followerId f, followedId f)) <$> List.filter p l)
  `sublist_of` ((fun f => (followerId f, followedId f)) <$> l).
Proof. apply fmap_sublist, list_filter_sublist. Qed.

Lemma follow_graph_ok_same (d d' : Db) :
  follows d' = follows d -> follow_graph_ok d -> follow_graph_ok d'.
Proof. unfold follow_graph_ok, follow_pairs. by intros ->. Qed.

(** X3. For ids in canonical spelling, the follow table's invariant (no
    self-loop, at most one edge per ordered pair) is kept by [createFollower]
    and by [deleteFollower], whether they succeed or fail. (The self-follow
    guard compares the ids as spelled, so nothing is said of an id and a
    spelling of the same id in another case.) *)
Theorem follow_graph_invariant (a b : string) (w : World) :
  canonical a -> canonical b ->
  follow_graph_ok (db w) ->
  follow_graph_ok (db (FollowerServiceImpl.createFollower a b w).2)
  /\ follow_graph_ok (db (FollowerServiceImpl.deleteFollower a b w).2).
Proof.
  intros _ _ Hok. split.
  - unfold FollowerServiceImpl.createFollower, reject_invalid.
    destruct (validate_uuid_pair _ _ _ _) eqn:Hval; [|exact Hok].
    apply validate_uuid_pair_nil in Hval as [Hb Ha].
    rewrite bind_unfold. cbn [mret M_ret].
    destruct (decide (a = b)) as [|Hne]; [exact Hok|].
    rewrite bind_unfold, (follower_userExists_run _ _ Hb).
    destruct (bool_decide _); cbn [negb]; [|exact Hok].
    rewrite bind_unfold, (follower_getById_run _ _ _ Ha Hb). cbn [db record].
    destruct (findFirst (follows (db w)) (same_follow a b)) eqn:Hf; [exact Hok|].
    rewrite follower_create_run. cbn.
    destruct Hok as [Hloops Hpairs]. split.
    + cbn. intros f Hin. apply elem_of_app in Hin as [Hin|Hin]; [by apply Hloops|].
      apply list_elem_of_singleton in Hin. by subst f.
    + unfold follow_pairs. cbn. rewrite fmap_app. apply NoDup_app.
      split; [exact Hpairs|]. split; [|apply NoDup_singleton].
      intros pair Hin Hnew. apply list_elem_of_singleton in Hnew. subst pair.
      apply list_elem_of_fmap in Hin as (g & Hpair & Hg). injection Hpair as Hga Hgb.
      apply (proj1 (findFirst_None _ _) Hf) in Hg.
      assert (same_follow a b g = true) by by apply same_follow_true.
      congruence.
  - unfold FollowerServiceImpl.deleteFollower, reject_invalid.
    destruct (validate_uuid_pair _ _ _ _) eqn:Hval; [|exact Hok].
    apply validate_uuid_pair_nil in Hval as [Ha Hb].
    rewrite bind_unfold. cbn [mret M_ret].
    rewrite bind_unfold, (follower_getById_run _ _ _ Ha Hb).
    destruct (findFirst (follows (db w)) (same_follow a b)) as [f|] eqn:Hf; [|exact Hok].
    rewrite follower_delete_run.
    + cbn. destruct Hok as [Hloops Hpairs]. split.
      * cbn. intros g Hg. apply elem_of_list_filter_bool in Hg as [Hg _]. by apply Hloops.
      * eapply sublist_NoDup; [exact Hpairs|]. apply follow_pairs_filter.
    + cbn [db record]. apply findUnique_is_Some.
      apply find_some in Hf as [Hin _]. by apply list_elem_of_In.
Qed.

Lemma follow_graph_invariant_witness :
  follow_graph_ok (db (FollowerServiceImpl.createFollower Sample.alice Sample.bob Sample.w0).2)
  /\ follow_graph_ok (db (FollowerServiceImpl.deleteFollower Sample.alice Sample.bob Sample.w0).2).
Proof.
  apply (follow_graph_invariant Sample.alice Sample.bob Sample.w0); [reflexivity..|].
  split.
  - intros f Hin. apply list_elem_of_singleton in Hin. subst f. discriminate.
  - apply NoDup_singleton.
Defined.

Lemma unique_by {A K : Type} (key : A -> K) (l : list A) (a b : A) :
  NoDup (key <$> l) -> a ∈ l -> b ∈ l -> key a = key b -> a = b.
Proof.
  induction l as [|x l IH]; cbn; intros Hnd Ha Hb Hk.
  - by apply elem_of_nil in Ha.
  - apply NoDup_cons in Hnd as [Hx Hnd].
    apply elem_of_cons in Ha as [->|Ha]; apply elem_of_cons in Hb as [->|Hb]; try done.
    + exfalso. apply Hx. rewrite Hk. apply list_elem_of_fmap. by exists b.
    + exfalso. apply Hx. rewrite <- Hk. apply list_elem_of_fmap. by exists a.
    + by apply IH.
Qed.

(** X4. In a follow table with distinct ids that keeps the invariant,
    unfollowing a stored edge removes that edge and no other: afterwards no
    edge (a -> b) is stored and every other ordered pair is linked exactly
    when it was before. *)
Theorem unfollow_removes_only_that_edge (a b : string) (w : World) :
  isUUID a = true -> isUUID b = true ->
  follow_graph_ok (db w) -> NoDup (follow_id <$> follows (db w)) ->
  follows_edge (db w) a b ->
  exists w',
    FollowerServiceImpl.deleteFollower a b w = (inr tt, w')
    /\ ~ follows_edge (db w') a b
    /\ forall c d, (c, d) <> (a, b) -> (follows_edge (db w') c d <-> follows_edge (db w) c d).
Proof.
  intros Ha Hb [_ Hpairs] Hids Hedge.
  apply findFirst_follow_edge in Hedge as [f Hf].
  destruct (deleteFollower_success_run a b f w Ha Hb Hf) as (w' & Hdel & Hleft & _).
  exists w'. split; [done|].
  pose proof Hf as Hf'. apply find_some in Hf' as [Hfin Hfab].
  apply list_elem_of_In in Hfin. apply same_follow_true in Hfab as [Hfa Hfb].
  assert (Hkept : forall g, g ∈ follows (db w') <-> g ∈ follows (db w) /\ g <> f).
  { intros g. rewrite Hleft, elem_of_list_filter_bool, negb_true_iff, String.eqb_neq.
    split; intros [Hg Hne]; (split; [done|]).
    - by intros ->.
    - intros Hid. apply Hne. by apply (unique_by follow_id (follows (db w))). }
  split.
  - intros (g & Hg & Hga & Hgb). apply Hkept in Hg as [Hg Hne]. apply Hne.
    apply (unique_by (fun f => (followerId f, followedId f)) (follows (db w))); try done.
    congruence.
  - intros c d Hcd. split; intros (g & Hg & Hgc & Hgd); exists g; (split; [|done]).
    + by apply Hkept in Hg as [Hg _].
    + apply Hkept. split; [done|]. intros ->. apply Hcd. congruence.
Qed.

Lemma unfollow_removes_only_that_edge_witness :
  exists w',
    FollowerServiceImpl.deleteFollower Sample.dave Sample.bob Sample.w0 = (inr tt, w')
    /\ ~ follows_edge (db w') Sample.dave Sample.bob
    /\ forall c d, (c, d) <> (Sample.dave, Sample.bob) ->
                   (follows_edge (db w') c d <-> follows_edge (db Sample.w0) c d).
Proof.
  apply (unfollow_removes_only_that_edge Sample.dave Sample.bob Sample.w0); try reflexivity.
  - split; [|apply NoDup_singleton].
    intros f Hin. apply list_elem_of_singleton in Hin. subst f. discriminate.
  - apply NoDup_singleton.
  - exists Sample.dave_follows_bob. split; [apply list_elem_of_here | split; reflexivity].
Defined.

(** ** Visibility and the messaging gate *)

(** X5. On ids in canonical spelling, the messaging gate [isUserFollowed] of
    the user service does not throw and never writes; it answers [true]
    exactly when both ids are well-formed UUIDs and either they are the same
    id (no stored user or edge is needed then) or the followed user is stored
    and an edge (follower -> followed) is stored. *)
Theorem isUserFollowed_gate (followerID followedID : string) (w : World) :
  canonical followerID -> canonical followedID ->
  exists (r : bool) (w' : World),
    UserServiceImpl.isUserFollowed followerID followedID w = (inr r, w')
    /\ db w' = db w
    /\ (r = true <->
        isUUID followerID = true /\ isUUID followedID = true
        /\ (followerID = followedID
            \/ (is_Some (users (db w) !! followedID)
                /\ follows_edge (db w) followerID followedID))).
Proof.
  intros _ _. rewrite isUserFollowed_run.
  destruct (isUUID followerID) eqn:Ha, (isUUID followedID) eqn:Hb; cbn [negb orb];
    try (eexists _, _; split; [reflexivity|]; split; [done|]; split; [done|];
         intros (? & ? & _); discriminate).
  destruct (decide (followerID = followedID)) as [Heq|Hne].
  - eexists _, _. split; [reflexivity|]. split; [done|]. split; [|done]. intros _. auto.
  - eexists _, _. split; [reflexivity|]. split; [done|].
    destruct (users (db w) !! followedID) as [u|] eqn:Hu.
    + rewrite bool_decide_eq_true, findFirst_follow_edge. split.
      * intros He. repeat split; try done. right. split; [by eexists | done].
      * intros (_ & _ & [?|[_ He]]); done.
    + split; [done|]. intros (_ & _ & [?|[[? ?] _]]); done.
Qed.

Lemma isUserFollowed_gate_witness :
  exists (r : bool) (w' : World),
    UserServiceImpl.isUserFollowed Sample.dave Sample.bob Sample.w0 = (inr r, w')
    /\ db w' = db Sample.w0 /\ r = true.
Proof.
  destruct (isUserFollowed_gate Sample.dave Sample.bob Sample.w0 eq_refl eq_refl)
    as (r & w' & Hrun & Hdb & Hr).
  exists r, w'. split; [exact Hrun|]. split; [exact Hdb|]. apply Hr.
  split; [reflexivity|]. split; [reflexivity|]. right. split; [by eexists|].
  exists Sample.dave_follows_bob. split; [apply list_elem_of_here | split; reflexivity].
Defined.

Lemma existsb_followed (d : Db) (viewer author : string) :
  existsb (String.eqb author)
    (followedId <$> List.filter (fun f => String.eqb (followerId f) viewer) (follows d))
  = bool_decide (is_Some (findFirst (follows d) (same_follow viewer author))).
Proof.
  apply eq_true_iff_eq. rewrite existsb_exists, bool_decide_eq_true, findFirst_follow_edge.
  split.
  - intros (x & Hin & Heq). apply String.eqb_eq in Heq. subst x.
    apply list_elem_of_In, list_elem_of_fmap in Hin as (f & Hf & Hin).
    apply elem_of_list_filter_bool in Hin as [Hin Hv]. apply String.eqb_eq in Hv.
    by exists f.
  - intros (f & Hin & Hv & Ha). exists author. split; [|apply String.eqb_refl].
    apply list_elem_of_In, list_elem_of_fmap. exists f. split; [done|].
    apply elem_of_list_filter_bool. split; [done|]. by apply String.eqb_eq.
Qed.

Lemma feed_where_can_view (d : Db) (viewer : string) (post : Post) :
  feed_where d
    (followedId <$> List.filter (fun f => String.eqb (followerId f) viewer) (follows d)) post
  = can_view d viewer (authorId post).
Proof.
  unfold feed_where, can_view. destruct (users d !! authorId post) as [u|]; [|done].
  rewrite existsb_followed. by destruct (visibility u).
Qed.

(** X6. The feed's single query and the visibility resolver agree: a stored
    post qualifies for a viewer's feed exactly when the resolver lets that
    viewer see the post's author. *)
Theorem feed_filter_agrees_with_resolver (viewer : string) (post : Post) (w : World) :
  post ∈ qualifying_posts (db w) viewer <->
  post ∈ posts (db w)
  /\ (UserRepositoryImpl.isUserPublicOrFollowed viewer (authorId post) w).1 = inr true.
Proof.
  unfold qualifying_posts.
  by rewrite elem_of_list_filter_bool, feed_where_can_view, isUserPublicOrFollowed_true.
Qed.

(** X7. Nobody is granted a view of themself: for a well-formed id of a user
    who is not PUBLIC and has no self-edge (the follow service never creates
    one), listing one's own posts fails with the "invalid user" error before
    any post is fetched. *)
Theorem own_posts_denied_unless_public (userId : string) (u : User) (w : World) :
  isUUID userId = true ->
  users (db w) !! userId = Some u -> visibility u <> PUBLIC ->
  ~ follows_edge (db w) userId userId ->
  PostServiceImpl.getPostsByAuthor userId userId w
  = (inl InvalidUserException,
     record (RepositoryCall "UserRepository.isUserPublicOrFollowed" [userId; userId]) w).
Proof.
  intros Hid Hu Hvis Hno.
  unfold PostServiceImpl.getPostsByAuthor.
  rewrite (validate_uuid_pair_valid _ _ _ _ Hid Hid). unfold reject_invalid.
  rewrite bind_unfold. cbn [mret M_ret].
  rewrite bind_unfold, (isUserPublicOrFollowed_run _ _ _ Hid Hid).
  assert (can_view (db w) userId userId = false) as ->; [|done].
  unfold can_view. rewrite Hu. destruct (visibility u); try done.
  apply bool_decide_eq_false. by rewrite findFirst_follow_edge.
Qed.

Lemma own_posts_denied_unless_public_witness :
  PostServiceImpl.getPostsByAuthor Sample.bob Sample.bob Sample.w0
  = (inl InvalidUserException,
     record (RepositoryCall "UserRepository.isUserPublicOrFollowed" [Sample.bob; Sample.bob])
            Sample.w0).
Proof.
  apply (own_posts_denied_unless_public Sample.bob (Sample.mkUser "bob" PRIVATE) Sample.w0);
    try reflexivity; [discriminate|].
  intros (f & Hin & Hf & _). apply list_elem_of_singleton in Hin. subst f. discriminate Hf.
Defined.

(** ** Pages of the feed and of comments *)

Lemma sublist_rev {A : Type} (l1 l2 : list A) :
  l1 `sublist_of` l2 -> rev l1 `sublist_of` rev l2.
Proof.
  induction 1 as [|x l1 l2 _ IH|x l1 l2 _ IH]; cbn.
  - constructor.
  - by apply sublist_app.
  - rewrite <- (app_nil_r (rev l1)). apply sublist_app; [done|]. apply sublist_nil_l.
Qed.

Lemma StronglySorted_sublist {A : Type} (R : A -> A -> Prop) (l1 l2 : list A) :
  l1 `sublist_of` l2 -> StronglySorted R l2 -> StronglySorted R l1.
Proof.
  induction 1 as [|x l1 l2 Hsub IH|x l1 l2 Hsub IH]; intros Hs.
  - constructor.
  - apply StronglySorted_inv in Hs as [Hs Hx]. constructor; [by apply IH|].
    apply Forall_forall. intros y Hy. eapply Forall_forall in Hx; [exact Hx|].
    by eapply elem_of_sublist.
  - apply StronglySorted_inv in Hs as [Hs _]. by apply IH.
Qed.

Lemma StronglySorted_app_pairs {A : Type} (R : A -> A -> Prop) (l1 l2 : list A) (a b : A) :
  StronglySorted R (l1 ++ l2) -> a ∈ l1 -> b ∈ l2 -> R a b.
Proof.
  induction l1 as [|x l1 IH]; cbn; intros Hs Ha Hb.
  - by apply elem_of_nil in Ha.
  - apply StronglySorted_inv in Hs as [Hs Hx].
    apply elem_of_cons in Ha as [->|Ha]; [|by apply IH].
    eapply Forall_forall in Hx; [exact Hx|]. apply elem_of_app. by right.
Qed.

Section FindManyFacts.
Context {A F : Type}.
Variable rid : A -> string.
Variable compare_on : F -> A -> A -> comparison.
Variable pk : F.

Lemma from_cursor_sublist (q : FindManyArgs A F) (table scan : list A) :
  from_cursor rid compare_on pk q table scan `sublist_of` scan.
Proof.
  unfold from_cursor. destruct (q_cursor q); [|done].
  destruct (List.find _ table); [apply list_filter_sublist | apply sublist_nil_l].
Qed.

(** Whatever the options, the page is cut out of the filtered, sorted rows
    without reordering them. *)
Lemma findMany_sublist (table : list A) (q : FindManyArgs A F) :
  findMany rid compare_on pk table q
  `sublist_of` sort_rows compare_on (finalize_order pk q) (List.filter (q_where q) table).
Proof.
  unfold findMany.
  set (ordered := sort_rows _ _ _).
  assert (Hpage : forall scan,
            match q_take q with
            | Some n => firstn (Z.abs_nat n)
                          (drop (default 0%nat (q_skip q))
                                (from_cursor rid compare_on pk q table scan))
            | None => drop (default 0%nat (q_skip q))
                           (from_cursor rid compare_on pk q table scan)
            end `sublist_of` scan).
  { intros scan. destruct (q_take q).
    - etrans; [apply sublist_take|]. etrans; [apply sublist_drop|]. apply from_cursor_sublist.
    - etrans; [apply sublist_drop|]. apply from_cursor_sublist. }
  destruct (backwards q).
  - pose proof (sublist_rev _ _ (Hpage (rev ordered))) as Hrev.
    by rewrite rev_involutive in Hrev.
  - apply Hpage.
Qed.

Lemma findMany_elem (table : list A) (q : FindManyArgs A F) (x : A) :
  x ∈ findMany rid compare_on pk table q -> x ∈ table /\ q_where q x = true.
Proof.
  intros Hx. eapply elem_of_sublist in Hx; [|apply findMany_sublist].
  rewrite sort_rows_perm in Hx. by apply elem_of_list_filter_bool in Hx.
Qed.
End FindManyFacts.


Lemma not_after_precedes (a b : Post) :
  not_after (PostDTO_new a) (PostDTO_new b)
  <-> precedes post_compare_on feed_orderBy a b = true.
Proof. by rewrite feed_precedes_iff. Qed.


(** The rows a feed query selects, before they are turned into DTOs. *)
Lemma getAllByDatePaginated_run (userId : string) (options : CursorPagination) (w : World) :
  PostRepositoryImpl.getAllByDatePaginated userId options w
  = (inr (extend_post (db w) <$>
          post_findMany (posts (db w))
            {| q_where := feed_where (db w)
                            (followedId <$>
                             List.filter (fun f => String.eqb (followerId f) userId)
                                         (follows (db w)));
               q_orderBy := feed_orderBy;
               q_cursor := cursor_of options;
               q_skip := skip_of options;
               q_take := take_of options |}),
     record (RepositoryCall "PostRepository.getAllByDatePaginated" [userId]) w).
Proof. reflexivity. Qed.


Lemma feed_rows_viewable (userId : string) (options : CursorPagination) (w : World)
    (r : ExtendedPostDTO.t) :
  r ∈ extend_post (db w) <$>
        post_findMany (posts (db w))
          {| q_where := feed_where (db w)
                          (followedId <$>
                           List.filter (fun f => String.eqb (followerId f) userId)
                                       (follows (db w)));
             q_orderBy := feed_orderBy;
             q_cursor := cursor_of options;
             q_skip := skip_of options;
             q_take := take_of options |} ->
  exists post, post ∈ posts (db w) /\ r = extend_post (db w) post
               /\ can_view (db w) userId (authorId post) = true.
Proof.
  intros Hr. apply list_elem_of_fmap in Hr as (post & -> & Hpost).
  apply findMany_elem in Hpost as [Hin Hwhere]. cbn in Hwhere.
  exists post. split; [done|]. split; [done|]. by rewrite <- feed_where_can_view.
Qed.


Lemma StronglySorted_snoc {A : Type} (R : A -> A -> Prop) (l : list A) (x : A) :
  StronglySorted R l -> (forall y, y ∈ l -> R y x) -> StronglySorted R (l ++ [x]).
Proof.
  induction 1 as [|y l Hl IH Hy]; cbn; intros Hx.
  - constructor; constructor.
  - constructor.
    + apply IH. intros z Hz. apply Hx. by right.
    + apply Forall_app. split; [exact Hy|]. constructor; [|constructor].
      apply Hx. by left.
Qed.

Lemma StronglySorted_rev {A : Type} (R : A -> A -> Prop) (l : list A) :
  StronglySorted R l -> StronglySorted (fun a b => R b a) (rev l).
Proof.
  induction 1 as [|x l Hl IH Hx]; cbn; [constructor|].
  apply StronglySorted_snoc; [exact IH|].
  intros y Hy. apply list_elem_of_In, in_rev, list_elem_of_In in Hy.
  by eapply Forall_forall in Hx.
Qed.

(** In rows sorted by [R] that all come at or after [x], a [skip] of one
    drops [x] itself when it is among them. *)
Lemma cursor_row_skipped {A : Type} (R : A -> A -> Prop) (kept : list A) (x p : A) :
  StronglySorted R kept -> NoDup kept ->
  (forall y, y ∈ kept -> R x y) ->
  (forall y, y ∈ kept -> R y x -> y = x) ->
  p ∈ drop 1 kept -> p <> x.
Proof.
  intros Hs Hnd Hall Hanti Hp ->.
  destruct kept as [|h t]; [by apply elem_of_nil in Hp|]. cbn in Hp.
  apply StronglySorted_inv in Hs as [_ Hh].
  apply NoDup_cons in Hnd as [Hht _].
  assert (h = x) as ->; [|done].
  apply Hanti; [by left|]. by eapply Forall_forall in Hh.
Qed.

Lemma precedes_strictly_before (x p : Post) :
  precedes post_compare_on feed_orderBy p x = true ->
  post_id p <> post_id x ->
  strictly_before x (PostDTO_new p).
Proof.
  intros Hle Hne. apply feed_precedes_iff in Hle as [Hlt|[Heq Hleb]]; [by left|].
  right. split; [done|]. cbn. unfold String.leb in Hleb. unfold String.ltb.
  destruct (String.compare (post_id p) (post_id x)) eqn:Hc; try done.
  apply String.compare_eq_iff in Hc. congruence.
Qed.

Lemma rows_before_cursor (wh : Post -> bool) (table : list Post) (x p : Post) :
  NoDup (post_id <$> table) -> x ∈ table ->
  p ∈ drop 1 (List.filter (fun r => precedes post_compare_on feed_orderBy r x)
                (rev (sort_rows post_compare_on feed_orderBy (List.filter wh table)))) ->
  p ∈ table /\ post_id p <> post_id x /\ precedes post_compare_on feed_orderBy p x = true.
Proof.
  intros Hnd Hx Hp.
  set (sorted := sort_rows post_compare_on feed_orderBy (List.filter wh table)) in *.
  set (kept := List.filter (fun r => precedes post_compare_on feed_orderBy r x) (rev sorted)) in *.
  assert (Hsub : forall y, y ∈ kept ->
            y ∈ table /\ precedes post_compare_on feed_orderBy y x = true).
  { intros y Hy. apply elem_of_list_filter_bool in Hy as [Hy Hle]. split; [|exact Hle].
    apply list_elem_of_In, in_rev, list_elem_of_In in Hy.
    unfold sorted in Hy. rewrite sort_rows_perm in Hy.
    by apply elem_of_list_filter_bool in Hy as [Hy _]. }
  assert (Hkept_sorted : StronglySorted
            (fun a b => precedes post_compare_on feed_orderBy b a = true) kept).
  { apply StronglySorted_list_filter.
    apply (StronglySorted_rev (fun a b => precedes post_compare_on feed_orderBy a b = true)).
    apply sort_rows_sorted; [apply feed_precedes_total | apply feed_precedes_trans]. }
  assert (Hkept_nodup : NoDup kept).
  { eapply sublist_NoDup; [|apply list_filter_sublist].
    apply NoDup_ListNoDup, NoDup_rev, NoDup_ListNoDup.
    unfold sorted. rewrite sort_rows_perm.
    eapply sublist_NoDup; [|apply list_filter_sublist]. by apply NoDup_fmap_1 in Hnd. }
  destruct (Hsub p) as [Hpt Hle]; [by eapply elem_of_sublist; [|apply sublist_drop]|].
  split; [exact Hpt|]. split; [|exact Hle].
  intros Hid. assert (p = x) by by apply (unique_key post_id table).
  revert H. eapply cursor_row_skipped; [exact Hkept_sorted | exact Hkept_nodup | | | exact Hp].
  - intros y Hy. by apply Hsub.
  - intros y Hy Hxy. destruct (Hsub y Hy) as [Hyt Hyx].
    apply (unique_key post_id table); try done. by apply feed_precedes_antisym.
Qed.

(** X10. Backward paging: [getAllByDatePaginated] called with [before] set to
    the id of a stored post [x], no [after] and a positive [limit] returns at
    most [limit] records, none with [x]'s id, each strictly before [x] in the
    order (newer, or as old with a smaller id). *)
Theorem getAllByDatePaginated_before (userId : string) (n : Z) (x : Post) (w : World) :
  NoDup (post_id <$> posts (db w)) ->
  x ∈ posts (db w) ->
  post_id x <> "" ->
  0 < n ->
  exists page w',
    PostRepositoryImpl.getAllByDatePaginated userId
      {| limit := Some n; before := Some (post_id x); after := None |} w = (inr page, w')
    /\ Z.of_nat (length page) <= n
    /\ forall r, r ∈ page ->
         PostDTO.id (ExtendedPostDTO.base r) <> post_id x
         /\ strictly_before x (ExtendedPostDTO.base r).
Proof.
  intros Hnd Hx Hcursor Hn.
  rewrite getAllByDatePaginated_run. eexists _, _. split; [reflexivity|].
  unfold post_findMany, findMany, from_cursor, cursor_of, skip_of, take_of, backwards,
    finalize_order, truthy, truthy_num, nullish. cbn.
  assert (Hne : String.eqb (post_id x) "" = false) by by apply String.eqb_neq.
  assert (Hn0 : (n =? 0) = false) by lia.
  assert (Hneg : (- n <? 0) = true) by lia.
  rewrite Hne, Hn0. cbn. rewrite Hneg.
  rewrite (findUnique_stored post_id _ x Hnd Hx).
  split.
  - rewrite length_fmap, length_rev, length_take. lia.
  - intros r Hr. apply list_elem_of_fmap in Hr as (p & -> & Hp).
    apply list_elem_of_In, in_rev, list_elem_of_In in Hp.
    apply subseteq_take in Hp.
    apply rows_before_cursor in Hp as (Hpt & Hid & Hle); [|done..].
    split; [exact Hid|]. cbn. by apply precedes_strictly_before.
Qed.

Lemma getAllByDatePaginated_before_witness :
  exists page w',
    PostRepositoryImpl.getAllByDatePaginated Sample.bob
      {| limit := Some 2; before := Some Sample.p1; after := None |} Sample.w0 = (inr page, w')
    /\ Z.of_nat (length page) <= 2
    /\ forall r, r ∈ page ->
         PostDTO.id (ExtendedPostDTO.base r) <> Sample.p1
         /\ strictly_before (Sample.mkPost Sample.p1 Sample.alice 10 None) (ExtendedPostDTO.base r).
Proof.
  apply (getAllByDatePaginated_before Sample.bob 2
           (Sample.mkPost Sample.p1 Sample.alice 10 None) Sample.w0).
  - apply (bool_decide_unpack _). vm_compute. exact I.
  - apply list_elem_of_here.
  - discriminate.
  - lia.
Defined.

(** X11. The first page: with no cursor and a positive [limit], the feed
    query returns [min limit k] records, where [k] is the number of
    qualifying posts, and they are the newest: every qualifying post left out
    comes at or after every returned record in the order. *)
Theorem feed_first_page_is_newest (userId : string) (n : Z) (w : World) :
  0 < n ->
  exists page w',
    PostRepositoryImpl.getAllByDatePaginated userId
      {| limit := Some n; before := None; after := None |} w = (inr page, w')
    /\ length page = Nat.min (Z.to_nat n) (length (qualifying_posts (db w) userId))
    /\ forall r post,
         r ∈ page -> post ∈ qualifying_posts (db w) userId ->
         extend_post (db w) post ∉ page ->
         not_after (ExtendedPostDTO.base r) (PostDTO_new post).
Proof.
  intros Hn.
  rewrite getAllByDatePaginated_run. eexists _, _. split; [reflexivity|].
  unfold post_findMany, findMany, from_cursor, cursor_of, skip_of, take_of, backwards,
    finalize_order, truthy, truthy_num, nullish. cbn.
  assert (Hn0 : (n =? 0) = false) by lia.
  assert (Hneg : (n <? 0) = false) by lia.
  rewrite Hn0. cbn. rewrite Hneg. fold (qualifying_posts (db w) userId). fold feed_orderBy.
  set (sorted := sort_rows post_compare_on feed_orderBy (qualifying_posts (db w) userId)).
  assert (Hperm : Permutation sorted (qualifying_posts (db w) userId)) by apply sort_rows_perm.
  rewrite drop_0. split.
  - rewrite length_fmap, length_take, (Permutation_length Hperm). lia.
  - intros r post Hr Hpost Hout.
    apply list_elem_of_fmap in Hr as (p & -> & Hp). cbn.
    apply not_after_precedes.
    assert (Hs : StronglySorted (fun a b => precedes post_compare_on feed_orderBy a b = true)
                   (take (Z.abs_nat n) sorted ++ drop (Z.abs_nat n) sorted)).
    { rewrite take_drop. apply sort_rows_sorted;
        [apply feed_precedes_total | apply feed_precedes_trans]. }
    eapply (StronglySorted_app_pairs
              (fun a b => precedes post_compare_on feed_orderBy a b = true));
      [exact Hs | exact Hp |].
    rewrite <- Hperm, <- (take_drop (Z.abs_nat n) sorted) in Hpost.
    apply elem_of_app in Hpost as [Hin|Hin]; [|done].
    exfalso. apply Hout. apply list_elem_of_fmap. by exists post.
Qed.

Lemma feed_first_page_is_newest_witness :
  exists page w',
    PostRepositoryImpl.getAllByDatePaginated Sample.bob
      {| limit := Some 2; before := None; after := None |} Sample.w0 = (inr page, w')
    /\ length page = Nat.min (Z.to_nat 2) (length (qualifying_posts (db Sample.w0) Sample.bob))
    /\ forall r post,
         r ∈ page -> post ∈ qualifying_posts (db Sample.w0) Sample.bob ->
         extend_post (db Sample.w0) post ∉ page ->
         not_after (ExtendedPostDTO.base r) (PostDTO_new post).
Proof. apply (feed_first_page_is_newest Sample.bob 2 Sample.w0). lia. Defined.

(** X12. With no cursor and no limit the feed lists every qualifying post
    exactly once: the page is a rearrangement of the qualifying posts. *)
Theorem feed_without_options_lists_everything (userId : string) (w : World) :
  exists rows w',
    PostRepositoryImpl.getAllByDatePaginated userId
      {| limit := None; before := None; after := None |} w
    = (inr (extend_post (db w) <$> rows), w')
    /\ Permutation rows (qualifying_posts (db w) userId).
Proof.
  rewrite getAllByDatePaginated_run. eexists _, _. split; [reflexivity|].
  unfold post_findMany, findMany, from_cursor. cbn. apply sort_rows_perm.
Qed.


(** ** Signing image names *)

Lemma append_char_nonempty (acc : string) (c : ascii) : acc +:+ String c EmptyString <> "".
Proof. destruct acc; discriminate. Qed.

Lemma last_segment_empty (s acc : string) :
  last_segment s acc = "" <->
  match last_char s with
  | None => acc = ""
  | Some c => c = "."%char
  end.
Proof.
  revert acc. induction s as [|c s IH]; intros acc; cbn; [done|].
  destruct (Ascii.eqb_spec c ".") as [->|Hc].
  - rewrite IH. destruct (last_char s); [done|]. split; done.
  - rewrite IH. destruct (last_char s); [done|]. split; [|done].
    intros H. by apply append_char_nonempty in H.
Qed.

(** X14. The S3 helper rejects exactly the image names that are empty or end
    in a dot (nothing follows the last dot), with "Invalid file name"; for
    every other name it returns the presigner's URL for that name and its
    [image/<extension>] content type. It never touches the database. *)
Theorem generatePreSignedUrl_accepts (image : string) (w : World) :
  (image = "" \/ last_char image = Some "."%char ->
   generatePreSignedUrl image w = (inl (JsError ("Invalid file name: " +:+ image)), w))
  /\ (image <> "" -> last_char image <> Some "."%char ->
      exists url w',
        generatePreSignedUrl image w = (inr url, w')
        /\ signedUrl url
           = getSignedUrl (external w) image ("image/" +:+ last_segment image EmptyString)
        /\ db w' = db w /\ trace w' = trace w).
Proof.
  unfold generatePreSignedUrl. split.
  - intros Hbad. rewrite decide_True; [done|].
    apply last_segment_empty. destruct Hbad as [-> | ->]; done.
  - intros Hne Hdot. rewrite decide_False.
    + run. by eexists _, _.
    + rewrite last_segment_empty. destruct (last_char image) eqn:E; [congruence|].
      destruct image; [done | cbn in E; by destruct (last_char image)].
Qed.

Lemma generatePreSignedUrl_accepts_witness :
  generatePreSignedUrl "avatar." Sample.w0
  = (inl (JsError ("Invalid file name: " +:+ "avatar.")), Sample.w0)
  /\ exists url w',
       generatePreSignedUrl "avatar.png" Sample.w0 = (inr url, w')
       /\ signedUrl url
          = getSignedUrl (external Sample.w0) "avatar.png"
              ("image/" +:+ last_segment "avatar.png" EmptyString)
       /\ db w' = db Sample.w0 /\ trace w' = trace Sample.w0.
Proof.
  split.
  - apply (generatePreSignedUrl_accepts "avatar." Sample.w0). by right.
  - apply (generatePreSignedUrl_accepts "avatar.png" Sample.w0); discriminate.
Defined.

Lemma generatePreSignedUrl_ok (image : string) (w : World) :
  has_extension image = true ->
  generatePreSignedUrl image w
  = (inr {| signedUrl := signed_url (external w) image;
            key := randomUUID (external w) (draws w) +:+ "_" +:+ image |},
     after_draws 1 w).
Proof.
  unfold has_extension, generatePreSignedUrl. intros H.
  apply negb_true_iff, String.eqb_neq in H. by rewrite decide_False.
Qed.

Lemma generatePreSignedUrl_bad (image : string) (w : World) :
  has_extension image = false ->
  generatePreSignedUrl image w = (inl (JsError ("Invalid file name: " +:+ image)), w).
Proof.
  unfold has_extension, generatePreSignedUrl. intros H.
  apply negb_false_iff, String.eqb_eq in H. by rewrite decide_True.
Qed.

Lemma after_draws_after_draws (j k : nat) (w : World) :
  after_draws j (after_draws k w) = after_draws (j + k) w.
Proof. unfold after_draws. cbn. f_equal. lia. Qed.

Lemma generatePreSignedUrls_ok (images : list string) (w : World) :
  forallb has_extension images = true ->
  exists urls,
    generatePreSignedUrls images w = (inr urls, after_draws (length images) w)
    /\ signedUrl <$> urls = signed_url (external w) <$> images.
Proof.
  revert w. induction images as [|image rest IH]; intros w Hall; cbn.
  - exists []. split; [|done]. unfold after_draws. by destruct w.
  - cbn in Hall. apply andb_true_iff in Hall as [Himage Hrest].
    rewrite bind_unfold, (generatePreSignedUrl_ok _ _ Himage).
    destruct (IH (after_draws 1 w) Hrest) as (urls & Hrun & Hurls).
    rewrite bind_unfold, Hrun. eexists. split.
    + cbn. rewrite after_draws_after_draws. do 3 f_equal. lia.
    + cbn. by rewrite Hurls.
Qed.

Lemma generatePreSignedUrls_bad (images : list string) (w : World) :
  forallb has_extension images = false ->
  exists bad k,
    generatePreSignedUrls images w
    = (inl (JsError ("Invalid file name: " +:+ bad)), after_draws k w)
    /\ bad ∈ images /\ has_extension bad = false.
Proof.
  revert w. induction images as [|image rest IH]; intros w Hall; cbn in *; [done|].
  destruct (has_extension image) eqn:Himage; cbn in Hall.
  - rewrite bind_unfold, (generatePreSignedUrl_ok _ _ Himage).
    destruct (IH (after_draws 1 w) Hall) as (bad & k & Hrun & Hin & Hbad).
    rewrite bind_unfold, Hrun. exists bad, (k + 1)%nat.
    rewrite after_draws_after_draws. repeat split; [by right | done].
  - rewrite bind_unfold, (generatePreSignedUrl_bad _ _ Himage).
    exists image, 0%nat. split; [|split; [by left | done]].
    cbn. unfold after_draws. by destruct w.
Qed.

(** X15. Signing a list of image names is positional and all-or-nothing:
    when every name is acceptable the result has one URL per name, in the
    same order, each the presigner's URL of that name; when some name is not,
    the call fails with "Invalid file name" for such a name. The database and
    the trace are untouched either way. *)
Theorem generatePreSignedUrls_positional (images : list string) (w : World) :
  (forallb has_extension images = true ->
   exists urls w',
     generatePreSignedUrls images w = (inr urls, w')
     /\ length urls = length images
     /\ signedUrl <$> urls = signed_url (external w) <$> images
     /\ db w' = db w /\ trace w' = trace w)
  /\ (forallb has_extension images = false ->
      exists bad w',
        generatePreSignedUrls images w = (inl (JsError ("Invalid file name: " +:+ bad)), w')
        /\ bad ∈ images /\ has_extension bad = false
        /\ db w' = db w /\ trace w' = trace w).
Proof.
  split; intros H.
  - destruct (generatePreSignedUrls_ok images w H) as (urls & Hrun & Hurls).
    exists urls, (after_draws (length images) w). repeat split; try done.
    by rewrite <- (length_fmap signedUrl), Hurls, length_fmap.
  - destruct (generatePreSignedUrls_bad images w H) as (bad & k & Hrun & Hin & Hbad).
    by exists bad, (after_draws k w).
Qed.

Lemma generatePreSignedUrls_positional_witness :
  (exists urls w',
     generatePreSignedUrls ["a.png"; "b.jpg"] Sample.w0 = (inr urls, w')
     /\ length urls = length ["a.png"; "b.jpg"]
     /\ signedUrl <$> urls = signed_url (external Sample.w0) <$> ["a.png"; "b.jpg"]
     /\ db w' = db Sample.w0 /\ trace w' = trace Sample.w0)
  /\ (exists bad w',
        generatePreSignedUrls ["a.png"; ""] Sample.w0
        = (inl (JsError ("Invalid file name: " +:+ bad)), w')
        /\ bad ∈ ["a.png"; ""] /\ has_extension bad = false
        /\ db w' = db Sample.w0 /\ trace w' = trace Sample.w0).
Proof.
  split.
  - apply (generatePreSignedUrls_positional ["a.png"; "b.jpg"] Sample.w0). reflexivity.
  - apply (generatePreSignedUrls_positional ["a.png"; ""] Sample.w0). reflexivity.
Defined.

(** ** Creating and reading posts *)

Lemma post_create_run (data : CreatePostDTO) (w : World) :
  is_Some (users (db w) !! cp_userId data) ->
  PostRepositoryImpl.create data w
  = (inr (PostDTO_new {| post_id := randomUUID (external w) (draws w);
                         authorId := cp_userId data; content := cp_content data;
                         images := default [] (cp_images data); createdAt := clock w;
                         parentPostId := None |}),
     {| db := {| users := users (db w); follows := follows (db w);
                 posts := posts (db w) ++
                   [{| post_id := randomUUID (external w) (draws w);
                       authorId := cp_userId data; content := cp_content data;
                       images := default [] (cp_images data); createdAt := clock w;
                       parentPostId := None |}];
                 reactions := reactions (db w); messages := messages (db w) |};
        trace := trace w ++ [RepositoryCall "PostRepository.create" [cp_userId data]];
        draws := S (draws w); clock := clock w; external := external w |}).
Proof.
  intros [u Hu]. unfold PostRepositoryImpl.create. run. rewrite Hu. by run.
Qed.

Lemma post_create_refused (data : CreatePostDTO) (w : World) :
  users (db w) !! cp_userId data = None -> isUUID (cp_userId data) = true ->
  PostRepositoryImpl.create data w
  = (inl (foreign_key_failed "Post_authorId_fkey (index)"),
     record (RepositoryCall "PostRepository.create" [cp_userId data]) w).
Proof.
  intros Hu Hid. unfold PostRepositoryImpl.create. run. rewrite Hu. run. read_ids. by run.
Qed.

(** X16. [createPost] by a stored user with acceptable image names (or none)
    appends exactly one row to the post table: a top-level post of that
    author with the given content, the current time, and the presigner's
    URLs in place of the image names, one for one and in order; it returns
    that row's DTO. With an unacceptable image name it fails with "Invalid
    file name" and stores nothing. For a well-formed id (in canonical
    spelling) that is no stored user's, the store refuses the row (the
    author's foreign key) and nothing is stored. *)
Theorem createPost_stores_signed_images
    (userId content' : string) (images' : option (list string)) (w : World) :
  (is_Some (users (db w) !! userId) ->
   forallb has_extension (default [] images') = true ->
   exists post w',
     PostServiceImpl.createPost userId content' images' w = (inr (PostDTO_new post), w')
     /\ posts (db w') = (posts (db w) ++ [post])%list
     /\ authorId post = userId /\ content post = content'
     /\ images post = signed_url (external w) <$> default [] images'
     /\ createdAt post = clock w /\ parentPostId post = None
     /\ users (db w') = users (db w) /\ follows (db w') = follows (db w)
     /\ reactions (db w') = reactions (db w) /\ messages (db w') = messages (db w))
  /\ (forallb has_extension (default [] images') = false ->
      exists bad w',
        PostServiceImpl.createPost userId content' images' w
        = (inl (JsError ("Invalid file name: " +:+ bad)), w')
        /\ bad ∈ default [] images' /\ db w' = db w)
  /\ (isUUID userId = true -> canonical userId -> users (db w) !! userId = None ->
      forallb has_extension (default [] images') = true ->
      exists w',
        PostServiceImpl.createPost userId content' images' w
        = (inl (foreign_key_failed "Post_authorId_fkey (index)"), w')
        /\ db w' = db w).
Proof.
  unfold PostServiceImpl.createPost. cbn [cp_images]. split; [|split].
  - intros Hu Hall.
    destruct images' as [[|image rest]|]; change (default [] (Some ?l)) with l in *;
      change (default [] (@None (list string))) with (@nil string) in *.
    + rewrite bind_unfold. cbn [mret M_ret]. rewrite post_create_run by done.
      eexists _, _. split; [reflexivity|]. cbn. done.
    + destruct (generatePreSignedUrls_ok (image :: rest) w Hall) as (urls & Hrun & Hurls).
      rewrite bind_unfold, bind_unfold, Hrun. cbn [mret M_ret].
      rewrite post_create_run by done.
      eexists _, _. split; [reflexivity|]. cbn. rewrite Hurls. done.
    + rewrite bind_unfold. cbn [mret M_ret]. rewrite post_create_run by done.
      eexists _, _. split; [reflexivity|]. cbn. done.
  - intros Hall.
    destruct images' as [[|image rest]|]; change (default [] (Some ?l)) with l in *;
      change (default [] (@None (list string))) with (@nil string) in *; try done.
    destruct (generatePreSignedUrls_bad (image :: rest) w Hall) as (bad & k & Hrun & Hin & Hbad).
    rewrite bind_unfold, bind_unfold, Hrun. by exists bad, (after_draws k w).
  - intros Hid _ Hu Hall.
    destruct images' as [[|image rest]|]; change (default [] (Some ?l)) with l in *;
      change (default [] (@None (list string))) with (@nil string) in *.
    + rewrite bind_unfold. cbn [mret M_ret]. rewrite post_create_refused by done.
      by eexists.
    + destruct (generatePreSignedUrls_ok (image :: rest) w Hall) as (urls & Hrun & Hurls).
      rewrite bind_unfold, bind_unfold, Hrun. cbn [mret M_ret].
      rewrite post_create_refused by done. by eexists.
    + rewrite bind_unfold. cbn [mret M_ret]. rewrite post_create_refused by done.
      by eexists.
Qed.

Lemma createPost_stores_signed_images_witness :
  (exists post w',
     PostServiceImpl.createPost Sample.alice "hola" (Some ["a.png"; "b.jpg"]) Sample.w0
     = (inr (PostDTO_new post), w')
     /\ posts (db w') = (posts (db Sample.w0) ++ [post])%list
     /\ authorId post = Sample.alice /\ content post = "hola"
     /\ images post = signed_url (external Sample.w0) <$> default [] (Some ["a.png"; "b.jpg"])
     /\ createdAt post = clock Sample.w0 /\ parentPostId post = None
     /\ users (db w') = users (db Sample.w0) /\ follows (db w') = follows (db Sample.w0)
     /\ reactions (db w') = reactions (db Sample.w0)
     /\ messages (db w') = messages (db Sample.w0))
  /\ (exists bad w',
        PostServiceImpl.createPost Sample.alice "hola" (Some ["a.png"; "b."]) Sample.w0
        = (inl (JsError ("Invalid file name: " +:+ bad)), w')
        /\ bad ∈ default [] (Some ["a.png"; "b."]) /\ db w' = db Sample.w0)
  /\ (exists w',
        PostServiceImpl.createPost Sample.p1 "hola" None Sample.w0
        = (inl (foreign_key_failed "Post_authorId_fkey (index)"), w')
        /\ db w' = db Sample.w0).
Proof.
  split; [|split].
  - apply (createPost_stores_signed_images Sample.alice "hola" (Some ["a.png"; "b.jpg"])
             Sample.w0); [by eexists | reflexivity].
  - apply (createPost_stores_signed_images Sample.alice "hola" (Some ["a.png"; "b."])
             Sample.w0). reflexivity.
  - apply (createPost_stores_signed_images Sample.p1 "hola" None Sample.w0); reflexivity.
Defined.

(** ** C9: the size limits of a post *)

Lemma validate_post_content_ok (data : PostContentDTO) :
  validate_post_content data = [] <-> content_ok data.
Proof.
  unfold validate_post_content, content_ok, check.
  destruct (decide (pc_content data = "")) as [Hempty|Hfull];
    [split; [by destruct (240 <? _)%nat | by intros [? _]]|].
  destruct (240 <? char_length (pc_content data))%nat eqn:Hlen; cbn [app].
  { split; [done|]. intros (_ & Hle & _). apply Nat.ltb_lt in Hlen. lia. }
  apply Nat.ltb_ge in Hlen.
  destruct (pc_images data) as [images|]; cbn [app];
    [|split; [intros _; split; [done|split; [done|by intros ?]] | done]].
  destruct (4 <? length images)%nat eqn:Hsize; cbn [app].
  { split; [done|]. intros (_ & _ & Himgs). destruct (Himgs images eq_refl) as [Hle _].
    apply Nat.ltb_lt in Hsize. lia. }
  apply Nat.ltb_ge in Hsize.
  destruct (forallb _ images) eqn:Hnames; cbn [app].
  - split; [|done]. intros _. split; [done|]. split; [done|].
    intros ? [= <-]. split; [done|]. intros image Hin.
    rewrite forallb_forall in Hnames. apply Nat.leb_le, Hnames. by apply list_elem_of_In.
  - split; [done|]. intros (_ & _ & Himgs). destruct (Himgs images eq_refl) as [_ Hall].
    assert (forallb (fun image => (char_length image <=? 100)%nat) images = true) as Habs.
    { apply forallb_forall. intros image Hin. apply Nat.leb_le, Hall. by apply list_elem_of_In. }
    congruence.
Qed.





Lemma post_getById_run (postId : string) (w : World) :
  isUUID postId = true ->
  PostRepositoryImpl.getById postId w
  = (inr (PostDTO_new <$> findUnique post_id (posts (db w)) postId),
     record (RepositoryCall "PostRepository.getById" [postId]) w).
Proof.
  intros Hid. unfold PostRepositoryImpl.getById. run. read_ids. cbn.
  by destruct (findUnique post_id (posts (db w)) postId).
Qed.

(** X17. [getPost] with well-formed ids: a post id in canonical spelling
    under which nothing is stored is NotFound; a stored post whose author the
    resolver does not let the viewer see (viewer and author given by ids in
    canonical spelling) is refused with the "invalid user" error, after the
    post fetch and the permission check only; and a returned post is the
    stored row with each image name replaced by its presigned URL. Nothing
    is written. *)
Theorem getPost_outcomes (userId postId : string) (w : World) :
  isUUID userId = true -> isUUID postId = true ->
  (canonical postId -> findUnique post_id (posts (db w)) postId = None ->
   PostServiceImpl.getPost userId postId w
   = (inl (NotFoundException (Some "post")),
      record (RepositoryCall "PostRepository.getById" [postId]) w))
  /\ (forall post,
        findUnique post_id (posts (db w)) postId = Some post ->
        isUUID (authorId post) = true -> canonical userId -> canonical (authorId post) ->
        can_view (db w) userId (authorId post) = false ->
        PostServiceImpl.getPost userId postId w
        = (inl InvalidUserException,
           record (RepositoryCall "UserRepository.isUserPublicOrFollowed"
                     [userId; authorId post])
             (record (RepositoryCall "PostRepository.getById" [postId]) w)))
  /\ (forall result w',
        PostServiceImpl.getPost userId postId w = (inr result, w') ->
        db w' = db w
        /\ exists post,
             findUnique post_id (posts (db w)) postId = Some post
             /\ can_view (db w) userId (authorId post) = true
             /\ result = PostDTO.set_images (PostDTO_new post)
                           (signed_url (external w) <$> images post)).
Proof.
  intros Hu Hp. unfold PostServiceImpl.getPost.
  rewrite (validate_uuid_pair_valid _ _ _ _ Hu Hp). unfold reject_invalid.
  rewrite bind_unfold. cbn [mret M_ret]. rewrite bind_unfold, post_getById_run by done.
  destruct (findUnique post_id (posts (db w)) postId) as [post|]; cbn [fmap option_fmap option_map].
  - rewrite bind_unfold. cbn [db record PostDTO.authorId PostDTO_new].
    split; [done|]. split.
    + intros ? [= <-] Hauthor _ _ Hv.
      rewrite isUserPublicOrFollowed_run by done. cbn [db record]. by rewrite Hv.
    + intros result w'.
      pose proof (isUserPublicOrFollowed_true userId (authorId post)
                    (record (RepositoryCall "PostRepository.getById" [postId]) w)) as Htrue.
      destruct (UserRepositoryImpl.isUserPublicOrFollowed userId (authorId post) _)
        as [[e|[|]] w1] eqn:Hrun; cbn [negb]; try discriminate.
      apply proj1 in Htrue. specialize (Htrue eq_refl). cbn [db record] in Htrue.
      pose proof (isUserPublicOrFollowed_world userId (authorId post)
                    (record (RepositoryCall "PostRepository.getById" [postId]) w)) as Hw1.
      rewrite Hrun in Hw1. cbn [snd] in Hw1. subst w1. clear Hrun. rename Htrue into Hv.
      cbn [PostDTO.images PostDTO_new].
      destruct (images post) as [|image rest] eqn:Himages.
      * intros [= <- <-]. split; [done|]. exists post. split; [done|]. split; [done|].
        unfold PostDTO.set_images, PostDTO_new. cbn. by rewrite Himages.
      * destruct (forallb has_extension (image :: rest)) eqn:Hall.
        -- destruct (generatePreSignedUrls_ok _
                       (record (RepositoryCall "UserRepository.isUserPublicOrFollowed"
                                  [userId; authorId post])
                          (record (RepositoryCall "PostRepository.getById" [postId]) w)) Hall)
             as (urls & Hrun & Hurls).
           rewrite bind_unfold, Hrun. intros [= <- <-]. split; [done|].
           exists post. split; [done|]. split; [done|]. by rewrite Himages, Hurls.
        -- destruct (generatePreSignedUrls_bad _
                       (record (RepositoryCall "UserRepository.isUserPublicOrFollowed"
                                  [userId; authorId post])
                          (record (RepositoryCall "PostRepository.getById" [postId]) w)) Hall)
             as (bad & k & Hrun & _).
           rewrite bind_unfold, Hrun. discriminate.
  - split; [done|]. split; [done|]. discriminate.
Qed.

Lemma getPost_outcomes_witness :
  exists post,
    findUnique post_id (posts (db Sample.w0)) Sample.p4 = Some post
    /\ (PostServiceImpl.getPost Sample.bob Sample.p4 Sample.w0).1
       = inr (PostDTO.set_images (PostDTO_new post)
                (signed_url (external Sample.w0) <$> images post)).
Proof.
  destruct (getPost_outcomes Sample.bob Sample.p4 Sample.w0 eq_refl eq_refl) as (_ & _ & Hok).
  destruct (Hok (PostDTO_new (Sample.mkPost Sample.p4 Sample.alice 30 (Some Sample.p1)))
                (record (RepositoryCall "UserRepository.isUserPublicOrFollowed"
                           [Sample.bob; Sample.alice])
                   (record (RepositoryCall "PostRepository.getById" [Sample.p4]) Sample.w0))
                eq_refl) as (_ & post & Hfind & _ & _).
  exists post. split; [exact Hfind|].
  injection Hfind as <-. reflexivity.
Defined.

Lemma set_images_nil (p : PostDTO.t) :
  PostDTO.images p = [] -> PostDTO.set_images p [] = p.
Proof. destruct p as [i a c imgs t]. cbn. by intros ->. Qed.

Lemma external_after_draws (k : nat) (w : World) : external (after_draws k w) = external w.
Proof. reflexivity. Qed.

(** Signing one record gives [signed_record] and writes nothing. *)
Lemma sign_post_signed (strict : bool) (r r' : ExtendedPostDTO.t) (w w' : World) :
  PostServiceImpl.sign_post strict r w = (inr r', w') ->
  r' = signed_record (external w) r
  /\ db w' = db w /\ trace w' = trace w /\ external w' = external w.
Proof.
  unfold PostServiceImpl.sign_post. rewrite bind_unfold.
  assert (Hfirst : exists k,
            (match PostDTO.images (ExtendedPostDTO.base r) with
             | [] => mret r
             | image :: rest =>
                 generatePreSignedUrls (image :: rest)
                 ≫= (fun preSignedUrls =>
                       mret (ExtendedPostDTO.set_images r (signedUrl <$> preSignedUrls)))
             end) w
            = (inr (ExtendedPostDTO.set_images r
                      (signed_url (external w) <$> PostDTO.images (ExtendedPostDTO.base r))),
               after_draws k w)
            \/ exists e w1,
                 (match PostDTO.images (ExtendedPostDTO.base r) with
                  | [] => mret r
                  | image :: rest =>
                      generatePreSignedUrls (image :: rest)
                      ≫= (fun preSignedUrls =>
                            mret (ExtendedPostDTO.set_images r (signedUrl <$> preSignedUrls)))
                  end) w = (inl e, w1)).
  { destruct (PostDTO.images (ExtendedPostDTO.base r)) as [|image rest] eqn:Himages.
    - exists 0%nat. left. unfold after_draws, ExtendedPostDTO.set_images.
      cbn [fmap list_fmap]. rewrite (set_images_nil _ Himages). destruct r, w. reflexivity.
    - destruct (forallb has_extension (image :: rest)) eqn:Hall.
      + destruct (generatePreSignedUrls_ok _ w Hall) as (urls & Hrun & Hurls).
        eexists. left. rewrite bind_unfold, Hrun. cbn [mret M_ret]. by rewrite Hurls.
      + destruct (generatePreSignedUrls_bad _ w Hall) as (bad & k & Hrun & _).
        exists 0%nat. right. eexists _, _. by rewrite bind_unfold, Hrun. }
  destruct Hfirst as (k & [Hrun|(e & w1 & Hrun)]); rewrite Hrun; [|discriminate].
  cbn [ExtendedPostDTO.author ExtendedPostDTO.set_images].
  unfold signed_record.
  destruct (ExtendedPostDTO.author r) as [a|] eqn:Hauthor; cbn [fmap option_fmap option_map].
  - unfold signed_author. destruct (truthy (profilePicture a)).
    + destruct (has_extension (default "" (profilePicture a))) eqn:Hext.
      * rewrite bind_unfold, (generatePreSignedUrl_ok _ _ Hext). intros [= <- <-].
        by repeat split.
      * rewrite bind_unfold, (generatePreSignedUrl_bad _ _ Hext). discriminate.
    + intros [= <- <-]. split; [|done].
      unfold ExtendedPostDTO.set_images. by rewrite Hauthor.
  - destruct strict; [discriminate|]. intros [= <- <-]. split; [|done].
    unfold ExtendedPostDTO.set_images. by rewrite Hauthor.
Qed.

Lemma for_each_sign_signed (strict : bool) (rs rs' : list ExtendedPostDTO.t) (w w' : World) :
  for_each (PostServiceImpl.sign_post strict) rs w = (inr rs', w') ->
  rs' = signed_record (external w) <$> rs
  /\ db w' = db w /\ trace w' = trace w /\ external w' = external w.
Proof.
  revert rs' w w'. induction rs as [|r rs IH]; intros rs' w w'; cbn.
  - intros [= <- <-]. by repeat split.
  - rewrite bind_unfold.
    destruct (PostServiceImpl.sign_post strict r w) as [[e|r1] w1] eqn:Hr; [discriminate|].
    apply sign_post_signed in Hr as (-> & Hdb & Htr & Hext).
    rewrite bind_unfold.
    destruct (for_each (PostServiceImpl.sign_post strict) rs w1) as [[e|rs1] w2] eqn:Hrs;
      [discriminate|].
    apply IH in Hrs as (-> & Hdb2 & Htr2 & Hext2).
    intros [= <- <-]. rewrite Hext. repeat split; congruence.
Qed.

(** X18. What [getLatestPosts] returns is the repository's feed page, record
    for record and in the same order, each image name and each profile
    picture replaced by its presigned URL and every other field as fetched;
    so every returned post has an author the resolver lets the viewer see.
    Nothing is written. *)
Theorem getLatestPosts_returns_feed_page
    (userId : string) (options : CursorPagination) (page : list ExtendedPostDTO.t)
    (w w' : World) :
  PostServiceImpl.getLatestPosts userId options w = (inr page, w') ->
  db w' = db w
  /\ (exists fetched,
        (PostRepositoryImpl.getAllByDatePaginated userId options w).1 = inr fetched
        /\ page = signed_record (external w) <$> fetched)
  /\ forall r, r ∈ page ->
       can_view (db w) userId (PostDTO.authorId (ExtendedPostDTO.base r)) = true.
Proof.
  unfold PostServiceImpl.getLatestPosts.
  rewrite bind_unfold, getAllByDatePaginated_run.
  pose proof (feed_rows_viewable userId options w) as Hview.
  destruct (extend_post (db w) <$> _) as [|r0 rest] eqn:Hfetched; [discriminate|].
  rewrite <- Hfetched in *.
  intros Hsign. apply for_each_sign_signed in Hsign as (-> & Hdb & _).
  split; [by rewrite Hdb|]. split; [by eexists|].
  intros r Hr. apply list_elem_of_fmap in Hr as (r1 & -> & Hr1).
  destruct (Hview r1 Hr1) as (post & _ & -> & Hv). done.
Qed.

Lemma getLatestPosts_returns_feed_page_witness :
  exists page w',
    PostServiceImpl.getLatestPosts Sample.bob
      {| limit := Some 2; before := None; after := None |} Sample.w0 = (inr page, w')
    /\ db w' = db Sample.w0
    /\ forall r, r ∈ page ->
         can_view (db Sample.w0) Sample.bob (PostDTO.authorId (ExtendedPostDTO.base r)) = true.
Proof.
  eexists _, _. split; [reflexivity|].
  split; eapply (getLatestPosts_returns_feed_page Sample.bob
                   {| limit := Some 2; before := None; after := None |}); reflexivity.
Defined.

(** X19. What [getPostsByAuthor] returns is one record per stored row whose
    author is the asked one, in table order and comments included, each
    image name and each profile picture replaced by its presigned URL and
    every other field as stored; and it returns only when the resolver lets
    the viewer see the author. *)
Theorem getPostsByAuthor_returns_authored
    (userId author : string) (page : list ExtendedPostDTO.t) (w w' : World) :
  PostServiceImpl.getPostsByAuthor userId author w = (inr page, w') ->
  db w' = db w
  /\ can_view (db w) userId author = true
  /\ page = signed_record (external w) <$>
              (extend_post (db w) <$>
               List.filter (fun p => String.eqb (authorId p) author) (posts (db w))).
Proof.
  unfold PostServiceImpl.getPostsByAuthor, reject_invalid.
  destruct (validate_uuid_pair _ _ _ _) eqn:Hval; [|discriminate].
  apply validate_uuid_pair_nil in Hval as [Hu Ha].
  rewrite bind_unfold. cbn [mret M_ret].
  rewrite bind_unfold, isUserPublicOrFollowed_run by done.
  destruct (can_view (db w) userId author) eqn:Hv; cbn [negb]; [|discriminate].
  rewrite bind_unfold.
  change (PostRepositoryImpl.getByAuthorId author
            (record (RepositoryCall "UserRepository.isUserPublicOrFollowed" [userId; author]) w))
    with (@inr Exception _
            (extend_post (db w) <$>
             List.filter (fun p => String.eqb (authorId p) author) (posts (db w))),
          record (RepositoryCall "PostRepository.getByAuthorId" [author])
            (record (RepositoryCall "UserRepository.isUserPublicOrFollowed" [userId; author])
               w)).
  destruct (extend_post (db w) <$> _) as [|r0 rest] eqn:Hrows; [discriminate|].
  intros Hsign. apply for_each_sign_signed in Hsign as (-> & Hdb & _).
  split; [by rewrite Hdb|]. split; [done|]. done.
Qed.

Lemma getPostsByAuthor_returns_authored_witness :
  exists page w',
    PostServiceImpl.getPostsByAuthor Sample.bob Sample.alice Sample.w0 = (inr page, w')
    /\ db w' = db Sample.w0
    /\ can_view (db Sample.w0) Sample.bob Sample.alice = true
    /\ page = signed_record (external Sample.w0) <$>
                (extend_post (db Sample.w0) <$>
                 List.filter (fun p => String.eqb (authorId p) Sample.alice)
                             (posts (db Sample.w0))).
Proof.
  eexists _, _. split; [reflexivity|].
  apply (getPostsByAuthor_returns_authored Sample.bob Sample.alice). reflexivity.
Defined.

Lemma post_delete_run (referential : string -> Db -> Db) (postId : string) (w : World) :
  PostRepositoryImpl.delete referential postId w
  = match findUnique post_id (posts (db w)) postId with
    | None => (inl (JsError "Record to delete does not exist."),
               record (RepositoryCall "PostRepository.delete" [postId]) w)
    | Some _ =>
        (inr tt,
         set_db (referential postId (without_post postId (db w)))
           (record (RepositoryCall "PostRepository.delete" [postId]) w))
    end.
Proof.
  unfold PostRepositoryImpl.delete. run.
  by destruct (findUnique post_id (posts (db w)) postId).
Qed.

Lemma comment_delete_run (referential : string -> Db -> Db) (postId : string) (w : World) :
  CommentRepositoryImpl.delete referential postId w
  = match findUnique post_id (posts (db w)) postId with
    | None => (inl (JsError "Record to delete does not exist."),
               record (RepositoryCall "CommentRepository.delete" [postId]) w)
    | Some _ =>
        (inr tt,
         set_db (referential postId (without_post postId (db w)))
           (record (RepositoryCall "CommentRepository.delete" [postId]) w))
    end.
Proof.
  unfold CommentRepositoryImpl.delete. run.
  by destruct (findUnique post_id (posts (db w)) postId).
Qed.

Lemma comment_getById_run (postId : string) (w : World) :
  isUUID postId = true ->
  CommentRepositoryImpl.getById postId w
  = (inr (findUnique post_id (posts (db w)) postId),
     record (RepositoryCall "CommentRepository.getById" [postId]) w).
Proof.
  intros Hid. unfold CommentRepositoryImpl.getById. run. read_ids. cbn.
  by destruct (findUnique post_id (posts (db w)) postId).
Qed.

Lemma deletePost_run (referential : string -> Db -> Db) (userId postId : string) (w : World) :
  isUUID userId = true -> isUUID postId = true ->
  PostServiceImpl.deletePost referential userId postId w
  = let w1 := record (RepositoryCall "PostRepository.getById" [postId]) w in
    match findUnique post_id (posts (db w)) postId with
    | None => (inl (NotFoundException (Some "post")), w1)
    | Some post =>
        if decide (authorId post = userId)
        then (inr tt,
              set_db (referential postId (without_post postId (db w)))
                (record (RepositoryCall "PostRepository.delete" [postId]) w1))
        else (inl ForbiddenException, w1)
    end.
Proof.
  intros Hu Hp. unfold PostServiceImpl.deletePost, reject_invalid.
  rewrite (validate_uuid_pair_valid _ _ _ _ Hu Hp).
  rewrite bind_unfold. cbn [mret M_ret]. rewrite bind_unfold, post_getById_run by done.
  destruct (findUnique post_id (posts (db w)) postId) as [post|] eqn:Hfind; cbn; [|done].
  destruct (decide (authorId post = userId)); [|done].
  rewrite post_delete_run. cbn. by rewrite Hfind.
Qed.

Lemma deleteComment_run (referential : string -> Db -> Db) (userId postId : string) (w : World) :
  isUUID userId = true -> isUUID postId = true ->
  CommentServiceImpl.deleteComment referential userId postId w
  = let w1 := record (RepositoryCall "CommentRepository.getById" [postId]) w in
    match findUnique post_id (posts (db w)) postId with
    | None => (inl (NotFoundException (Some "comment")), w1)
    | Some post =>
        if decide (authorId post = userId)
        then (inr tt,
              set_db (referential postId (without_post postId (db w)))
                (record (RepositoryCall "CommentRepository.delete" [postId]) w1))
        else (inl ForbiddenException, w1)
    end.
Proof.
  intros Hu Hp. unfold CommentServiceImpl.deleteComment, reject_invalid.
  rewrite (validate_uuid_pair_valid _ _ _ _ Hu Hp).
  rewrite bind_unfold. cbn [mret M_ret]. rewrite bind_unfold, comment_getById_run by done.
  destruct (findUnique post_id (posts (db w)) postId) as [post|] eqn:Hfind; cbn; [|done].
  destruct (decide (authorId post = userId)); [|done].
  rewrite comment_delete_run. cbn. by rewrite Hfind.
Qed.

Lemma without_post_gone (postId : string) (d : Db) :
  findUnique post_id (posts (without_post postId d)) postId = None.
Proof.
  unfold findUnique, without_post. cbn.
  destruct (List.find _ _) as [p|] eqn:E; [|done].
  apply find_some in E as [Hin Hk]. apply filter_In in Hin as [_ Hne].
  by rewrite Hk in Hne.
Qed.

Lemma without_post_others (postId other : string) (d : Db) :
  other <> postId ->
  findUnique post_id (posts (without_post postId d)) other
  = findUnique post_id (posts d) other.
Proof.
  intros Hne. unfold findUnique, without_post. cbn.
  induction (posts d) as [|p l IH]; cbn; [done|].
  destruct (String.eqb (post_id p) postId) eqn:Hp; cbn.
  - apply String.eqb_eq in Hp.
    destruct (String.eqb (post_id p) other) eqn:Ho; [|done].
    apply String.eqb_eq in Ho. congruence.
  - by rewrite IH.
Qed.

(** X20. [deletePost] with well-formed ids, the post's in canonical
    spelling, succeeds exactly when the post is stored and the caller is its
    author; then only the row of that id leaves the post table (before the
    store's referential actions). A post that is not stored is NotFound,
    another user's post is Forbidden, and a refused deletion leaves the
    database as it was. *)
Theorem deletePost_only_by_author
    (referential : string -> Db -> Db) (userId postId : string) (w : World) :
  isUUID userId = true -> isUUID postId = true -> canonical postId ->
  let out := PostServiceImpl.deletePost referential userId postId w in
  (out.1 = inr tt <->
     exists post, findUnique post_id (posts (db w)) postId = Some post /\ authorId post = userId)
  /\ (out.1 = inr tt ->
        db out.2 = referential postId (without_post postId (db w))
        /\ findUnique post_id (posts (without_post postId (db w))) postId = None
        /\ forall other, other <> postId ->
             findUnique post_id (posts (without_post postId (db w))) other
             = findUnique post_id (posts (db w)) other)
  /\ (out.1 <> inr tt -> db out.2 = db w)
  /\ (findUnique post_id (posts (db w)) postId = None ->
        out.1 = inl (NotFoundException (Some "post")))
  /\ (forall post, findUnique post_id (posts (db w)) postId = Some post ->
        authorId post <> userId -> out.1 = inl ForbiddenException).
Proof.
  intros Hu Hp _. cbn zeta. rewrite (deletePost_run _ _ _ _ Hu Hp). cbn zeta.
  destruct (findUnique post_id (posts (db w)) postId) as [post|] eqn:Hfind.
  - destruct (decide (authorId post = userId)) as [Hown|Hother]; cbn.
    + split; [split; [by exists post|done]|].
      split; [intros _; split; [done|split; [apply without_post_gone|]];
              intros other Hne; by apply without_post_others|].
      split; [done|]. split; [done|]. intros post' [= <-]. done.
    + split; [split; [done|intros (post' & [= <-] & Hown); done]|].
      split; [done|]. split; [done|]. split; [done|]. done.
  - cbn. split; [split; [done|by intros (post' & ? & _)]|].
    split; [done|]. split; [done|]. split; [done|]. done.
Qed.

Lemma deletePost_only_by_author_witness :
  (PostServiceImpl.deletePost (fun _ d => d) Sample.alice Sample.p1 Sample.w0).1 = inr tt
  /\ findUnique post_id
       (posts (db (PostServiceImpl.deletePost (fun _ d => d) Sample.alice Sample.p1 Sample.w0).2))
       Sample.p1 = None.
Proof.
  destruct (deletePost_only_by_author (fun _ d => d) Sample.alice Sample.p1 Sample.w0
              eq_refl eq_refl eq_refl) as (Hiff & Hdone & _).
  assert (Hok : (PostServiceImpl.deletePost (fun _ d => d) Sample.alice Sample.p1 Sample.w0).1
                = inr tt).
  { apply Hiff. eexists. split; reflexivity. }
  split; [exact Hok|].
  destruct (Hdone Hok) as (-> & Hgone & _). exact Hgone.
Defined.

(** X21. Once [deletePost] has succeeded, [getPost] on the same id answers
    NotFound for every viewer, provided the store's referential actions add
    no row under the deleted id. *)
Theorem deleted_post_is_not_found
    (referential : string -> Db -> Db) (userId postId viewer : string) (w w' : World) :
  (forall d, findUnique post_id (posts d) postId = None ->
             findUnique post_id (posts (referential postId d)) postId = None) ->
  isUUID viewer = true ->
  PostServiceImpl.deletePost referential userId postId w = (inr tt, w') ->
  (PostServiceImpl.getPost viewer postId w').1 = inl (NotFoundException (Some "post")).
Proof.
  intros Href Hv Hdel.
  assert (Hids : isUUID userId = true /\ isUUID postId = true).
  { apply (validate_uuid_pair_nil "userId" _ "postId").
    unfold PostServiceImpl.deletePost, reject_invalid in Hdel.
    by destruct (validate_uuid_pair _ _ _ _). }
  destruct Hids as [Hu Hp]. rewrite (deletePost_run _ _ _ _ Hu Hp) in Hdel. cbn zeta in Hdel.
  destruct (findUnique post_id (posts (db w)) postId) as [post|]; [|discriminate].
  destruct (decide (authorId post = userId)); [|discriminate].
  injection Hdel as <-.
  unfold PostServiceImpl.getPost, reject_invalid.
  rewrite (validate_uuid_pair_valid _ _ _ _ Hv Hp).
  rewrite bind_unfold. cbn [mret M_ret]. rewrite bind_unfold, post_getById_run by done.
  cbn [db set_db].
  by rewrite (Href _ (without_post_gone postId (db w))).
Qed.

Lemma deleted_post_is_not_found_witness :
  exists w',
    PostServiceImpl.deletePost (fun _ d => d) Sample.alice Sample.p1 Sample.w0 = (inr tt, w')
    /\ (PostServiceImpl.getPost Sample.bob Sample.p1 w').1
       = inl (NotFoundException (Some "post")).
Proof.
  eexists. split; [reflexivity|].
  apply (deleted_post_is_not_found (fun _ d => d) Sample.alice Sample.p1 Sample.bob Sample.w0);
    [intros d H; exact H | reflexivity | reflexivity].
Defined.

(** X22. [deleteComment] never looks at [parentPostId]: on a stored row it
    gives the result of [deletePost] and leaves the same database, so an
    author can remove a top-level post through it. *)
Theorem deleteComment_deletes_any_owned_row
    (referential : string -> Db -> Db) (userId postId : string) (w : World) :
  is_Some (findUnique post_id (posts (db w)) postId) ->
  (CommentServiceImpl.deleteComment referential userId postId w).1
  = (PostServiceImpl.deletePost referential userId postId w).1
  /\ db (CommentServiceImpl.deleteComment referential userId postId w).2
     = db (PostServiceImpl.deletePost referential userId postId w).2.
Proof.
  intros [post Hfind].
  destruct (validate_uuid_pair "userId" userId "postId" postId) as [|e es] eqn:Hval.
  - apply validate_uuid_pair_nil in Hval as [Hu Hp].
    rewrite (deleteComment_run _ _ _ _ Hu Hp), (deletePost_run _ _ _ _ Hu Hp). cbn zeta.
    rewrite Hfind. by destruct (decide (authorId post = userId)).
  - unfold CommentServiceImpl.deleteComment, PostServiceImpl.deletePost, reject_invalid.
    by rewrite Hval.
Qed.

Lemma deleteComment_deletes_any_owned_row_witness :
  (CommentServiceImpl.deleteComment (fun _ d => d) Sample.alice Sample.p1 Sample.w0).1 = inr tt
  /\ exists post,
       findUnique post_id (posts (db Sample.w0)) Sample.p1 = Some post
       /\ parentPostId post = None.
Proof.
  split.
  - rewrite (proj1 (deleteComment_deletes_any_owned_row (fun _ d => d) Sample.alice Sample.p1
                      Sample.w0 (ex_intro _ _ eq_refl))).
    reflexivity.
  - eexists. split; reflexivity.
Defined.

Lemma createComment_run (userId parent : string) (data : PostContentDTO) (w : World) :
  CommentServiceImpl.createComment userId parent data w
  = match validate_post_content data with
    | [] =>
        let w1 := record (RepositoryCall "CommentRepository.checkIfAuthorExists" [userId]) w in
        match users (db w) !! userId with
        | None =>
            if reads_as_uuid userId
            then (inl (NotFoundException (Some "user does not exists")), w1)
            else (inl invalid_uuid, w1)
        | Some _ =>
            let w2 := record (RepositoryCall "CommentRepository.checkIfParentPostExists"
                                [parent]) w1 in
            match findUnique post_id (posts (db w)) parent with
            | None =>
                if reads_as_uuid parent
                then (inl (NotFoundException (Some "post does not exists")), w2)
                else (inl invalid_uuid, w2)
            | Some _ =>
                (inr (new_comment userId parent data w),
                 {| db := {| users := users (db w); follows := follows (db w);
                             posts := posts (db w) ++ [new_comment userId parent data w];
                             reactions := reactions (db w); messages := messages (db w) |};
                    trace := trace w2 ++ [RepositoryCall "CommentRepository.create"
                                            [userId; parent]];
                    draws := S (draws w); clock := clock w; external := external w |})
            end
        end
    | errors => (inl (ValidationException errors), w)
    end.
Proof.
  unfold CommentServiceImpl.createComment, reject_invalid.
  destruct (validate_post_content data); [|done].
  rewrite bind_unfold. cbn [mret M_ret]. rewrite bind_unfold.
  unfold CommentRepositoryImpl.checkIfAuthorExists. run.
  destruct (users (db w) !! userId) eqn:Huser; cbn;
    [|by destruct (reads_as_uuid userId)].
  unfold CommentRepositoryImpl.checkIfParentPostExists. run.
  destruct (findUnique post_id (posts (db w)) parent) eqn:Hparent; cbn;
    [|by destruct (reads_as_uuid parent)].
  unfold CommentRepositoryImpl.create, fresh_uuid, set_db, record. run.
  rewrite Huser. run. rewrite Hparent. by run.
Qed.

(** X23. [createComment] answers with a validation error exactly when the
    content is empty or longer than 240 characters, or more than four images
    or an image name longer than 100 characters are given; it then has called
    no repository and stored nothing. *)
Theorem createComment_validates_content
    (userId parent : string) (data : PostContentDTO) (w : World) :
  (exists errors w',
     CommentServiceImpl.createComment userId parent data w
     = (inl (ValidationException errors), w'))
  <-> ~ content_ok data.
Proof.
  rewrite <- validate_post_content_ok, createComment_run.
  destruct (validate_post_content data) as [|e es].
  - split; [|done]. intros (errors & w' & Hrun). cbn zeta in Hrun.
    destruct (users (db w) !! userId); [|by destruct (reads_as_uuid userId)].
    destruct (findUnique post_id (posts (db w)) parent); [discriminate|].
    by destruct (reads_as_uuid parent).
  - split; [done|]. intros _. by eexists _, _.
Qed.

Lemma findUnique_key {A : Type} (key : A -> string) (l : list A) (k : string) (x : A) :
  findUnique key l k = Some x -> x ∈ l /\ key x = k.
Proof.
  unfold findUnique. intros H. apply find_some in H as [Hin Hk].
  split; [by apply list_elem_of_In | by apply String.eqb_eq].
Qed.

(** X24. [createComment] with acceptable content checks the author, then the
    parent, with the store's own reading of the two texts (the service does
    not validate them). An author id in canonical UUID spelling that is not
    stored is NotFound, and so is such a parent id once the author is found;
    an id that finds no row and does not read as a UUID makes the store
    reject the query, and that error is the outcome. None of these stores
    anything. When both rows are found exactly one row is appended, a reply
    to the parent by the caller with the image names as given, and the
    parent's comment count goes up by one. *)
Theorem createComment_outcomes
    (userId parent : string) (data : PostContentDTO) (w : World) :
  content_ok data ->
  let out := CommentServiceImpl.createComment userId parent data w in
  (users (db w) !! userId = None ->
     db out.2 = db w
     /\ (isUUID userId = true -> canonical userId ->
         out.1 = inl (NotFoundException (Some "user does not exists")))
     /\ (reads_as_uuid userId = false -> out.1 = inl invalid_uuid))
  /\ (is_Some (users (db w) !! userId) ->
      findUnique post_id (posts (db w)) parent = None ->
      db out.2 = db w
      /\ (isUUID parent = true -> canonical parent ->
          out.1 = inl (NotFoundException (Some "post does not exists")))
      /\ (reads_as_uuid parent = false -> out.1 = inl invalid_uuid))
  /\ (is_Some (users (db w) !! userId) ->
      forall p, findUnique post_id (posts (db w)) parent = Some p ->
      out.1 = inr (new_comment userId parent data w)
      /\ posts (db out.2) = (posts (db w) ++ [new_comment userId parent data w])%list
      /\ ExtendedPostDTO.qtyComments (extend_post (db out.2) p)
         = S (ExtendedPostDTO.qtyComments (extend_post (db w) p))).
Proof.
  intros Hok. apply validate_post_content_ok in Hok. cbn zeta.
  rewrite createComment_run, Hok. cbn zeta.
  split; [|split].
  - intros ->. split; [by destruct (reads_as_uuid userId)|]. split.
    + intros Hid _. by rewrite (isUUID_reads _ Hid).
    + by intros ->.
  - intros [u ->] ->. split; [by destruct (reads_as_uuid parent)|]. split.
    + intros Hid _. by rewrite (isUUID_reads _ Hid).
    + by intros ->.
  - intros [u ->] p Hp. rewrite Hp. cbn [fst snd db posts]. split; [done|]. split; [done|].
    apply findUnique_key in Hp as [_ Hid].
    unfold extend_post, post_comments. cbn [ExtendedPostDTO.qtyComments posts].
    rewrite List.filter_app, length_app. cbn [List.filter new_comment parentPostId].
    rewrite Hid, bool_decide_eq_true_2 by done. cbn. lia.
Qed.

Lemma createComment_outcomes_witness :
  (CommentServiceImpl.createComment Sample.bob Sample.p1
     {| pc_content := "hello"; pc_images := Some ["a.png"] |} Sample.w0).1
  = inr (new_comment Sample.bob Sample.p1
           {| pc_content := "hello"; pc_images := Some ["a.png"] |} Sample.w0)
  /\ (CommentServiceImpl.createComment Sample.bob "42"
        {| pc_content := "hello"; pc_images := Some ["a.png"] |} Sample.w0).1
     = inl invalid_uuid
  /\ (CommentServiceImpl.createComment Sample.bob Sample.alice
        {| pc_content := "hello"; pc_images := Some ["a.png"] |} Sample.w0).1
     = inl (NotFoundException (Some "post does not exists")).
Proof.
  assert (Hok : content_ok {| pc_content := "hello"; pc_images := Some ["a.png"] |}).
  { apply validate_post_content_ok. reflexivity. }
  split; [|split].
  - destruct (createComment_outcomes Sample.bob Sample.p1 _ Sample.w0 Hok)
      as (_ & _ & Hstored).
    destruct (Hstored (ex_intro _ _ eq_refl) _ eq_refl) as [Hres _]. exact Hres.
  - destruct (createComment_outcomes Sample.bob "42" _ Sample.w0 Hok) as (_ & Hparent & _).
    destruct (Hparent (ex_intro _ _ eq_refl) eq_refl) as (_ & _ & Hrejected).
    exact (Hrejected eq_refl).
  - destruct (createComment_outcomes Sample.bob Sample.alice _ Sample.w0 Hok)
      as (_ & Hparent & _).
    destruct (Hparent (ex_intro _ _ eq_refl) eq_refl) as (_ & Hmissing & _).
    exact (Hmissing eq_refl eq_refl).
Defined.

Lemma same_reaction_true (u p : string) (a : ReactionAction) (r : Reaction) :
  ReactionRepositoryImpl.same_reaction u p a r = true
  <-> reaction_authorId r = u /\ reaction_postId r = p /\ action r = a.
Proof.
  unfold ReactionRepositoryImpl.same_reaction.
  rewrite !andb_true_iff, !String.eqb_eq, bool_decide_eq_true. tauto.
Qed.

Lemma findFirst_reacted (d : Db) (u p : string) (a : ReactionAction) :
  is_Some (findFirst (reactions d) (ReactionRepositoryImpl.same_reaction u p a))
  <-> reacted d u p a.
Proof.
  rewrite findFirst_is_Some. unfold reacted.
  split; intros (r & Hin & Hr); exists r; (split; [done|]); by apply same_reaction_true.
Qed.

Lemma createReaction_run (userId postId : string) (a : ReactionAction) (w : World) :
  isUUID userId = true -> isUUID postId = true ->
  ReactionServiceImpl.createReaction userId postId a w
  = let w1 := record (RepositoryCall "ReactionRepository.postExists" [postId]) w in
    match findUnique post_id (posts (db w)) postId with
    | None => (inl (NotFoundException (Some "post not found")), w1)
    | Some _ =>
        let w2 := record (RepositoryCall "ReactionRepository.userExists" [userId]) w1 in
        match users (db w) !! userId with
        | None => (inl (NotFoundException (Some "user not found")), w2)
        | Some _ =>
            let w3 := record (RepositoryCall "ReactionRepository.checkReactionExists"
                                [userId; postId]) w2 in
            match findFirst (reactions (db w))
                    (ReactionRepositoryImpl.same_reaction userId postId a) with
            | Some _ => (inl (ConflictException (Some "reaction already Exists")), w3)
            | None =>
                (inr (new_reaction userId postId a w),
                 {| db := {| users := users (db w); follows := follows (db w);
                             posts := posts (db w);
                             reactions := reactions (db w) ++ [new_reaction userId postId a w];
                             messages := messages (db w) |};
                    trace := trace w3 ++ [RepositoryCall "ReactionRepository.create"
                                            [userId; postId]];
                    draws := S (draws w); clock := clock w; external := external w |})
            end
        end
    end.
Proof.
  intros Hu Hp. unfold ReactionServiceImpl.createReaction, reject_invalid,
    validate_create_reaction.
  rewrite (validate_uuid_pair_valid _ _ _ _ Hp Hu).
  rewrite bind_unfold. cbn [mret M_ret]. rewrite bind_unfold.
  unfold ReactionRepositoryImpl.postExists. run. read_ids. cbn.
  destruct (findUnique post_id (posts (db w)) postId) eqn:Hpost; cbn; [|done].
  unfold ReactionRepositoryImpl.userExists. run. read_ids. cbn.
  destruct (users (db w) !! userId) eqn:Huser; cbn; [|done].
  unfold ReactionRepositoryImpl.checkReactionExists. run. read_ids. cbn.
  destruct (findFirst (reactions (db w)) _); cbn; [done|].
  unfold ReactionRepositoryImpl.create, fresh_uuid, set_db, record. run.
  rewrite Huser. run. rewrite Hpost. by run.
Qed.

Lemma deleteReaction_run (userId postId : string) (a : ReactionAction) (w : World) :
  isUUID userId = true -> isUUID postId = true ->
  ReactionServiceImpl.deleteReaction userId postId a w
  = let w1 := record (RepositoryCall "ReactionRepository.postExists" [postId]) w in
    match findUnique post_id (posts (db w)) postId with
    | None => (inl (NotFoundException (Some "post not found")), w1)
    | Some _ =>
        let w2 := record (RepositoryCall "ReactionRepository.userExists" [userId]) w1 in
        match users (db w) !! userId with
        | None => (inl (NotFoundException (Some "user not found")), w2)
        | Some _ =>
            let w3 := record (RepositoryCall "ReactionRepository.checkReactionExists"
                                [userId; postId]) w2 in
            match findFirst (reactions (db w))
                    (ReactionRepositoryImpl.same_reaction userId postId a) with
            | None => (inl (ConflictException (Some "reaction does not Exists")), w3)
            | Some r =>
                (inr tt,
                 set_db {| users := users (db w); follows := follows (db w);
                           posts := posts (db w);
                           reactions :=
                             List.filter
                               (fun r' => negb (String.eqb (reaction_id r') (reaction_id r)))
                               (reactions (db w));
                           messages := messages (db w) |}
                   (record (RepositoryCall "ReactionRepository.delete" [userId; postId]) w3))
            end
        end
    end.
Proof.
  intros Hu Hp. unfold ReactionServiceImpl.deleteReaction, reject_invalid,
    validate_delete_reaction.
  assert (Hne : postId <> "") by (intros ->; discriminate Hp).
  rewrite (uuid_constraints_valid _ Hu), decide_False by done. cbn [check app].
  rewrite bind_unfold. cbn [mret M_ret]. rewrite bind_unfold.
  unfold ReactionRepositoryImpl.postExists. run. read_ids. cbn.
  destruct (findUnique post_id (posts (db w)) postId); cbn; [|done].
  unfold ReactionRepositoryImpl.userExists. run. read_ids. cbn.
  destruct (users (db w) !! userId); cbn; [|done].
  unfold ReactionRepositoryImpl.checkReactionExists. run. read_ids. cbn.
  destruct (findFirst (reactions (db w)) _) as [r|] eqn:Hfind; cbn; [|done].
  unfold ReactionRepositoryImpl.delete. run. rewrite Hfind. run. done.
Qed.

Lemma findFirst_not_reacted (d : Db) (u p : string) (a : ReactionAction) :
  ~ reacted d u p a ->
  findFirst (reactions d) (ReactionRepositoryImpl.same_reaction u p a) = None.
Proof.
  intros Hno. destruct (findFirst _ _) as [r|] eqn:E; [|done].
  exfalso. apply Hno, findFirst_reacted. rewrite E. by eexists.
Qed.

(** X25. A first reaction of a stored user to a stored post is stored and
    raises the post's count of that action, and of no other, by one; the
    same reaction again right after is a Conflict that changes nothing,
    while the other action is still accepted. *)
Theorem react_twice_conflicts (userId postId : string) (a : ReactionAction) (p : Post) (w : World) :
  isUUID userId = true -> isUUID postId = true ->
  findUnique post_id (posts (db w)) postId = Some p ->
  is_Some (users (db w) !! userId) ->
  (forall b, ~ reacted (db w) userId postId b) ->
  exists w1 w2,
    ReactionServiceImpl.createReaction userId postId a w
    = (inr (new_reaction userId postId a w), w1)
    /\ reactions (db w1) = (reactions (db w) ++ [new_reaction userId postId a w])%list
    /\ ExtendedPostDTO.qtyLikes (extend_post (db w1) p)
       = (ExtendedPostDTO.qtyLikes (extend_post (db w) p)
          + if decide (a = LIKE) then 1 else 0)%nat
    /\ ExtendedPostDTO.qtyRetweets (extend_post (db w1) p)
       = (ExtendedPostDTO.qtyRetweets (extend_post (db w) p)
          + if decide (a = RETWEET) then 1 else 0)%nat
    /\ ReactionServiceImpl.createReaction userId postId a w1
       = (inl (ConflictException (Some "reaction already Exists")), w2)
    /\ db w2 = db w1
    /\ forall b, b <> a ->
         (ReactionServiceImpl.createReaction userId postId b w1).1
         = inr (new_reaction userId postId b w1).
Proof.
  intros Hu Hp Hpost [u Huser] Hno.
  pose proof (createReaction_run userId postId a w Hu Hp) as Hrun.
  cbn zeta in Hrun. rewrite Hpost, Huser, (findFirst_not_reacted _ _ _ _ (Hno a)) in Hrun.
  eexists _, _. split; [exact Hrun|]. split; [done|].
  apply findUnique_key in Hpost as Hkey. destruct Hkey as [_ Hid].
  assert (Hnew : findFirst (reactions (db w) ++ [new_reaction userId postId a w])
                   (ReactionRepositoryImpl.same_reaction userId postId a)
                 = Some (new_reaction userId postId a w)).
  { apply findFirst_app_new; [by apply findFirst_not_reacted|]. by apply same_reaction_true. }
  split; [|split; [|split; [|split]]].
  - unfold extend_post, post_reactions. cbn [ExtendedPostDTO.qtyLikes reactions db].
    rewrite !List.filter_app, length_app. cbn [List.filter new_reaction reaction_postId].
    rewrite Hid, String.eqb_refl. cbn [List.filter action].
    by destruct a; cbn.
  - unfold extend_post, post_reactions. cbn [ExtendedPostDTO.qtyRetweets reactions db].
    rewrite !List.filter_app, length_app. cbn [List.filter new_reaction reaction_postId].
    rewrite Hid, String.eqb_refl. cbn [List.filter action].
    by destruct a; cbn.
  - rewrite (createReaction_run userId postId a _ Hu Hp). cbn zeta. cbn [db posts users reactions].
    rewrite Hpost, Huser, Hnew. reflexivity.
  - done.
  - intros b Hb. rewrite (createReaction_run userId postId b _ Hu Hp). cbn zeta.
    cbn [db posts users reactions]. rewrite Hpost, Huser.
    assert (Hnone : findFirst (reactions (db w) ++ [new_reaction userId postId a w])
                      (ReactionRepositoryImpl.same_reaction userId postId b) = None).
    { apply findFirst_None. intros r Hr. apply elem_of_app in Hr as [Hr|Hr].
      - destruct (ReactionRepositoryImpl.same_reaction userId postId b r) eqn:E; [|done].
        exfalso. apply (Hno b). exists r. split; [done|]. by apply same_reaction_true.
      - apply list_elem_of_singleton in Hr as ->.
        destruct (ReactionRepositoryImpl.same_reaction userId postId b _) eqn:E; [|done].
        apply same_reaction_true in E as (_ & _ & E). cbn in E. congruence. }
    rewrite Hnone. reflexivity.
Qed.

Lemma react_twice_conflicts_witness :
  exists w1 w2,
    ReactionServiceImpl.createReaction Sample.bob Sample.p1 LIKE Sample.w0
    = (inr (new_reaction Sample.bob Sample.p1 LIKE Sample.w0), w1)
    /\ ReactionServiceImpl.createReaction Sample.bob Sample.p1 LIKE w1
       = (inl (ConflictException (Some "reaction already Exists")), w2)
    /\ (ReactionServiceImpl.createReaction Sample.bob Sample.p1 RETWEET w1).1
       = inr (new_reaction Sample.bob Sample.p1 RETWEET w1).
Proof.
  destruct (react_twice_conflicts Sample.bob Sample.p1 LIKE
              (Sample.mkPost Sample.p1 Sample.alice 10 None) Sample.w0
              eq_refl eq_refl eq_refl (ex_intro _ _ eq_refl))
    as (w1 & w2 & Hfirst & _ & _ & _ & Hagain & _ & Hother).
  - intros b (r & Hin & _). cbn in Hin. by apply elem_of_nil in Hin.
  - exists w1, w2. split; [exact Hfirst|]. split; [exact Hagain|]. by apply Hother.
Defined.

(** X26. React then take the reaction back: both succeed, the user no longer
    has that reaction to the post, and every stored reaction with another id
    is kept. *)
Theorem react_then_unreact (userId postId : string) (a : ReactionAction) (w : World) :
  isUUID userId = true -> isUUID postId = true ->
  is_Some (findUnique post_id (posts (db w)) postId) ->
  is_Some (users (db w) !! userId) ->
  ~ reacted (db w) userId postId a ->
  exists r w1 w2,
    ReactionServiceImpl.createReaction userId postId a w = (inr r, w1)
    /\ ReactionServiceImpl.deleteReaction userId postId a w1 = (inr tt, w2)
    /\ ~ reacted (db w2) userId postId a
    /\ forall r', r' ∈ reactions (db w) -> reaction_id r' <> reaction_id r ->
         r' ∈ reactions (db w2).
Proof.
  intros Hu Hp [p Hpost] [u Huser] Hno.
  pose proof (createReaction_run userId postId a w Hu Hp) as Hrun.
  cbn zeta in Hrun. rewrite Hpost, Huser, (findFirst_not_reacted _ _ _ _ Hno) in Hrun.
  set (r := new_reaction userId postId a w) in *.
  eexists r, _, _. split; [exact Hrun|].
  rewrite (deleteReaction_run userId postId a _ Hu Hp). cbn zeta.
  cbn [db posts users reactions]. rewrite Hpost, Huser.
  rewrite (findFirst_app_new _ _ r (findFirst_not_reacted _ _ _ _ Hno))
    by by apply same_reaction_true.
  split; [reflexivity|]. cbn [db set_db reactions].
  rewrite List.filter_app. cbn [List.filter]. rewrite String.eqb_refl. cbn [negb].
  rewrite app_nil_r. split.
  - intros (r' & Hin & Hr'). apply Hno. exists r'. split; [|done].
    by apply elem_of_list_filter_bool in Hin as [Hin _].
  - intros r' Hin Hid. apply elem_of_list_filter_bool. split; [done|].
    apply negb_true_iff. by apply String.eqb_neq.
Qed.

Lemma react_then_unreact_witness :
  exists r w1 w2,
    ReactionServiceImpl.createReaction Sample.bob Sample.p1 LIKE Sample.w0 = (inr r, w1)
    /\ ReactionServiceImpl.deleteReaction Sample.bob Sample.p1 LIKE w1 = (inr tt, w2)
    /\ ~ reacted (db w2) Sample.bob Sample.p1 LIKE.
Proof.
  destruct (react_then_unreact Sample.bob Sample.p1 LIKE Sample.w0
              eq_refl eq_refl (ex_intro _ _ eq_refl) (ex_intro _ _ eq_refl))
    as (r & w1 & w2 & Hc & Hd & Hgone & _).
  - intros (r & Hin & _). cbn in Hin. by apply elem_of_nil in Hin.
  - by exists r, w1, w2.
Defined.

(** X27. The two reaction DTOs differ on [postId]: a non-empty post id that
    is not a UUID makes [createReaction] stop with a validation error before
    any repository call, whereas [deleteReaction] lets it through to the
    store. When the text finds no post and does not read as a UUID the store
    rejects the query of [postExists], and that error is the outcome of
    [deleteReaction]: neither a validation error nor NotFound. *)
Theorem deleteReaction_accepts_malformed_post_id
    (userId postId : string) (a : ReactionAction) (w : World) :
  isUUID userId = true -> postId <> "" -> isUUID postId = false ->
  (exists errors,
     ReactionServiceImpl.createReaction userId postId a w
     = (inl (ValidationException errors), w))
  /\ (forall errors w',
        ReactionServiceImpl.deleteReaction userId postId a w
        <> (inl (ValidationException errors), w'))
  /\ (findUnique post_id (posts (db w)) postId = None ->
      reads_as_uuid postId = false ->
      ReactionServiceImpl.deleteReaction userId postId a w
      = (inl invalid_uuid,
         record (RepositoryCall "ReactionRepository.postExists" [postId]) w)).
Proof.
  intros Hu Hne Hbad.
  assert (Hstart : ReactionServiceImpl.deleteReaction userId postId a w
                   = (postExists ← ReactionRepositoryImpl.postExists postId;
                      if negb postExists then throw (NotFoundException (Some "post not found"))
                      else
                        userExists ← ReactionRepositoryImpl.userExists userId;
                        if negb userExists
                        then throw (NotFoundException (Some "user not found"))
                        else
                          exists_ ← ReactionRepositoryImpl.checkReactionExists userId postId a;
                          if negb exists_
                          then throw (ConflictException (Some "reaction does not Exists"))
                          else ReactionRepositoryImpl.delete userId postId a;; mret tt) w).
  { unfold ReactionServiceImpl.deleteReaction, reject_invalid, validate_delete_reaction.
    rewrite (uuid_constraints_valid _ Hu), decide_False by done. cbn [check app].
    rewrite bind_unfold. by cbn [mret M_ret]. }
  split; [|split].
  - unfold ReactionServiceImpl.createReaction, reject_invalid, validate_create_reaction,
      validate_uuid_pair, uuid_constraints.
    rewrite Hbad, Hu, decide_False by done.
    destruct (decide (userId = "")); cbn; by eexists.
  - intros errors w'. rewrite Hstart, bind_unfold.
    unfold ReactionRepositoryImpl.postExists. run.
    destruct (findUnique post_id (posts (db w)) postId); cbn;
      [|by destruct (reads_as_uuid postId && true)].
    unfold ReactionRepositoryImpl.userExists. run. read_ids. cbn.
    destruct (users (db w) !! userId); cbn; [|done].
    unfold ReactionRepositoryImpl.checkReactionExists. run. read_ids. cbn.
    destruct (findFirst (reactions (db w)) _) as [r|] eqn:Hfind; cbn;
      [|by destruct (reads_as_uuid postId && true)].
    unfold ReactionRepositoryImpl.delete. run. by rewrite Hfind.
  - intros Hnone Hunread. rewrite Hstart, bind_unfold.
    unfold ReactionRepositoryImpl.postExists. run. by rewrite Hnone, Hunread.
Qed.

Lemma deleteReaction_accepts_malformed_post_id_witness :
  ReactionServiceImpl.deleteReaction Sample.bob "42" LIKE Sample.w0
  = (inl invalid_uuid,
     record (RepositoryCall "ReactionRepository.postExists" ["42"]) Sample.w0).
Proof.
  destruct (deleteReaction_accepts_malformed_post_id Sample.bob "42" LIKE Sample.w0 eq_refl)
    as (_ & _ & Hrun); [discriminate | reflexivity |].
  by apply Hrun.
Defined.

(** What the body of the handler does to the tables, ids as spelled. *)
Lemma onMessage_gate
    (socketId senderId receiverId content : string) (w : World) :
  let out := SocketIoServer.onMessage socketId senderId receiverId content w in
  out.1 = inr tt
  /\ users (db out.2) = users (db w) /\ follows (db out.2) = follows (db w)
  /\ posts (db out.2) = posts (db w) /\ reactions (db out.2) = reactions (db w)
  /\ (messages (db out.2) = messages (db w)
      \/ (messages (db out.2)
          = (messages (db w) ++
             [{| message_id := randomUUID (external w) (draws w);
                 message_data := {| senderId := senderId; receiverId := receiverId;
                                    msg_content := content |};
                 message_createdAt := clock w |}])%list
          /\ isUUID senderId = true /\ isUUID receiverId = true
          /\ is_Some (users (db w) !! receiverId)
          /\ (senderId = receiverId \/ follows_edge (db w) senderId receiverId)
          /\ content <> "")).
Proof.
  cbn zeta. unfold SocketIoServer.onMessage, try_catch.
  rewrite bind_unfold, checkIfUserExists_run.
  destruct (isUUID receiverId) eqn:Hr; [|cbn; repeat split; by left].
  rewrite is_Some_bool_decide.
  destruct (users (db w) !! receiverId) as [u|] eqn:Hu; [|cbn; repeat split; by left].
  rewrite bind_unfold, isUserFollowed_run. cbn [db record]. rewrite Hr, Hu.
  destruct (isUUID senderId) eqn:Hs; cbn [negb orb]; [|cbn; repeat split; by left].
  assert (Hgate :
    (if decide (senderId = receiverId) then true
     else bool_decide (is_Some (findFirst (follows (db w)) (same_follow senderId receiverId))))
    = true -> senderId = receiverId \/ follows_edge (db w) senderId receiverId).
  { destruct (decide (senderId = receiverId)) as [|Hne]; [by left|].
    intros H. right. apply findFirst_follow_edge. by apply bool_decide_eq_true in H. }
  destruct (decide (senderId = receiverId)) as [Heq|Hne].
  - rewrite !bind_unfold. unfold emit. rewrite bind_unfold, message_create_run.
    rewrite validate_message_valid by done. cbn [msg_content].
    destruct (decide (content = "")) as [Hc|Hc]; cbn; [repeat split; by left|].
    split; [done|]. split; [done|]. split; [done|]. split; [done|]. split; [done|].
    right. split; [done|]. split; [done|]. split; [done|]. split; [by eexists|].
    split; [by left | done].
  - destruct (bool_decide _) eqn:Hf; [|cbn; repeat split; by left].
    rewrite !bind_unfold. unfold emit. rewrite bind_unfold, message_create_run.
    rewrite validate_message_valid by done. cbn [msg_content].
    destruct (decide (content = "")) as [Hc|Hc]; cbn; [repeat split; by left|].
    split; [done|]. split; [done|]. split; [done|]. split; [done|]. split; [done|].
    right. split; [done|]. split; [done|]. split; [done|]. split; [by eexists|].
    split; [by apply Hgate | done].
Qed.

(** X28. The ['message'] handler with no payload throws before its [try]
    and leaves everything as it was. With a payload of a receiver and a
    content it returns normally and touches no table but the messages; it
    stores at most one row, and then only a message with the socket user as
    sender, that receiver and that non-empty content, both ids well formed;
    for ids in canonical spelling the receiver is then a stored user who is
    the sender or is followed by them. *)
Theorem message_handler_stores_only_gated
    (socketId sender : string) (payload : option (string * string)) (w : World) :
  let out := SocketIoServer.message_handler socketId sender payload w in
  (payload = None -> exists error, out = (inl (JsError error), w))
  /\ (forall receiver content, payload = Some (receiver, content) ->
      out.1 = inr tt
      /\ users (db out.2) = users (db w) /\ follows (db out.2) = follows (db w)
      /\ posts (db out.2) = posts (db w) /\ reactions (db out.2) = reactions (db w)
      /\ (messages (db out.2) = messages (db w)
          \/ (exists row,
                messages (db out.2) = (messages (db w) ++ [row])%list
                /\ message_id row = randomUUID (external w) (draws w)
                /\ message_createdAt row = clock w
                /\ msg_content (message_data row) = content
                /\ same_value (senderId (message_data row)) sender
                /\ same_value (receiverId (message_data row)) receiver
                /\ isUUID sender = true /\ isUUID receiver = true
                /\ content <> ""
                /\ (canonical sender -> canonical receiver ->
                    is_Some (users (db w) !! receiver)
                    /\ (sender = receiver \/ follows_edge (db w) sender receiver))))).
Proof.
  cbn zeta. split.
  - intros ->. by eexists.
  - intros receiver content ->. cbn [SocketIoServer.message_handler].
    destruct (onMessage_gate socketId sender receiver content w)
      as (Hret & Husers & Hfollows & Hposts & Hreactions & Hmessages).
    split; [done|]. split; [done|]. split; [done|]. split; [done|]. split; [done|].
    destruct Hmessages as [Hsame | (Hrow & Hs & Hr & Huser & Hgate & Hcontent)];
      [by left|].
    right. eexists. split; [exact Hrow|]. cbn. by repeat split.
Qed.

Lemma message_handler_stores_only_gated_witness :
  (exists error,
     SocketIoServer.message_handler "socket-1" Sample.dave None Sample.w0
     = (inl (JsError error), Sample.w0))
  /\ (SocketIoServer.message_handler "socket-1" Sample.dave (Some (Sample.bob, "hi"))
        Sample.w0).1 = inr tt.
Proof.
  split.
  - destruct (message_handler_stores_only_gated "socket-1" Sample.dave None Sample.w0)
      as [Hthrows _].
    exact (Hthrows eq_refl).
  - destruct (message_handler_stores_only_gated "socket-1" Sample.dave
                (Some (Sample.bob, "hi")) Sample.w0) as [_ Hreturns].
    destruct (Hreturns Sample.bob "hi" eq_refl) as [Hdone _]. exact Hdone.
Defined.

Lemma chat_precedes_iff (a b : Message) :
  precedes message_compare_on chat_orderBy a b = true
  <-> message_createdAt a <= message_createdAt b.
Proof.
  unfold precedes, chat_orderBy. cbn.
  destruct (Z.compare_spec (message_createdAt a) (message_createdAt b));
    intuition (try lia; try discriminate).
Qed.

Lemma StronglySorted_weaken {A : Type} (R S : A -> A -> Prop) (l : list A) :
  (forall a b, R a b -> S a b) -> StronglySorted R l -> StronglySorted S l.
Proof.
  intros HRS. induction 1 as [|x l Hl IH Hx]; constructor; [exact IH|].
  eapply Forall_impl; [exact Hx|]. intros y. apply HRS.
Qed.

Lemma chat_rows_sorted (rows : list Message) :
  StronglySorted (fun a b => message_createdAt a <= message_createdAt b)
    (sort_rows message_compare_on chat_orderBy rows).
Proof.
  eapply StronglySorted_weaken; [|apply sort_rows_sorted].
  - intros a b Hab. by apply chat_precedes_iff.
  - intros a b. rewrite !chat_precedes_iff. lia.
  - intros a b c. rewrite !chat_precedes_iff. lia.
Qed.

(** X29. A chat history that is returned is not empty and holds, in sending
    order whatever the pagination options, stored messages from the asking
    sender to the receiver only (the receiver's replies are not part of it);
    and it is returned only when the receiver is a stored user the sender
    follows. Nothing is written. *)
Theorem chat_history_is_one_way
    (sender receiver : string) (options : CursorPagination) (page : list MessageDTO)
    (w w' : World) :
  MessageServiceImpl.getAllMessagesFromChatPaginated sender receiver options w = (inr page, w') ->
  db w' = db w
  /\ page <> []
  /\ is_Some (users (db w) !! receiver)
  /\ follows_edge (db w) sender receiver
  /\ exists rows,
       page = message_data <$> rows
       /\ StronglySorted (fun a b => message_createdAt a <= message_createdAt b) rows
       /\ forall row, row ∈ rows ->
            row ∈ messages (db w)
            /\ senderId (message_data row) = sender
            /\ receiverId (message_data row) = receiver.
Proof.
  unfold MessageServiceImpl.getAllMessagesFromChatPaginated, reject_invalid.
  destruct (validate_uuid_pair _ _ _ _) eqn:Hvalid; [|discriminate].
  apply validate_uuid_pair_nil in Hvalid as [Hs Hr].
  rewrite bind_unfold. cbn [mret M_ret]. rewrite bind_unfold.
  unfold UserRepositoryImpl.isUserFollowed. run. read_ids. cbn.
  destruct (users (db w) !! receiver) as [u|] eqn:Hu; cbn; [|discriminate].
  destruct (findFirst (follows (db w)) (same_follow sender receiver)) as [f|] eqn:Hedge;
    cbn; [|discriminate].
  assert (Hfollows : follows_edge (db w) sender receiver).
  { apply findFirst_follow_edge. rewrite Hedge. by eexists. }
  clear Hedge. rename Hfollows into Hedge.
  unfold MessageRepositoryImpl.getAllMessagesFromChatPaginated. run.
  set (q := {| q_where := _ |}).
  destruct (message_data <$> message_findMany (messages (db w)) q) as [|m ms] eqn:Hpage;
    [discriminate|].
  intros [= <- <-]. split; [done|]. split; [done|]. split; [by eexists|]. split; [done|].
  exists (message_findMany (messages (db w)) q). split; [done|]. split.
  - unfold message_findMany. eapply StronglySorted_sublist; [apply findMany_sublist|].
    unfold finalize_order. cbn [q_orderBy q]. apply chat_rows_sorted.
  - intros row Hrow. apply findMany_elem in Hrow as [Hin Hwhere]. cbn in Hwhere.
    apply andb_true_iff in Hwhere as [Hs' Hr']. apply String.eqb_eq in Hs', Hr'. done.
Qed.

Lemma chat_history_is_one_way_witness :
  exists w1 page w',
    w1 = (SocketIoServer.onMessage "socket" Sample.dave Sample.bob "hi" Sample.w0).2
    /\ MessageServiceImpl.getAllMessagesFromChatPaginated Sample.dave Sample.bob
         {| limit := None; before := None; after := None |} w1 = (inr page, w')
    /\ page = [{| senderId := Sample.dave; receiverId := Sample.bob; msg_content := "hi" |}]
    /\ follows_edge (db w1) Sample.dave Sample.bob.
Proof.
  eexists _, _, _. split; [reflexivity|]. split; [reflexivity|]. split; [reflexivity|].
  eapply (chat_history_is_one_way Sample.dave Sample.bob
            {| limit := None; before := None; after := None |}).
  reflexivity.
Defined.



